(** * Microchip CoreSPI controller driver: transfer engine

    A shallow embedding of [drivers/spi/spi-microchip-core.c]: the clock
    divider computation, the FIFO fill and drain loops, the interrupt
    handler, the transfer entry point and the chip-select operation,
    together with the properties of the transfer engine that the
    specification states about them.

    The driver reaches the controller only through [readl] and [writel];
    the embedding keeps that interface abstract (class [Mmio]) and records
    every access in a log, so that statements about "what is written to
    which register" are statements about the log.  *)

From Stdlib Require Import ZArith List Bool Lia.
Import ListNotations.
Local Open Scope Z_scope.

(** ** C integer types *)

Module CInt.

Definition u8 (x : Z) : Z := x mod 2 ^ 8.
Definition u16 (x : Z) : Z := x mod 2 ^ 16.
Definition u32 (x : Z) : Z := x mod 2 ^ 32.
  (** [unsigned long] on the 64-bit targets the driver is built for. *)
Definition ulong (x : Z) : Z := x mod 2 ^ 64.
  (** [int], two's complement with wrap-around (the kernel is built with
      [-fno-strict-overflow]). *)
Definition s32 (x : Z) : Z := (x + 2 ^ 31) mod 2 ^ 32 - 2 ^ 31.

Definition INT_MIN : Z := - 2 ^ 31.
Definition INT_MAX : Z := 2 ^ 31 - 1.
Definition int_range (x : Z) : Prop := INT_MIN <= x <= INT_MAX.

  (** [~x] at [unsigned long]. *)
Definition not64 (x : Z) : Z := ulong (Z.lnot x).

  (** Kernel helpers used by the driver ([linux/bits.h], [linux/math.h],
      [linux/bitops.h], [linux/minmax.h]); they are not part of the driver
      file and are written here from their kernel definitions:
      [BIT(n) = 1UL << n], [GENMASK(h, l)] the bits [l..h],
      [DIV_ROUND_UP(n, d) = (n + d - 1) / d] at [unsigned long],
      [fls(x)] the 1-based index of the most significant set bit of the
      [unsigned int] [x], with [fls(0) = 0]. *)
Definition BIT (n : Z) : Z := ulong (Z.shiftl 1 n).
Definition GENMASK (h l : Z) : Z :=
    ulong (Z.shiftl (Z.ones (h - l + 1)) l).
Definition fls (x : Z) : Z :=
    let x := u32 x in if x =? 0 then 0 else Z.log2 x + 1.

  (** Unsigned division; [None] stands for the division by zero, which C
      leaves undefined. *)
Definition udiv (n d : Z) : option Z :=
    if d =? 0 then None else Some (n / d).
Definition DIV_ROUND_UP (n d : Z) : option Z :=
    udiv (ulong (ulong (n + d) - 1)) d.

End CInt.
Import CInt.

(** ** Register map and bit fields *)

Definition MAX_LEN : Z := 0xffff.
Definition MAX_CS : Z := 8.
Definition DEFAULT_FRAMESIZE : Z := 8.
Definition FIFO_DEPTH : Z := 32.
Definition CLK_GEN_MODE1_MAX : Z := 255.
Definition CLK_GEN_MODE0_MAX : Z := 15.
Definition CLK_GEN_MIN : Z := 0.

Definition CONTROL_ENABLE : Z := Eval cbv in BIT 0.
Definition CONTROL_MASTER : Z := Eval cbv in BIT 1.
Definition CONTROL_RX_DATA_INT : Z := Eval cbv in BIT 4.
Definition CONTROL_TX_DATA_INT : Z := Eval cbv in BIT 5.
Definition CONTROL_RX_OVER_INT : Z := Eval cbv in BIT 6.
Definition CONTROL_TX_UNDER_INT : Z := Eval cbv in BIT 7.
Definition CONTROL_CLKMODE : Z := Eval cbv in BIT 28.
Definition CONTROL_FRAMECNT_MASK : Z := Eval cbv in GENMASK 23 8.
Definition CONTROL_FRAMECNT_SHIFT : Z := 8.

Definition STATUS_TXFIFO_FULL : Z := Eval cbv in BIT 8.
Definition STATUS_RXFIFO_EMPTY : Z := Eval cbv in BIT 6.

Definition INT_TXDONE : Z := Eval cbv in BIT 0.
Definition INT_RXRDY : Z := Eval cbv in BIT 1.
Definition INT_RX_CHANNEL_OVERFLOW : Z := Eval cbv in BIT 2.
Definition INT_TX_CHANNEL_UNDERRUN : Z := Eval cbv in BIT 3.

Definition REG_CONTROL : Z := 0x00.
Definition REG_FRAME_SIZE : Z := 0x04.
Definition REG_STATUS : Z := 0x08.
Definition REG_INT_CLEAR : Z := 0x0c.
Definition REG_RX_DATA : Z := 0x10.
Definition REG_TX_DATA : Z := 0x14.
Definition REG_CLK_GEN : Z := 0x18.
Definition REG_SLAVE_SELECT : Z := 0x1c.
Definition SSEL_MASK : Z := Eval cbv in GENMASK 7 0.
Definition SSEL_DIRECT : Z := Eval cbv in BIT 8.
Definition SSELOUT_SHIFT : Z := 9.
Definition SSELOUT : Z := Eval cbv in BIT SSELOUT_SHIFT.
Definition REG_MIS : Z := 0x20.
Definition REG_FRAMESUP : Z := 0x50.

Definition EINVAL : Z := 22.
Definition IRQ_NONE : Z := 0.
Definition IRQ_HANDLED : Z := 1.

(** ** Driver state *)

(** [struct mchp_corespi].  [regs] and [clk] are handles to the register
    block and to the clock; the register block is the [hw] component of
    the machine below and the clock is represented by its rate.  Pointers
    are addresses, [0] is [NULL]. *)
Record mchp_corespi : Type := Build_corespi {
  tx_buf : Z;
  rx_buf : Z;
  clk_gen : Z;
  clk_mode : Z;
  tx_len : Z;
  rx_len : Z;
  pending : Z
}.

Definition set_tx_buf (v : Z) (s : mchp_corespi) : mchp_corespi :=
  Build_corespi v (rx_buf s) (clk_gen s) (clk_mode s) (tx_len s) (rx_len s) (pending s).
Definition set_rx_buf (v : Z) (s : mchp_corespi) : mchp_corespi :=
  Build_corespi (tx_buf s) v (clk_gen s) (clk_mode s) (tx_len s) (rx_len s) (pending s).
Definition set_clk_gen (v : Z) (s : mchp_corespi) : mchp_corespi :=
  Build_corespi (tx_buf s) (rx_buf s) v (clk_mode s) (tx_len s) (rx_len s) (pending s).
Definition set_clk_mode (v : Z) (s : mchp_corespi) : mchp_corespi :=
  Build_corespi (tx_buf s) (rx_buf s) (clk_gen s) v (tx_len s) (rx_len s) (pending s).
Definition set_tx_len (v : Z) (s : mchp_corespi) : mchp_corespi :=
  Build_corespi (tx_buf s) (rx_buf s) (clk_gen s) (clk_mode s) v (rx_len s) (pending s).
Definition set_rx_len (v : Z) (s : mchp_corespi) : mchp_corespi :=
  Build_corespi (tx_buf s) (rx_buf s) (clk_gen s) (clk_mode s) (tx_len s) v (pending s).
Definition set_pending (v : Z) (s : mchp_corespi) : mchp_corespi :=
  Build_corespi (tx_buf s) (rx_buf s) (clk_gen s) (clk_mode s) (tx_len s) (rx_len s) v.

(** The part of [struct spi_transfer] the driver reads. *)
Record spi_transfer : Type := Build_xfer {
  xfer_tx_buf : Z;
  xfer_rx_buf : Z;
  xfer_len : Z;        (* unsigned *)
  xfer_speed_hz : Z    (* u32 *)
}.

(** ** Clock divider computation *)

Definition obind {A B : Type} (o : option A) (f : A -> option B) : option B :=
  match o with Some a => f a | None => None end.

(** [mchp_corespi_calculate_clkgen].  [clk_hz] is what
    [clk_get_rate(spi->clk)] returns.  The result is the return value and
    the updated structure; [None] is a division by zero. *)
Definition mchp_corespi_calculate_clkgen
    (clk_hz : Z) (s : mchp_corespi) (target_hz : Z) : option (Z * mchp_corespi) :=
  if clk_hz =? 0 then Some (- EINVAL, s) else
  let spi_hz := Z.min target_hz clk_hz in
  obind (DIV_ROUND_UP clk_hz (ulong (2 * spi_hz))) (fun q1 =>
  let clk_gen := ulong (q1 - 1) in
  if (clk_gen >? CLK_GEN_MODE1_MAX) || (clk_gen <=? CLK_GEN_MIN) then
    obind (DIV_ROUND_UP clk_hz spi_hz) (fun q0 =>
    let clk_gen := ulong (fls q0 - 1) in
    if clk_gen >? CLK_GEN_MODE0_MAX then Some (- EINVAL, s)
    else Some (0, set_clk_gen (u32 clk_gen) (set_clk_mode 0 s)))
  else Some (0, set_clk_gen (u32 clk_gen) (set_clk_mode 1 s))).

(** The division ratios of the two clock modes, as the comment in
    [mchp_corespi_calculate_clkgen] gives them:
    [CLK_MODE = 0: 1 / (2^(CLK_GEN + 1))], [CLK_GEN = 0 to 15];
    [CLK_MODE = 1: 1 / (2 * CLK_GEN + 1)], [CLK_GEN = 0 to 255].
    The specification calls mode 1 "scheme A" and mode 0 "scheme B". *)
Definition clk_divisor (mode d : Z) : Z :=
  if mode =? 0 then 2 ^ (d + 1) else 2 * d + 1.
Definition effective_rate (clk_hz mode d : Z) : Z := clk_hz / clk_divisor mode d.

(** What [DIV_ROUND_UP(clk_hz, 2 * spi_hz) - 1] and
    [fls(DIV_ROUND_UP(clk_hz, spi_hz)) - 1] evaluate to when nothing
    wraps. *)
Definition clkgen_mode1 (clk_hz t : Z) : Z := (clk_hz - 1) / (2 * t).
Definition clkgen_mode0 (clk_hz t : Z) : Z := Z.log2 ((clk_hz - 1) / t + 1).

(** ** Memory-mapped I/O, memory and the event log *)

(** The register block.  [readl] may change the device (reading
    [REG_RX_DATA] takes an entry out of the input FIFO). *)
Class Mmio (HW : Type) : Type := {
  readl : HW -> Z -> Z * HW;
  writel : HW -> Z -> Z -> HW
}.

Inductive klog : Type :=
| RxOverflow (rxlen txlen : Z)
| TxUnderflow (rxlen txlen : Z)
| ClkGenFailed (speed_hz : Z).

(** What the driver does to the outside: register accesses, [dev_err]
    messages and [spi_finalize_current_transfer]. *)
Inductive event : Type :=
| MmioRead (reg val : Z)
| MmioWrite (reg val : Z)
| DevErr (msg : klog)
| FinalizeCurrentTransfer.

(** Byte-addressed memory holding the caller's buffers. *)
Definition memory : Type := Z -> Z.
Definition store (m : memory) (a v : Z) : memory :=
  fun x => if x =? a then v else m x.

Fixpoint store_bytes (m : memory) (a : Z) (bs : list Z) : memory :=
  match bs with
  | [] => m
  | b :: bs' => store_bytes (store m a b) (a + 1) bs'
  end.

Fixpoint load_bytes (m : memory) (a : Z) (n : nat) : list Z :=
  match n with
  | O => []
  | S n' => m a :: load_bytes m (a + 1) n'
  end.

Record machine (HW : Type) : Type := Build_machine {
  hw : HW;
  clk_rate : Z;          (* clk_get_rate(spi->clk) *)
  spi : mchp_corespi;
  mem : memory;
  log : list event
}.
Arguments Build_machine {HW}.
Arguments hw {HW}.
Arguments clk_rate {HW}.
Arguments spi {HW}.
Arguments mem {HW}.
Arguments log {HW}.

(** Projections of the log. *)
Definition is_fifo_access (e : event) : bool :=
  match e with
  | MmioRead r _ | MmioWrite r _ => (r =? REG_RX_DATA) || (r =? REG_TX_DATA)
  | _ => false
  end.

Fixpoint tx_data_writes (l : list event) : list Z :=
  match l with
  | [] => []
  | MmioWrite r v :: l' =>
      if r =? REG_TX_DATA then v :: tx_data_writes l' else tx_data_writes l'
  | _ :: l' => tx_data_writes l'
  end.

Fixpoint rx_data_reads (l : list event) : list Z :=
  match l with
  | [] => []
  | MmioRead r v :: l' =>
      if r =? REG_RX_DATA then v :: rx_data_reads l' else rx_data_reads l'
  | _ :: l' => rx_data_reads l'
  end.

Definition is_write (e : event) : bool :=
  match e with MmioWrite _ _ => true | _ => false end.

Definition is_finalize (e : event) : bool :=
  match e with FinalizeCurrentTransfer => true | _ => false end.

Definition finalized (l : list event) : bool := existsb is_finalize l.

(** ** The driver *)

Section Driver.
  Context {HW : Type} {io : Mmio HW}.

Definition M (A : Type) : Type := machine HW -> A * machine HW.
Definition ret {A : Type} (a : A) : M A := fun m => (a, m).
Definition bind {A B : Type} (c : M A) (f : A -> M B) : M B :=
    fun m => let (a, m') := c m in f a m'.

  Notation "x <- c1 ;; c2" := (bind c1 (fun x => c2))
    (at level 61, c1 at next level, right associativity).
  Notation "c1 ;; c2" := (bind c1 (fun _ => c2))
    (at level 61, right associativity).

Definition get_spi : M mchp_corespi := fun m => (spi m, m).
Definition modify_spi (f : mchp_corespi -> mchp_corespi) : M unit :=
    fun m => (tt, Build_machine (hw m) (clk_rate m) (f (spi m)) (mem m) (log m)).
Definition emit (e : event) : M unit :=
    fun m => (tt, Build_machine (hw m) (clk_rate m) (spi m) (mem m) (log m ++ [e])).
Definition load_byte (a : Z) : M Z := fun m => (mem m a, m).
Definition store_byte (a v : Z) : M unit :=
    fun m => (tt, Build_machine (hw m) (clk_rate m) (spi m) (store (mem m) a v) (log m)).

  (** [mchp_corespi_read]: [readl] returns a [u32]. *)
Definition mchp_corespi_read (reg : Z) : M Z :=
    fun m =>
      let (v, h) := readl (hw m) reg in
      (u32 v, Build_machine h (clk_rate m) (spi m) (mem m)
                (log m ++ [MmioRead reg (u32 v)])).

  (** [mchp_corespi_write]: the value is a [u32]. *)
Definition mchp_corespi_write (reg val : Z) : M unit :=
    fun m =>
      (tt, Build_machine (writel (hw m) reg (u32 val)) (clk_rate m) (spi m) (mem m)
             (log m ++ [MmioWrite reg (u32 val)])).

Definition mchp_corespi_disable : M unit :=
    control <- mchp_corespi_read REG_CONTROL ;;
    let control := u32 (Z.land control (not64 CONTROL_ENABLE)) in
    mchp_corespi_write REG_CONTROL control.

  (** The loop of [mchp_corespi_read_fifo].  [n] is [fifo_max - i]: the
      loop leaves without reading [REG_STATUS] once [i] reaches
      [fifo_max]. *)
Fixpoint read_fifo_loop (n : nat) (i : Z) : M Z :=
    match n with
    | O => ret i
    | S n' =>
        status <- mchp_corespi_read REG_STATUS ;;
        if Z.land status STATUS_RXFIFO_EMPTY =? 0 then
          v <- mchp_corespi_read REG_RX_DATA ;;
          let data := u8 v in
          s <- get_spi ;;
          (if rx_buf s =? 0 then ret tt
           else store_byte (rx_buf s) data ;;
                modify_spi (set_rx_buf (rx_buf s + 1))) ;;
          read_fifo_loop n' (i + 1)
        else ret i
    end.

Definition mchp_corespi_read_fifo : M unit :=
    s <- get_spi ;;
    let fifo_max := Z.min (rx_len s) FIFO_DEPTH in
    i <- read_fifo_loop (Z.to_nat fifo_max) 0 ;;
    modify_spi (fun s => set_rx_len (s32 (rx_len s - i)) s) ;;
    modify_spi (fun s => set_pending (s32 (pending s - i)) s).

Definition mchp_corespi_set_xfer_size (len : Z) : M unit :=
    mchp_corespi_disable ;;
    let lenpart := u16 (Z.land len 0xffff) in
    control <- mchp_corespi_read REG_CONTROL ;;
    let control := u32 (Z.land control (not64 CONTROL_FRAMECNT_MASK)) in
    let control := u32 (Z.lor control (Z.shiftl lenpart CONTROL_FRAMECNT_SHIFT)) in
    mchp_corespi_write REG_CONTROL control ;;
    let lenpart := u16 (Z.land len 0xffff0000) in
    mchp_corespi_write REG_FRAMESUP lenpart ;;
    let control := u32 (Z.lor control CONTROL_ENABLE) in
    mchp_corespi_write REG_CONTROL control.

  (** The loop of [mchp_corespi_write_fifo], [n] being [fifo_max - i]. *)
Fixpoint write_fifo_loop (n : nat) (i : Z) : M Z :=
    match n with
    | O => ret i
    | S n' =>
        status <- mchp_corespi_read REG_STATUS ;;
        if Z.land status STATUS_TXFIFO_FULL =? 0 then
          s <- get_spi ;;
          byte <- (if tx_buf s =? 0 then ret 0xaa
                   else b <- load_byte (tx_buf s) ;;
                        modify_spi (set_tx_buf (tx_buf s + 1)) ;;
                        ret (u8 b)) ;;
          mchp_corespi_write REG_TX_DATA byte ;;
          write_fifo_loop n' (i + 1)
        else ret i
    end.

Definition mchp_corespi_write_fifo : M unit :=
    s <- get_spi ;;
    let fifo_max := Z.min (tx_len s) FIFO_DEPTH in
    mchp_corespi_set_xfer_size fifo_max ;;
    i <- write_fifo_loop (Z.to_nat fifo_max) 0 ;;
    modify_spi (fun s => set_tx_len (s32 (tx_len s - i)) s) ;;
    modify_spi (fun s => set_pending (s32 (pending s + i)) s).

  (** [mchp_corespi_set_cs]; [cs] is [spi_get_chipselect(spi, 0)].
      [!disable << cs] is an [int] shift. *)
Definition mchp_corespi_set_cs (cs : Z) (disable : bool) : M unit :=
    reg <- mchp_corespi_read REG_SLAVE_SELECT ;;
    let reg := u32 (Z.land reg (not64 (BIT cs))) in
    let reg := u32 (Z.lor reg (s32 (Z.shiftl (Z.b2z (negb disable)) cs))) in
    mchp_corespi_write REG_SLAVE_SELECT reg.

Definition mchp_corespi_set_clk_gen : M unit :=
    mchp_corespi_disable ;;
    control <- mchp_corespi_read REG_CONTROL ;;
    s <- get_spi ;;
    let control :=
      if clk_mode s =? 0 then u32 (Z.land control (not64 CONTROL_CLKMODE))
      else u32 (Z.lor control CONTROL_CLKMODE) in
    mchp_corespi_write REG_CLK_GEN (clk_gen s) ;;
    mchp_corespi_write REG_CONTROL control ;;
    mchp_corespi_write REG_CONTROL (Z.lor control CONTROL_ENABLE).

Definition when (b : bool) (c : M unit) : M unit := if b then c else ret tt.

  (** The body of [if (intfield & INT_TXDONE)]; the result is the value
      it leaves in [finalise]. *)
Definition txdone_branch : M bool :=
    mchp_corespi_write REG_INT_CLEAR INT_TXDONE ;;
    s <- get_spi ;;
    when (negb (rx_len s =? 0)) mchp_corespi_read_fifo ;;
    s <- get_spi ;;
    when (negb (tx_len s =? 0)) mchp_corespi_write_fifo ;;
    s <- get_spi ;;
    ret (rx_len s =? 0).

  (** [mchp_corespi_interrupt]; the result is the [irqreturn_t]. *)
Definition mchp_corespi_interrupt : M Z :=
    mis <- mchp_corespi_read REG_MIS ;;
    let intfield := Z.land mis 0xf in
    if intfield =? 0 then ret IRQ_NONE else
    finalise <- (if Z.land intfield INT_TXDONE =? 0 then ret false
                 else txdone_branch) ;;
    when (negb (Z.land intfield INT_RXRDY =? 0))
         (mchp_corespi_write REG_INT_CLEAR INT_RXRDY) ;;
    finalise <- (if Z.land intfield INT_RX_CHANNEL_OVERFLOW =? 0 then ret finalise
                 else
                   mchp_corespi_write REG_INT_CLEAR INT_RX_CHANNEL_OVERFLOW ;;
                   s <- get_spi ;;
                   emit (DevErr (RxOverflow (rx_len s) (tx_len s))) ;;
                   ret true) ;;
    finalise <- (if Z.land intfield INT_TX_CHANNEL_UNDERRUN =? 0 then ret finalise
                 else
                   mchp_corespi_write REG_INT_CLEAR INT_TX_CHANNEL_UNDERRUN ;;
                   s <- get_spi ;;
                   emit (DevErr (TxUnderflow (rx_len s) (tx_len s))) ;;
                   ret true) ;;
    when finalise (emit FinalizeCurrentTransfer) ;;
    ret IRQ_HANDLED.

  (** What [mchp_corespi_transfer_one] does once the divider is found. *)
Definition transfer_one_start (xfer : spi_transfer) : M Z :=
    mchp_corespi_set_clk_gen ;;
    modify_spi (set_tx_buf (xfer_tx_buf xfer)) ;;
    modify_spi (set_rx_buf (xfer_rx_buf xfer)) ;;
    modify_spi (set_tx_len (s32 (xfer_len xfer))) ;;
    modify_spi (set_rx_len (s32 (xfer_len xfer))) ;;
    modify_spi (set_pending 0) ;;
    s <- get_spi ;;
    mchp_corespi_set_xfer_size
      (if tx_len s >? FIFO_DEPTH then FIFO_DEPTH else tx_len s) ;;
    s <- get_spi ;;
    when (negb (tx_len s =? 0)) mchp_corespi_write_fifo ;;
    ret 1.

  (** [mchp_corespi_transfer_one]; [None] is the division by zero inside
      the divider computation. *)
Definition mchp_corespi_transfer_one (xfer : spi_transfer)
      (m : machine HW) : option (Z * machine HW) :=
    match mchp_corespi_calculate_clkgen (clk_rate m) (spi m) (u32 (xfer_speed_hz xfer)) with
    | None => None
    | Some (r, s') =>
        let m1 := Build_machine (hw m) (clk_rate m) s' (mem m) (log m) in
        if r =? 0 then Some (transfer_one_start xfer m1)
        else Some (r, snd (emit (DevErr (ClkGenFailed (xfer_speed_hz xfer))) m1))
    end.

End Driver.

Arguments M HW : clear implicits.

(** ** Vocabulary of the statements *)

(** The events a computation adds to the log. *)
Definition new_events {HW : Type} (m m' : machine HW) : list event :=
  skipn (length (log m)) (log m').

(** Number of bytes pushed on the output FIFO and drained from the input
    FIFO, read off the log. *)
Definition tx_count (l : list event) : Z := Z.of_nat (length (tx_data_writes l)).
Definition rx_count (l : list event) : Z := Z.of_nat (length (rx_data_reads l)).

Definition on_hw {HW : Type} (f : HW -> HW) (m : machine HW) : machine HW :=
  Build_machine (f (hw m)) (clk_rate m) (spi m) (mem m) (log m).

(** The interrupt causes the handler is about to see. *)
Definition pending_causes {HW : Type} {io : Mmio HW} (m : machine HW) : Z :=
  Z.land (u32 (fst (readl (hw m) REG_MIS))) 0xf.

(** The fault causes, and a step that completes the session normally:
    an interrupt that finalises the transfer and carries no fault cause. *)
Definition fault_causes : Z := Z.lor INT_RX_CHANNEL_OVERFLOW INT_TX_CHANNEL_UNDERRUN.

Definition completes_normally {HW : Type} {io : Mmio HW} (m m' : machine HW) : Prop :=
  m' = snd (mchp_corespi_interrupt m)
  /\ finalized (new_events m m') = true
  /\ Z.land (pending_causes m) fault_causes = 0.

(** The state of the driver is well formed: the lengths are [int]s and
    the buffer pointers are addresses. *)
Definition wf_spi (s : mchp_corespi) : Prop :=
  0 <= tx_buf s /\ 0 <= rx_buf s
  /\ int_range (tx_len s) /\ int_range (rx_len s) /\ int_range (pending s).

(** Log entries of the drain loop and of the fill loop. *)
Definition is_drain_event (e : event) : bool :=
  match e with
  | MmioRead r _ => (r =? REG_STATUS) || (r =? REG_RX_DATA)
  | _ => false
  end.

Definition is_fill_event (e : event) : bool :=
  match e with
  | MmioRead r _ => r =? REG_STATUS
  | MmioWrite r _ => r =? REG_TX_DATA
  | _ => false
  end.

(** Log entries that touch neither FIFO data register. *)
Definition fifo_quiet (l : list event) : Prop :=
  existsb is_fifo_access l = false.

(** The computation [c] only adds to the log, and what it adds holds no
    call of [spi_finalize_current_transfer]. *)
Definition never_finalizes {HW : Type} {A : Type} (c : M HW A) : Prop :=
  forall m, exists l, log (snd (c m)) = log m ++ l /\ finalized l = false.

(** [m'] differs from [m] by register traffic [l] only. *)
Definition mmio_only {HW : Type} (m m' : machine HW) (l : list event) : Prop :=
  log m' = log m ++ l /\ clk_rate m' = clk_rate m
  /\ spi m' = spi m /\ mem m' = mem m.

(** [mchp_corespi_set_xfer_size]: the frame count goes to bits 8..23 of
    [CONTROL], [FRAMESUP] is written, and the controller is enabled
    again; nothing else happens. *)
Definition xfer_size_events (len c0 c1 : Z) : list event :=
  let ctl :=
    u32 (Z.lor (u32 (Z.land c1 (not64 CONTROL_FRAMECNT_MASK)))
               (Z.shiftl (u16 (Z.land len 0xffff)) CONTROL_FRAMECNT_SHIFT)) in
  [MmioRead REG_CONTROL c0;
   MmioWrite REG_CONTROL (u32 (Z.land c0 (not64 CONTROL_ENABLE)));
   MmioRead REG_CONTROL c1;
   MmioWrite REG_CONTROL ctl;
   MmioWrite REG_FRAMESUP (u16 (Z.land len 0xffff0000));
   MmioWrite REG_CONTROL (u32 (Z.lor ctl CONTROL_ENABLE))].


(** The machine with another receive buffer pointer. *)
Definition with_rx_buf {HW : Type} (a : Z) (m : machine HW) : machine HW :=
  Build_machine (hw m) (clk_rate m) (set_rx_buf a (spi m)) (mem m) (log m).

(** What [mchp_corespi_interrupt] does after the transfer-done branch:
    the remaining causes are cleared, faults are reported through
    [dev_err], and the transfer is finalised when [finalise] was set by
    the transfer-done branch ([fin]) or by a fault. *)
Definition irq_tail (intfield : Z) (s : mchp_corespi) (fin : bool) : list event :=
  (if Z.land intfield INT_RXRDY =? 0 then []
   else [MmioWrite REG_INT_CLEAR INT_RXRDY])
  ++ (if Z.land intfield INT_RX_CHANNEL_OVERFLOW =? 0 then []
      else [MmioWrite REG_INT_CLEAR INT_RX_CHANNEL_OVERFLOW;
            DevErr (RxOverflow (rx_len s) (tx_len s))])
  ++ (if Z.land intfield INT_TX_CHANNEL_UNDERRUN =? 0 then []
      else [MmioWrite REG_INT_CLEAR INT_TX_CHANNEL_UNDERRUN;
            DevErr (TxUnderflow (rx_len s) (tx_len s))])
  ++ (if fin || negb (Z.land intfield INT_RX_CHANNEL_OVERFLOW =? 0)
             || negb (Z.land intfield INT_TX_CHANNEL_UNDERRUN =? 0)
      then [FinalizeCurrentTransfer] else []).

(** The frame count held in bits 8..23 of a [CONTROL] value. *)
Definition framecnt (ctl : Z) : Z :=
  Z.land (Z.shiftr ctl CONTROL_FRAMECNT_SHIFT) 0xffff.

(** The value [mchp_corespi_set_xfer_size] leaves in [CONTROL] after
    reading [c1] from it. *)
Definition xfer_size_control (len c1 : Z) : Z :=
  u32 (Z.lor (u32 (Z.land c1 (not64 CONTROL_FRAMECNT_MASK)))
             (Z.shiftl (u16 (Z.land len 0xffff)) CONTROL_FRAMECNT_SHIFT)).

(** What may follow a submitted transfer on any controller: the
    controller changes state on its own, and interrupts are served. *)
Inductive follows {HW : Type} {io : Mmio HW} (m1 : machine HW) : machine HW -> Prop :=
| follows_refl : follows m1 m1
| follows_hw : forall m f, follows m1 m -> follows m1 (on_hw f m)
| follows_irq : forall m, follows m1 m -> follows m1 (snd (mchp_corespi_interrupt m)).

(** ** The controller *)

(** Modelled from the spec: the register block of the controller is
    hardware and is not part of the driver source.  Its registers follow
    the register-level contract of the specification (section 6):
    [CONTROL], [FRAME_SIZE], [CLK_GEN], [SLAVE_SELECT] and [FRAMESUP] hold
    what was written; [STATUS] gives the FIFO full and empty flags;
    [INT_CLEAR] is write-1-to-clear on the causes of [MIS]; a read of
    [RX_DATA] drains one entry of the input FIFO; a write of [TX_DATA]
    pushes one entry on the output FIFO.  Both FIFOs hold [FIFO_DEPTH]
    bytes. *)
Record corespi_dev : Type := Build_dev {
  d_control : Z;
  d_frame_size : Z;
  d_clk_gen : Z;
  d_ssel : Z;
  d_framesup : Z;
  d_mis : Z;
  d_rxfifo : list Z;
  d_txfifo : list Z
}.

Definition dev_status (d : corespi_dev) : Z :=
  (if (length (d_txfifo d) <? 32)%nat then 0 else STATUS_TXFIFO_FULL)
  + match d_rxfifo d with [] => STATUS_RXFIFO_EMPTY | _ => 0 end.

Definition dev_readl (d : corespi_dev) (reg : Z) : Z * corespi_dev :=
  if reg =? REG_CONTROL then (d_control d, d)
  else if reg =? REG_FRAME_SIZE then (d_frame_size d, d)
  else if reg =? REG_STATUS then (dev_status d, d)
  else if reg =? REG_RX_DATA then
    (hd 0 (d_rxfifo d),
     Build_dev (d_control d) (d_frame_size d) (d_clk_gen d) (d_ssel d)
               (d_framesup d) (d_mis d) (tl (d_rxfifo d)) (d_txfifo d))
  else if reg =? REG_CLK_GEN then (d_clk_gen d, d)
  else if reg =? REG_SLAVE_SELECT then (d_ssel d, d)
  else if reg =? REG_MIS then (d_mis d, d)
  else if reg =? REG_FRAMESUP then (d_framesup d, d)
  else (0, d).

Definition dev_writel (d : corespi_dev) (reg v : Z) : corespi_dev :=
  if reg =? REG_CONTROL then
    Build_dev v (d_frame_size d) (d_clk_gen d) (d_ssel d) (d_framesup d)
              (d_mis d) (d_rxfifo d) (d_txfifo d)
  else if reg =? REG_FRAME_SIZE then
    Build_dev (d_control d) v (d_clk_gen d) (d_ssel d) (d_framesup d)
              (d_mis d) (d_rxfifo d) (d_txfifo d)
  else if reg =? REG_INT_CLEAR then
    Build_dev (d_control d) (d_frame_size d) (d_clk_gen d) (d_ssel d) (d_framesup d)
              (Z.land (d_mis d) (Z.lnot v)) (d_rxfifo d) (d_txfifo d)
  else if reg =? REG_TX_DATA then
    Build_dev (d_control d) (d_frame_size d) (d_clk_gen d) (d_ssel d) (d_framesup d)
              (d_mis d) (d_rxfifo d)
              (if (length (d_txfifo d) <? 32)%nat then d_txfifo d ++ [u8 v]
               else d_txfifo d)
  else if reg =? REG_CLK_GEN then
    Build_dev (d_control d) (d_frame_size d) v (d_ssel d) (d_framesup d)
              (d_mis d) (d_rxfifo d) (d_txfifo d)
  else if reg =? REG_SLAVE_SELECT then
    Build_dev (d_control d) (d_frame_size d) (d_clk_gen d) v (d_framesup d)
              (d_mis d) (d_rxfifo d) (d_txfifo d)
  else if reg =? REG_FRAMESUP then
    Build_dev (d_control d) (d_frame_size d) (d_clk_gen d) (d_ssel d) v
              (d_mis d) (d_rxfifo d) (d_txfifo d)
  else d.

#[export] Instance corespi_mmio : Mmio corespi_dev :=
  {| readl := dev_readl; writel := dev_writel |}.

(** The bus side of the controller: it shifts frames out of the output
    FIFO and, the bus being full duplex, takes one frame in for each frame
    sent.  [rx_in] is what the peer answers, one byte per frame; frames
    are sent as long as both the output FIFO and [rx_in] provide one.  A
    frame that arrives when the input FIFO is full is lost.  [causes] are
    the interrupt causes the controller raises meanwhile. *)
Definition wire_shift (rx_in : list Z) (causes : Z) (d : corespi_dev) : corespi_dev :=
  let k := Nat.min (length rx_in) (length (d_txfifo d)) in
  Build_dev (d_control d) (d_frame_size d) (d_clk_gen d) (d_ssel d) (d_framesup d)
            (Z.lor (d_mis d) (Z.land causes 0xf))
            (firstn 32 (d_rxfifo d ++ map u8 (firstn k rx_in)))
            (skipn k (d_txfifo d)).

(** A peer that echoes every frame (MOSI looped back to MISO): all
    queued frames are sent and the transfer-done cause is raised. *)
Definition loopback (d : corespi_dev) : corespi_dev :=
  wire_shift (d_txfifo d) INT_TXDONE d.

Definition dev_reset : corespi_dev :=
  Build_dev 0 0 0 0 0 0 [] [].

Definition spi_idle : mchp_corespi := Build_corespi 0 0 0 0 0 0 0.

(** ** Sessions on the modelled controller *)

(** One step of a session on the modelled controller: bus activity, or
    an interrupt being served. *)
Inductive session_step : machine corespi_dev -> machine corespi_dev -> Prop :=
| step_bus : forall m rx_in causes,
    session_step m (on_hw (wire_shift rx_in causes) m)
| step_irq : forall m,
    session_step m (snd (mchp_corespi_interrupt m)).

(** A session on the modelled controller: it begins with a successful
    [mchp_corespi_transfer_one], whatever the FIFOs of the controller
    hold at that moment (the driver does not look at them and has no way
    to empty them), and goes on with bus activity and interrupts in any
    order.  [m0] is the machine the transfer was submitted to. *)
Inductive session (m0 : machine corespi_dev) (xfer : spi_transfer)
  : machine corespi_dev -> Prop :=
| session_begin : forall m1,
    0 <= xfer_tx_buf xfer -> 0 <= xfer_rx_buf xfer ->
    0 <= xfer_len xfer <= MAX_LEN ->
    mchp_corespi_transfer_one xfer m0 = Some (1, m1) ->
    session m0 xfer m1
| session_next : forall m m',
    session m0 xfer m -> session_step m m' ->
    session m0 xfer m'.

(** Both FIFOs of the modelled controller are empty. *)
Definition fifos_empty (m : machine corespi_dev) : Prop :=
  d_rxfifo (hw m) = [] /\ d_txfifo (hw m) = [].

(** Number of bytes held in the two FIFOs of the modelled controller. *)
Definition occupancy (m : machine corespi_dev) : Z :=
  Z.of_nat (length (d_txfifo (hw m)) + length (d_rxfifo (hw m))).

(** The FIFOs hold no more bytes than the driver counts in flight. *)
Definition fifo_bound (m : machine corespi_dev) : Prop :=
  occupancy m <= pending (spi m).

(** [m'] holds the FIFOs of [m] with [dtx] more bytes in the output FIFO
    and [drx] fewer in the input FIFO. *)
Definition fifo_delta (m m' : machine corespi_dev) (dtx drx : Z) : Prop :=
  Z.of_nat (length (d_txfifo (hw m'))) = Z.of_nat (length (d_txfifo (hw m))) + dtx
  /\ Z.of_nat (length (d_rxfifo (hw m'))) = Z.of_nat (length (d_rxfifo (hw m))) - drx.

(** The FIFOs of [m'] are those of [m] changed by the data-register
    accesses logged in between: one byte more in the output FIFO for each
    write of [TX_DATA], one byte less in the input FIFO for each read of
    [RX_DATA]. *)
Definition fifo_tracks (m m' : machine corespi_dev) : Prop :=
  exists l, log m' = log m ++ l /\ fifo_delta m m' (tx_count l) (rx_count l).

Definition tracks {A : Type} (c : M corespi_dev A) : Prop :=
  forall m, fifo_tracks m (snd (c m)).

(** The accounting invariant of a session: [l] is what the log holds
    since the transfer was submitted. *)
Definition session_inv (m0 : machine corespi_dev) (xfer : spi_transfer)
    (m : machine corespi_dev) : Prop :=
  exists l,
    log m = log m0 ++ l
    /\ wf_spi (spi m)
    /\ tx_len (spi m) = xfer_len xfer - tx_count l
    /\ rx_len (spi m) = xfer_len xfer - rx_count l
    /\ 0 <= tx_len (spi m) /\ 0 <= rx_len (spi m)
    /\ pending (spi m) = tx_count l - rx_count l.

(** ** Scenarios *)

(** The transfer of the end-to-end scenario of the specification: 40
    bytes [1..40] at address [0x1000], a receive buffer at [0x2000],
    1 MHz on a 20 MHz source clock. *)
Definition scenario_tx : list Z := map Z.of_nat (seq 1 40).
Definition scenario_xfer : spi_transfer := Build_xfer 0x1000 0x2000 40 1000000.
Definition scenario_m0 : machine corespi_dev :=
  Build_machine dev_reset 20000000 spi_idle
                (store_bytes (fun _ => 0) 0x1000 scenario_tx) [].

Definition run_transfer (xfer : spi_transfer) (m : machine corespi_dev)
  : machine corespi_dev :=
  match mchp_corespi_transfer_one xfer m with
  | Some (_, m') => m'
  | None => m
  end.

Definition irq (m : machine corespi_dev) : machine corespi_dev :=
  snd (mchp_corespi_interrupt m).

Definition scenario_m1 : machine corespi_dev := run_transfer scenario_xfer scenario_m0.
Definition scenario_m2 : machine corespi_dev := irq (on_hw loopback scenario_m1).
Definition scenario_m3 : machine corespi_dev := irq (on_hw loopback scenario_m2).

(** The same transfer when the first chunk comes back together with a
    receive overflow: the 32 frames are echoed and the controller raises
    transfer-done and receive-overflow at once. *)
Definition overflow_m1 : machine corespi_dev :=
  on_hw (wire_shift (d_txfifo (hw scenario_m1))
                    (Z.lor INT_TXDONE INT_RX_CHANNEL_OVERFLOW)) scenario_m1.
Definition overflow_m2 : machine corespi_dev := irq overflow_m1.

(** The receive overflow raised alone while the first chunk is echoed,
    and the transfer-done cause raised after the handler has served it. *)
Definition overflow_only_m1 : machine corespi_dev :=
  on_hw (wire_shift (d_txfifo (hw scenario_m1)) INT_RX_CHANNEL_OVERFLOW) scenario_m1.
Definition overflow_only_m2 : machine corespi_dev := irq overflow_only_m1.
Definition overflow_only_m3 : machine corespi_dev :=
  irq (on_hw (wire_shift [] INT_TXDONE) overflow_only_m2).

(** A machine about to fill with no transmit buffer, and one about to
    drain with no receive buffer. *)
Definition filler_machine : machine corespi_dev :=
  Build_machine dev_reset 20000000 (Build_corespi 0 0 9 1 3 3 0) (fun _ => 0) [].
Definition discard_machine : machine corespi_dev :=
  Build_machine (Build_dev 0 0 0 0 0 0 [0x11; 0x22; 0x33] [])
                20000000 (Build_corespi 0 0 9 1 0 3 3) (fun _ => 0) [].

(** A transfer of length 0, and one at 1 Hz, on the scenario's machine. *)
Definition zero_xfer : spi_transfer := Build_xfer 0x1000 0x2000 0 1000000.
Definition slow_xfer : spi_transfer := Build_xfer 0x1000 0x2000 40 1.

(** A controller left with stale FIFOs.  The scenario's transfer is
    submitted twice and ended by a fault both times: the first time the
    32 frames of the first chunk are echoed and the receive overflow is
    raised alone, so that the handler finalises without draining
    ([overflow_only_m2]); the second time the transmit underrun is raised
    before any frame is sent.  In [stale_m0] both FIFOs hold 32 bytes.
    [short_xfer], a transfer of 8 bytes, is submitted next ([stale_m1]);
    the controller raises transfer-done ([stale_m2]) and the handler
    serves it ([stale_m3]). *)
Definition stale_m0 : machine corespi_dev :=
  irq (on_hw (wire_shift [] INT_TX_CHANNEL_UNDERRUN)
             (run_transfer scenario_xfer overflow_only_m2)).
Definition short_xfer : spi_transfer := Build_xfer 0x1000 0x2000 8 1000000.
Definition stale_m1 : machine corespi_dev := run_transfer short_xfer stale_m0.
Definition stale_m2 : machine corespi_dev :=
  on_hw (wire_shift [] INT_TXDONE) stale_m1.
Definition stale_m3 : machine corespi_dev := irq stale_m2.

(** The machine after a transfer of length 0 was submitted in the
    scenario, and after an interrupt that finds no cause raised. *)
Definition zero_m1 : machine corespi_dev := run_transfer zero_xfer scenario_m0.
Definition zero_m2 : machine corespi_dev := irq zero_m1.

(** ** Controller bring-up, message preparation and removal *)

(** The remaining bit fields of [CONTROL]. *)
Definition MODE_X_MASK_SHIFT : Z := 24.
Definition CONTROL_SPO : Z := Eval cbv in BIT 24.
Definition CONTROL_SPH : Z := Eval cbv in BIT 25.
Definition CONTROL_SPS : Z := Eval cbv in BIT 26.
Definition CONTROL_BIGFIFO : Z := Eval cbv in BIT 29.
Definition CONTROL_RESET : Z := Eval cbv in BIT 31.
Definition CONTROL_MODE_MASK : Z := Eval cbv in GENMASK 3 2.
Definition MOTOROLA_MODE : Z := 0.
Definition INT_ENABLE_MASK : Z :=
  Eval cbv in Z.lor (Z.lor CONTROL_RX_DATA_INT CONTROL_TX_DATA_INT)
                    (Z.lor CONTROL_RX_OVER_INT CONTROL_TX_UNDER_INT).

(** Mode flags of [struct spi_device] ([uapi/linux/spi/spi.h]); they are
    not part of the driver file and are written here from their kernel
    definitions: [SPI_CPHA = _BITUL(0)], [SPI_CPOL = _BITUL(1)],
    [SPI_CS_HIGH = _BITUL(2)], [SPI_MODE_0 .. SPI_MODE_3] the four
    combinations of [SPI_CPOL] and [SPI_CPHA], and [SPI_MODE_X_MASK]
    their union. *)
Definition SPI_CPHA : Z := Eval cbv in BIT 0.
Definition SPI_CPOL : Z := Eval cbv in BIT 1.
Definition SPI_CS_HIGH : Z := Eval cbv in BIT 2.
Definition SPI_MODE_0 : Z := 0.
Definition SPI_MODE_1 : Z := SPI_CPHA.
Definition SPI_MODE_2 : Z := SPI_CPOL.
Definition SPI_MODE_3 : Z := Eval cbv in Z.lor SPI_CPOL SPI_CPHA.
Definition SPI_MODE_X_MASK : Z := Eval cbv in Z.lor SPI_CPOL SPI_CPHA.

(** [~x] at [u32]. *)
Definition not32 (x : Z) : Z := u32 (Z.lnot x).

Section Lifecycle.
  Context {HW : Type} {io : Mmio HW}.

  Notation "x <- c1 ;; c2" := (bind c1 (fun x => c2))
    (at level 61, c1 at next level, right associativity).
  Notation "c1 ;; c2" := (bind c1 (fun _ => c2))
    (at level 61, right associativity).

Definition mchp_corespi_enable_ints : M HW unit :=
    let mask := u32 INT_ENABLE_MASK in
    mchp_corespi_disable ;;
    control <- mchp_corespi_read REG_CONTROL ;;
    let control := u32 (Z.lor control mask) in
    mchp_corespi_write REG_CONTROL control ;;
    let control := u32 (Z.lor control CONTROL_ENABLE) in
    mchp_corespi_write REG_CONTROL control.

Definition mchp_corespi_disable_ints : M HW unit :=
    let mask := u32 INT_ENABLE_MASK in
    mchp_corespi_disable ;;
    control <- mchp_corespi_read REG_CONTROL ;;
    let control := u32 (Z.land control (not32 mask)) in
    mchp_corespi_write REG_CONTROL control ;;
    let control := u32 (Z.lor control CONTROL_ENABLE) in
    mchp_corespi_write REG_CONTROL control.

  (** [mchp_corespi_set_framesize]; [bt] is an [int]. *)
Definition mchp_corespi_set_framesize (bt : Z) : M HW unit :=
    mchp_corespi_disable ;;
    mchp_corespi_write REG_FRAME_SIZE bt ;;
    control <- mchp_corespi_read REG_CONTROL ;;
    let control := u32 (Z.lor control CONTROL_ENABLE) in
    mchp_corespi_write REG_CONTROL control.

  (** [mchp_corespi_setup]; [mode] is [spi->mode] and [cs] is
      [spi_get_chipselect(spi, 0)].  The result is the return value. *)
Definition mchp_corespi_setup (mode cs : Z) : M HW Z :=
    (if Z.land mode SPI_CS_HIGH =? 0 then ret tt
     else
       reg <- mchp_corespi_read REG_SLAVE_SELECT ;;
       let reg := u32 (Z.lor reg (BIT cs)) in
       mchp_corespi_write REG_SLAVE_SELECT reg) ;;
    ret 0.

  (** [clk_get_rate(spi->clk)]. *)
Definition clk_get_rate : M HW Z := fun m => (clk_rate m, m).

  (** [mchp_corespi_init].  The value computed from the first read of
      [CONTROL] is replaced by the second read before it is used.  The
      result is what is stored in [master->max_speed_hz], a [u32]. *)
Definition mchp_corespi_init : M HW Z :=
    control <- mchp_corespi_read REG_CONTROL ;;
    let control := u32 (Z.lor control CONTROL_MASTER) in
    let control := u32 (Z.land control (not64 CONTROL_MODE_MASK)) in
    let control := u32 (Z.lor control MOTOROLA_MODE) in
    mchp_corespi_set_framesize DEFAULT_FRAMESIZE ;;
    clk_hz <- clk_get_rate ;;
    let max_speed_hz := u32 clk_hz in
    control <- mchp_corespi_read REG_CONTROL ;;
    let control := u32 (Z.lor control (Z.lor CONTROL_SPS CONTROL_BIGFIFO)) in
    mchp_corespi_write REG_CONTROL control ;;
    mchp_corespi_enable_ints ;;
    mchp_corespi_write REG_SLAVE_SELECT (Z.lor SSELOUT SSEL_DIRECT) ;;
    control <- mchp_corespi_read REG_CONTROL ;;
    let control := u32 (Z.land control (not64 CONTROL_RESET)) in
    let control := u32 (Z.lor control CONTROL_ENABLE) in
    mchp_corespi_write REG_CONTROL control ;;
    ret max_speed_hz.

  (** [mchp_corespi_set_mode]; [mode] is an [unsigned int].  The four
      cases of the [switch] cover every value of
      [mode & SPI_MODE_X_MASK]. *)
Definition mchp_corespi_set_mode (mode : Z) : M HW unit :=
    let sel := Z.land (u32 mode) SPI_MODE_X_MASK in
    let mode_val :=
      if sel =? SPI_MODE_0 then 0
      else if sel =? SPI_MODE_1 then CONTROL_SPH
      else if sel =? SPI_MODE_2 then CONTROL_SPO
      else Z.lor CONTROL_SPH CONTROL_SPO in
    mchp_corespi_disable ;;
    control <- mchp_corespi_read REG_CONTROL ;;
    let control :=
      u32 (Z.land control (not64 (Z.shiftl SPI_MODE_X_MASK MODE_X_MASK_SHIFT))) in
    let control := u32 (Z.lor control mode_val) in
    mchp_corespi_write REG_CONTROL control ;;
    let control := u32 (Z.lor control CONTROL_ENABLE) in
    mchp_corespi_write REG_CONTROL control.

  (** [mchp_corespi_prepare_message]; [mode] is [msg->spi->mode]. *)
Definition mchp_corespi_prepare_message (mode : Z) : M HW Z :=
    mchp_corespi_set_framesize DEFAULT_FRAMESIZE ;;
    mchp_corespi_set_mode mode ;;
    ret 0.

  (** [mchp_corespi_remove].  [clk_disable_unprepare] is a call into the
      clock framework between the two steps; it reaches neither the
      register block nor the driver structure. *)
Definition mchp_corespi_remove : M HW unit :=
    mchp_corespi_disable_ints ;;
    mchp_corespi_disable.

End Lifecycle.

(** ** Vocabulary of the register-level statements *)

(** Membership of a bit position in a list of positions. *)
Definition bit_in (i : Z) (l : list Z) : bool := existsb (Z.eqb i) l.

(** [w] is the 32-bit register value [v] with the bits [ones] set and
    the bits [zeros] cleared, every other bit being as in [v]. *)
Definition rewritten (ones zeros : list Z) (v w : Z) : Prop :=
  0 <= w < 2 ^ 32
  /\ forall i, 0 <= i < 32 ->
       Z.testbit w i =
       if bit_in i ones then true
       else if bit_in i zeros then false
       else Z.testbit v i.

(** What a caller's submission is followed by on a peer that echoes
    every frame: [n] rounds of the bus shifting the queued frames and the
    handler serving the interrupt. *)
Fixpoint pump (n : nat) (m : machine corespi_dev) : machine corespi_dev :=
  match n with
  | O => m
  | S n' => pump n' (irq (on_hw loopback m))
  end.

(** [w] is the 32-bit register value [v] with the bits that [f] names
    replaced by what [f] gives for them. *)
Definition bits_as (f : Z -> option bool) (v w : Z) : Prop :=
  0 <= w < 2 ^ 32
  /\ forall i, 0 <= i < 32 ->
       Z.testbit w i = match f i with Some b => b | None => Z.testbit v i end.

(** The modelled controller with another value in one register. *)
Definition with_control (v : Z) (d : corespi_dev) : corespi_dev :=
  Build_dev v (d_frame_size d) (d_clk_gen d) (d_ssel d) (d_framesup d)
            (d_mis d) (d_rxfifo d) (d_txfifo d).
Definition with_frame_size (v : Z) (d : corespi_dev) : corespi_dev :=
  Build_dev (d_control d) v (d_clk_gen d) (d_ssel d) (d_framesup d)
            (d_mis d) (d_rxfifo d) (d_txfifo d).
Definition with_clk_gen (v : Z) (d : corespi_dev) : corespi_dev :=
  Build_dev (d_control d) (d_frame_size d) v (d_ssel d) (d_framesup d)
            (d_mis d) (d_rxfifo d) (d_txfifo d).
Definition with_ssel (v : Z) (d : corespi_dev) : corespi_dev :=
  Build_dev (d_control d) (d_frame_size d) (d_clk_gen d) v (d_framesup d)
            (d_mis d) (d_rxfifo d) (d_txfifo d).
Definition with_framesup (v : Z) (d : corespi_dev) : corespi_dev :=
  Build_dev (d_control d) (d_frame_size d) (d_clk_gen d) (d_ssel d) v
            (d_mis d) (d_rxfifo d) (d_txfifo d).
Definition with_mis (v : Z) (d : corespi_dev) : corespi_dev :=
  Build_dev (d_control d) (d_frame_size d) (d_clk_gen d) (d_ssel d) (d_framesup d)
            v (d_rxfifo d) (d_txfifo d).

(** [m'] is [m] with another register block and a longer log. *)
Definition regs_only (m m' : machine corespi_dev) (d' : corespi_dev) : Prop :=
  hw m' = d' /\ clk_rate m' = clk_rate m /\ spi m' = spi m /\ mem m' = mem m
  /\ exists l, log m' = log m ++ l.
Definition with_rxfifo (l : list Z) (d : corespi_dev) : corespi_dev :=
  Build_dev (d_control d) (d_frame_size d) (d_clk_gen d) (d_ssel d) (d_framesup d)
            (d_mis d) l (d_txfifo d).
Definition with_txfifo (l : list Z) (d : corespi_dev) : corespi_dev :=
  Build_dev (d_control d) (d_frame_size d) (d_clk_gen d) (d_ssel d) (d_framesup d)
            (d_mis d) (d_rxfifo d) l.

(** The bytes the fill loop takes for [k] frames: consecutive bytes of
    the transmit buffer, or the filler when there is none. *)
Definition tx_bytes (mm : memory) (buf : Z) (k : nat) : list Z :=
  if buf =? 0 then repeat 0xaa k else map u8 (load_bytes mm buf k).

(** The state of a transfer of [L] bytes from address [A] to address [B]
    on a peer that echoes every frame, when [o] bytes have come back and
    been stored: the next [min(FIFO_DEPTH, L - o)] bytes are queued in the
    output FIFO, the receive buffer holds the first [o] bytes, and no
    interrupt cause is pending.  [mem0] is the memory the transfer was
    submitted with. *)
Definition echo_state (mem0 : memory) (A B L o : Z) (m : machine corespi_dev) : Prop :=
  let c := Z.min FIFO_DEPTH (L - o) in
  d_rxfifo (hw m) = []
  /\ d_txfifo (hw m) = map u8 (load_bytes mem0 (A + o) (Z.to_nat c))
  /\ Z.land (d_mis (hw m)) 0xf = 0
  /\ tx_buf (spi m) = A + o + c /\ rx_buf (spi m) = B + o
  /\ tx_len (spi m) = L - o - c /\ rx_len (spi m) = L - o
  /\ pending (spi m) = c
  /\ forall a, mem m a = if (B <=? a) && (a <? B + o) then u8 (mem0 (a - B + A))
                         else mem0 a.

(** The bits of [CONTROL] that programming a transfer of [k] frames in
    clock mode [mode] decides: the enable bit 0, the frame count in bits
    8..23 and the clock mode bit 28. *)
Definition start_bits (mode k : Z) (i : Z) : option bool :=
  if i =? 0 then Some true
  else if i =? 28 then Some (negb (mode =? 0))
  else if (8 <=? i) && (i <? 24) then Some (Z.testbit k (i - 8))
  else None.

(** The buffers of a transfer do not overlap (an absent buffer overlaps
    nothing). *)
Definition buffers_disjoint (xfer : spi_transfer) : Prop :=
  xfer_tx_buf xfer = 0 \/ xfer_rx_buf xfer = 0
  \/ xfer_tx_buf xfer + xfer_len xfer <= xfer_rx_buf xfer
  \/ xfer_rx_buf xfer + xfer_len xfer <= xfer_tx_buf xfer.

(** What holds of a transfer on any controller, from its submission on:
    [l] is the log since the machine [m0] the transfer was submitted to.
    The lengths count down what has gone through the data registers, the
    buffer pointers have advanced by as much, the receive buffer holds
    what was read from [RX_DATA] and nothing else in memory has changed,
    and what was written to [TX_DATA] is the beginning of the transmit
    buffer. *)
Definition stream_inv {HW : Type} (m0 : machine HW) (xfer : spi_transfer)
    (m : machine HW) : Prop :=
  exists l,
    log m = log m0 ++ l
    /\ wf_spi (spi m)
    /\ 0 <= tx_len (spi m) /\ 0 <= rx_len (spi m)
    /\ tx_count l = xfer_len xfer - tx_len (spi m)
    /\ rx_count l = xfer_len xfer - rx_len (spi m)
    /\ tx_buf (spi m) = (if xfer_tx_buf xfer =? 0 then 0
                         else xfer_tx_buf xfer + tx_count l)
    /\ rx_buf (spi m) = (if xfer_rx_buf xfer =? 0 then 0
                         else xfer_rx_buf xfer + rx_count l)
    /\ (xfer_rx_buf xfer <> 0 ->
        load_bytes (mem m) (xfer_rx_buf xfer) (Z.to_nat (rx_count l))
        = map u8 (rx_data_reads l))
    /\ (forall a, xfer_rx_buf xfer = 0
                  \/ ~ (xfer_rx_buf xfer <= a < xfer_rx_buf xfer + rx_count l) ->
                  mem m a = mem m0 a)
    /\ (buffers_disjoint xfer ->
        tx_data_writes l
        = tx_bytes (mem m0) (xfer_tx_buf xfer) (Z.to_nat (tx_count l))).

(** ** The programming rule of the controller

    The comment of [mchp_corespi_set_framesize] says that writes to the
    frame size have no effect when the controller is enabled; the driver
    disables the controller before it writes [FRAME_SIZE], [CLK_GEN] or
    [FRAMESUP], and enables it again before it queues data.  The
    definitions below state this of a log of register accesses, replayed
    on the modelled controller. *)

(** What a logged event does to the modelled controller. *)
Definition dev_apply (d : corespi_dev) (e : event) : corespi_dev :=
  match e with
  | MmioRead r _ => snd (dev_readl d r)
  | MmioWrite r v => dev_writel d r v
  | _ => d
  end.

(** Bit 0 of [CONTROL]. *)
Definition enabled (d : corespi_dev) : bool := Z.testbit (d_control d) 0.

(** A write of [FRAME_SIZE], [CLK_GEN] or [FRAMESUP] finds the
    controller disabled, a write of [TX_DATA] finds it enabled. *)
Definition write_allowed (d : corespi_dev) (e : event) : bool :=
  match e with
  | MmioWrite r _ =>
      if (r =? REG_FRAME_SIZE) || (r =? REG_CLK_GEN) || (r =? REG_FRAMESUP)
      then negb (enabled d)
      else if r =? REG_TX_DATA then enabled d
      else true
  | _ => true
  end.

Fixpoint disciplined (d : corespi_dev) (l : list event) : bool :=
  match l with
  | [] => true
  | e :: l' => write_allowed d e && disciplined (dev_apply d e) l'
  end.

(** What is known of the enable bit: its value, or nothing. *)
Definition in_state (o : option bool) (d : corespi_dev) : Prop :=
  match o with
  | Some b => enabled d = b
  | None => True
  end.

(** From a controller that satisfies [P], the computation [c] respects
    the programming rule, its log is what happened to the controller, and
    it leaves a result and a controller that satisfy [Q]. *)
Definition keeps_rule {A : Type} (P : corespi_dev -> Prop) (c : M corespi_dev A)
    (Q : A -> corespi_dev -> Prop) : Prop :=
  forall m, P (hw m) ->
    exists l,
      log (snd (c m)) = log m ++ l
      /\ hw (snd (c m)) = fold_left dev_apply l (hw m)
      /\ disciplined (hw m) l = true
      /\ Q (fst (c m)) (hw (snd (c m))).


(** ** Interconnect node identifiers of the QDU1000

    [drivers/interconnect/qcom/qdu1000.h] names the endpoints of the
    interconnect fabric and gives each a number; the names below are the
    macros of the header, in its order. *)

Module Qdu1000.

Inductive node : Type :=
| QDU1000_MASTER_SYS_TCU
| QDU1000_MASTER_APPSS_PROC
| QDU1000_MASTER_LLCC
| QDU1000_MASTER_GIC_AHB
| QDU1000_MASTER_QDSS_BAM
| QDU1000_MASTER_QPIC
| QDU1000_MASTER_QSPI_0
| QDU1000_MASTER_QUP_0
| QDU1000_MASTER_QUP_1
| QDU1000_MASTER_SNOC_CFG
| QDU1000_MASTER_ANOC_SNOC
| QDU1000_MASTER_ANOC_GSI
| QDU1000_MASTER_GEMNOC_ECPRI_DMA
| QDU1000_MASTER_FEC_2_GEMNOC
| QDU1000_MASTER_GEM_NOC_CNOC
| QDU1000_MASTER_GEMNOC_MODEM_CNOC
| QDU1000_MASTER_GEM_NOC_PCIE_SNOC
| QDU1000_MASTER_ANOC_PCIE_GEM_NOC
| QDU1000_MASTER_SNOC_GC_MEM_NOC
| QDU1000_MASTER_SNOC_SF_MEM_NOC
| QDU1000_MASTER_QUP_CORE_0
| QDU1000_MASTER_QUP_CORE_1
| QDU1000_MASTER_CRYPTO
| QDU1000_MASTER_ECPRI_GSI
| QDU1000_MASTER_MSS_PROC
| QDU1000_MASTER_PIMEM
| QDU1000_MASTER_SNOC_ECPRI_DMA
| QDU1000_MASTER_GIC
| QDU1000_MASTER_PCIE
| QDU1000_MASTER_QDSS_ETR
| QDU1000_MASTER_QDSS_ETR_1
| QDU1000_MASTER_SDCC_1
| QDU1000_MASTER_USB3
| QDU1000_SLAVE_EBI1
| QDU1000_SLAVE_AHB2PHY_SOUTH
| QDU1000_SLAVE_AHB2PHY_NORTH
| QDU1000_SLAVE_AHB2PHY_EAST
| QDU1000_SLAVE_AOSS
| QDU1000_SLAVE_CLK_CTL
| QDU1000_SLAVE_RBCPR_CX_CFG
| QDU1000_SLAVE_RBCPR_MX_CFG
| QDU1000_SLAVE_CRYPTO_0_CFG
| QDU1000_SLAVE_ECPRI_CFG
| QDU1000_SLAVE_IMEM_CFG
| QDU1000_SLAVE_IPC_ROUTER_CFG
| QDU1000_SLAVE_CNOC_MSS
| QDU1000_SLAVE_PCIE_CFG
| QDU1000_SLAVE_PDM
| QDU1000_SLAVE_PIMEM_CFG
| QDU1000_SLAVE_PRNG
| QDU1000_SLAVE_QDSS_CFG
| QDU1000_SLAVE_QPIC
| QDU1000_SLAVE_QSPI_0
| QDU1000_SLAVE_QUP_0
| QDU1000_SLAVE_QUP_1
| QDU1000_SLAVE_SDCC_2
| QDU1000_SLAVE_SMBUS_CFG
| QDU1000_SLAVE_SNOC_CFG
| QDU1000_SLAVE_TCSR
| QDU1000_SLAVE_TLMM
| QDU1000_SLAVE_TME_CFG
| QDU1000_SLAVE_TSC_CFG
| QDU1000_SLAVE_USB3_0
| QDU1000_SLAVE_VSENSE_CTRL_CFG
| QDU1000_SLAVE_A1NOC_SNOC
| QDU1000_SLAVE_ANOC_SNOC_GSI
| QDU1000_SLAVE_DDRSS_CFG
| QDU1000_SLAVE_ECPRI_GEMNOC
| QDU1000_SLAVE_GEM_NOC_CNOC
| QDU1000_SLAVE_SNOC_GEM_NOC_GC
| QDU1000_SLAVE_SNOC_GEM_NOC_SF
| QDU1000_SLAVE_LLCC
| QDU1000_SLAVE_MODEM_OFFLINE
| QDU1000_SLAVE_GEMNOC_MODEM_CNOC
| QDU1000_SLAVE_MEM_NOC_PCIE_SNOC
| QDU1000_SLAVE_ANOC_PCIE_GEM_NOC
| QDU1000_SLAVE_QUP_CORE_0
| QDU1000_SLAVE_QUP_CORE_1
| QDU1000_SLAVE_IMEM
| QDU1000_SLAVE_PIMEM
| QDU1000_SLAVE_SERVICE_SNOC
| QDU1000_SLAVE_ETHERNET_SS
| QDU1000_SLAVE_PCIE_0
| QDU1000_SLAVE_QDSS_STM
| QDU1000_SLAVE_TCU.

(** The number the header defines for each name. *)
Definition id (n : node) : Z :=
  match n with
  | QDU1000_MASTER_SYS_TCU => 0
  | QDU1000_MASTER_APPSS_PROC => 1
  | QDU1000_MASTER_LLCC => 2
  | QDU1000_MASTER_GIC_AHB => 3
  | QDU1000_MASTER_QDSS_BAM => 4
  | QDU1000_MASTER_QPIC => 5
  | QDU1000_MASTER_QSPI_0 => 6
  | QDU1000_MASTER_QUP_0 => 7
  | QDU1000_MASTER_QUP_1 => 8
  | QDU1000_MASTER_SNOC_CFG => 9
  | QDU1000_MASTER_ANOC_SNOC => 10
  | QDU1000_MASTER_ANOC_GSI => 11
  | QDU1000_MASTER_GEMNOC_ECPRI_DMA => 12
  | QDU1000_MASTER_FEC_2_GEMNOC => 13
  | QDU1000_MASTER_GEM_NOC_CNOC => 14
  | QDU1000_MASTER_GEMNOC_MODEM_CNOC => 15
  | QDU1000_MASTER_GEM_NOC_PCIE_SNOC => 16
  | QDU1000_MASTER_ANOC_PCIE_GEM_NOC => 17
  | QDU1000_MASTER_SNOC_GC_MEM_NOC => 18
  | QDU1000_MASTER_SNOC_SF_MEM_NOC => 19
  | QDU1000_MASTER_QUP_CORE_0 => 20
  | QDU1000_MASTER_QUP_CORE_1 => 21
  | QDU1000_MASTER_CRYPTO => 22
  | QDU1000_MASTER_ECPRI_GSI => 23
  | QDU1000_MASTER_MSS_PROC => 24
  | QDU1000_MASTER_PIMEM => 25
  | QDU1000_MASTER_SNOC_ECPRI_DMA => 26
  | QDU1000_MASTER_GIC => 27
  | QDU1000_MASTER_PCIE => 28
  | QDU1000_MASTER_QDSS_ETR => 29
  | QDU1000_MASTER_QDSS_ETR_1 => 30
  | QDU1000_MASTER_SDCC_1 => 31
  | QDU1000_MASTER_USB3 => 32
  | QDU1000_SLAVE_EBI1 => 512
  | QDU1000_SLAVE_AHB2PHY_SOUTH => 513
  | QDU1000_SLAVE_AHB2PHY_NORTH => 514
  | QDU1000_SLAVE_AHB2PHY_EAST => 515
  | QDU1000_SLAVE_AOSS => 516
  | QDU1000_SLAVE_CLK_CTL => 517
  | QDU1000_SLAVE_RBCPR_CX_CFG => 518
  | QDU1000_SLAVE_RBCPR_MX_CFG => 519
  | QDU1000_SLAVE_CRYPTO_0_CFG => 520
  | QDU1000_SLAVE_ECPRI_CFG => 521
  | QDU1000_SLAVE_IMEM_CFG => 522
  | QDU1000_SLAVE_IPC_ROUTER_CFG => 523
  | QDU1000_SLAVE_CNOC_MSS => 524
  | QDU1000_SLAVE_PCIE_CFG => 525
  | QDU1000_SLAVE_PDM => 526
  | QDU1000_SLAVE_PIMEM_CFG => 527
  | QDU1000_SLAVE_PRNG => 528
  | QDU1000_SLAVE_QDSS_CFG => 529
  | QDU1000_SLAVE_QPIC => 530
  | QDU1000_SLAVE_QSPI_0 => 531
  | QDU1000_SLAVE_QUP_0 => 532
  | QDU1000_SLAVE_QUP_1 => 533
  | QDU1000_SLAVE_SDCC_2 => 534
  | QDU1000_SLAVE_SMBUS_CFG => 535
  | QDU1000_SLAVE_SNOC_CFG => 536
  | QDU1000_SLAVE_TCSR => 537
  | QDU1000_SLAVE_TLMM => 538
  | QDU1000_SLAVE_TME_CFG => 539
  | QDU1000_SLAVE_TSC_CFG => 540
  | QDU1000_SLAVE_USB3_0 => 541
  | QDU1000_SLAVE_VSENSE_CTRL_CFG => 542
  | QDU1000_SLAVE_A1NOC_SNOC => 543
  | QDU1000_SLAVE_ANOC_SNOC_GSI => 544
  | QDU1000_SLAVE_DDRSS_CFG => 545
  | QDU1000_SLAVE_ECPRI_GEMNOC => 546
  | QDU1000_SLAVE_GEM_NOC_CNOC => 547
  | QDU1000_SLAVE_SNOC_GEM_NOC_GC => 548
  | QDU1000_SLAVE_SNOC_GEM_NOC_SF => 549
  | QDU1000_SLAVE_LLCC => 550
  | QDU1000_SLAVE_MODEM_OFFLINE => 551
  | QDU1000_SLAVE_GEMNOC_MODEM_CNOC => 552
  | QDU1000_SLAVE_MEM_NOC_PCIE_SNOC => 553
  | QDU1000_SLAVE_ANOC_PCIE_GEM_NOC => 554
  | QDU1000_SLAVE_QUP_CORE_0 => 555
  | QDU1000_SLAVE_QUP_CORE_1 => 556
  | QDU1000_SLAVE_IMEM => 557
  | QDU1000_SLAVE_PIMEM => 558
  | QDU1000_SLAVE_SERVICE_SNOC => 559
  | QDU1000_SLAVE_ETHERNET_SS => 560
  | QDU1000_SLAVE_PCIE_0 => 561
  | QDU1000_SLAVE_QDSS_STM => 562
  | QDU1000_SLAVE_TCU => 563
  end.

(** The [QDU1000_MASTER_*] names and the [QDU1000_SLAVE_*] names. *)
Definition masters : list node :=
  [QDU1000_MASTER_SYS_TCU; QDU1000_MASTER_APPSS_PROC; QDU1000_MASTER_LLCC;
   QDU1000_MASTER_GIC_AHB; QDU1000_MASTER_QDSS_BAM; QDU1000_MASTER_QPIC;
   QDU1000_MASTER_QSPI_0; QDU1000_MASTER_QUP_0; QDU1000_MASTER_QUP_1;
   QDU1000_MASTER_SNOC_CFG; QDU1000_MASTER_ANOC_SNOC; QDU1000_MASTER_ANOC_GSI;
   QDU1000_MASTER_GEMNOC_ECPRI_DMA; QDU1000_MASTER_FEC_2_GEMNOC;
   QDU1000_MASTER_GEM_NOC_CNOC; QDU1000_MASTER_GEMNOC_MODEM_CNOC;
   QDU1000_MASTER_GEM_NOC_PCIE_SNOC; QDU1000_MASTER_ANOC_PCIE_GEM_NOC;
   QDU1000_MASTER_SNOC_GC_MEM_NOC; QDU1000_MASTER_SNOC_SF_MEM_NOC;
   QDU1000_MASTER_QUP_CORE_0; QDU1000_MASTER_QUP_CORE_1;
   QDU1000_MASTER_CRYPTO; QDU1000_MASTER_ECPRI_GSI; QDU1000_MASTER_MSS_PROC;
   QDU1000_MASTER_PIMEM; QDU1000_MASTER_SNOC_ECPRI_DMA; QDU1000_MASTER_GIC;
   QDU1000_MASTER_PCIE; QDU1000_MASTER_QDSS_ETR; QDU1000_MASTER_QDSS_ETR_1;
   QDU1000_MASTER_SDCC_1; QDU1000_MASTER_USB3].

Definition slaves : list node :=
  [QDU1000_SLAVE_EBI1; QDU1000_SLAVE_AHB2PHY_SOUTH;
   QDU1000_SLAVE_AHB2PHY_NORTH; QDU1000_SLAVE_AHB2PHY_EAST;
   QDU1000_SLAVE_AOSS; QDU1000_SLAVE_CLK_CTL; QDU1000_SLAVE_RBCPR_CX_CFG;
   QDU1000_SLAVE_RBCPR_MX_CFG; QDU1000_SLAVE_CRYPTO_0_CFG;
   QDU1000_SLAVE_ECPRI_CFG; QDU1000_SLAVE_IMEM_CFG;
   QDU1000_SLAVE_IPC_ROUTER_CFG; QDU1000_SLAVE_CNOC_MSS;
   QDU1000_SLAVE_PCIE_CFG; QDU1000_SLAVE_PDM; QDU1000_SLAVE_PIMEM_CFG;
   QDU1000_SLAVE_PRNG; QDU1000_SLAVE_QDSS_CFG; QDU1000_SLAVE_QPIC;
   QDU1000_SLAVE_QSPI_0; QDU1000_SLAVE_QUP_0; QDU1000_SLAVE_QUP_1;
   QDU1000_SLAVE_SDCC_2; QDU1000_SLAVE_SMBUS_CFG; QDU1000_SLAVE_SNOC_CFG;
   QDU1000_SLAVE_TCSR; QDU1000_SLAVE_TLMM; QDU1000_SLAVE_TME_CFG;
   QDU1000_SLAVE_TSC_CFG; QDU1000_SLAVE_USB3_0; QDU1000_SLAVE_VSENSE_CTRL_CFG;
   QDU1000_SLAVE_A1NOC_SNOC; QDU1000_SLAVE_ANOC_SNOC_GSI;
   QDU1000_SLAVE_DDRSS_CFG; QDU1000_SLAVE_ECPRI_GEMNOC;
   QDU1000_SLAVE_GEM_NOC_CNOC; QDU1000_SLAVE_SNOC_GEM_NOC_GC;
   QDU1000_SLAVE_SNOC_GEM_NOC_SF; QDU1000_SLAVE_LLCC;
   QDU1000_SLAVE_MODEM_OFFLINE; QDU1000_SLAVE_GEMNOC_MODEM_CNOC;
   QDU1000_SLAVE_MEM_NOC_PCIE_SNOC; QDU1000_SLAVE_ANOC_PCIE_GEM_NOC;
   QDU1000_SLAVE_QUP_CORE_0; QDU1000_SLAVE_QUP_CORE_1; QDU1000_SLAVE_IMEM;
   QDU1000_SLAVE_PIMEM; QDU1000_SLAVE_SERVICE_SNOC; QDU1000_SLAVE_ETHERNET_SS;
   QDU1000_SLAVE_PCIE_0; QDU1000_SLAVE_QDSS_STM; QDU1000_SLAVE_TCU].

End Qdu1000.

(** * Properties *)

(** ** Integer helpers *)

Lemma ulong_small x : 0 <= x < 2 ^ 64 -> ulong x = x.
Proof. intros; unfold ulong; now apply Z.mod_small. Qed.

Lemma u32_small x : 0 <= x < 2 ^ 32 -> u32 x = x.
Proof. intros; unfold u32; now apply Z.mod_small. Qed.

Lemma s32_small x : int_range x -> s32 x = x.
Proof.
  unfold int_range, INT_MIN, INT_MAX, s32. intros H.
  rewrite Z.mod_small; lia.
Qed.

Lemma div_round_up_small n d :
  0 < d -> 0 < n -> n + d < 2 ^ 64 ->
  DIV_ROUND_UP n d = Some ((n - 1) / d + 1).
Proof.
  intros Hd Hn Hs. unfold DIV_ROUND_UP, udiv.
  rewrite (ulong_small (n + d)) by lia.
  rewrite ulong_small by lia.
  destruct (Z.eqb_spec d 0); [lia|].
  f_equal. replace (n + d - 1) with ((n - 1) + 1 * d) by lia.
  now rewrite Z.div_add by lia.
Qed.

Lemma fls_log2 q : 0 < q < 2 ^ 32 -> fls q = Z.log2 q + 1.
Proof.
  intros H. unfold fls. rewrite u32_small by lia.
  destruct (Z.eqb_spec q 0); [lia|reflexivity].
Qed.

(** ** The clock divider *)

Lemma calculate_clkgen_unfold clk t s :
  0 < t <= clk -> clk < 2 ^ 32 ->
  mchp_corespi_calculate_clkgen clk s t =
    let d1 := clkgen_mode1 clk t in
    if (d1 >? CLK_GEN_MODE1_MAX) || (d1 <=? CLK_GEN_MIN) then
      let d0 := clkgen_mode0 clk t in
      if d0 >? CLK_GEN_MODE0_MAX then Some (- EINVAL, s)
      else Some (0, set_clk_gen d0 (set_clk_mode 0 s))
    else Some (0, set_clk_gen d1 (set_clk_mode 1 s)).
Proof.
  intros Ht Hc. unfold mchp_corespi_calculate_clkgen.
  destruct (Z.eqb_spec clk 0); [lia|].
  rewrite Z.min_l by lia.
  assert (H32 : 2 ^ 32 = 4294967296) by reflexivity.
  assert (H64 : 2 ^ 64 = 18446744073709551616) by reflexivity.
  rewrite (ulong_small (2 * t)) by lia.
  rewrite div_round_up_small by lia. cbn [obind].
  replace ((clk - 1) / (2 * t) + 1 - 1) with (clkgen_mode1 clk t)
    by (unfold clkgen_mode1; lia).
  assert (Hd1 : 0 <= clkgen_mode1 clk t < 2 ^ 32).
  { unfold clkgen_mode1. split.
    - apply Z.div_pos; lia.
    - apply Z.div_lt_upper_bound; nia. }
  rewrite (ulong_small (clkgen_mode1 clk t)) by lia.
  cbv zeta.
  destruct ((clkgen_mode1 clk t >? CLK_GEN_MODE1_MAX) || (clkgen_mode1 clk t <=? CLK_GEN_MIN)).
  - rewrite div_round_up_small by lia. cbn [obind].
    assert (Hq : 0 < (clk - 1) / t + 1 < 2 ^ 32).
    { split.
      - assert (0 <= (clk - 1) / t) by (apply Z.div_pos; lia). lia.
      - assert ((clk - 1) / t < 2 ^ 32 - 1) by (apply Z.div_lt_upper_bound; nia). lia. }
    rewrite fls_log2 by lia.
    replace (Z.log2 ((clk - 1) / t + 1) + 1 - 1) with (clkgen_mode0 clk t)
      by (unfold clkgen_mode0; lia).
    assert (Hd0 : 0 <= clkgen_mode0 clk t < 32).
    { unfold clkgen_mode0. split; [apply Z.log2_nonneg|].
      apply Z.log2_lt_pow2; lia. }
    rewrite (ulong_small (clkgen_mode0 clk t)) by lia.
    destruct (clkgen_mode0 clk t >? CLK_GEN_MODE0_MAX); [reflexivity|].
    now rewrite u32_small by lia.
  - now rewrite u32_small by lia.
Qed.

(** [clkgen_mode1] is the least [d] with [clk <= 2 * (d + 1) * t]. *)
Lemma clkgen_mode1_spec clk t :
  0 < t -> 0 < clk ->
  let d := clkgen_mode1 clk t in
  0 <= d /\ clk <= 2 * (d + 1) * t /\ 2 * d * t < clk.
Proof.
  intros Ht Hc d. subst d. unfold clkgen_mode1.
  pose proof (Z.div_mod (clk - 1) (2 * t) ltac:(lia)) as E.
  pose proof (Z.mod_pos_bound (clk - 1) (2 * t) ltac:(lia)) as B.
  assert (0 <= (clk - 1) / (2 * t)) by (apply Z.div_pos; lia).
  nia.
Qed.

(** [clkgen_mode0] is the binary logarithm of [ceil(clk / t)]. *)
Lemma clkgen_mode0_spec clk t :
  0 < t -> 0 < clk ->
  let d := clkgen_mode0 clk t in
  0 <= d /\ clk < 2 ^ (d + 1) * t /\ (2 ^ d - 1) * t < clk.
Proof.
  intros Ht Hc d. subst d. unfold clkgen_mode0.
  set (q := (clk - 1) / t + 1).
  assert (Hq0 : 0 <= (clk - 1) / t) by (apply Z.div_pos; lia).
  assert (Hq : 0 < q) by (unfold q; lia).
  pose proof (Z.log2_spec q Hq) as [Hlo Hhi].
  pose proof (Z.div_mod (clk - 1) t ltac:(lia)) as E.
  pose proof (Z.mod_pos_bound (clk - 1) t ltac:(lia)) as B.
  replace (Z.succ (Z.log2 q)) with (Z.log2 q + 1) in Hhi by lia.
  split; [apply Z.log2_nonneg|].
  unfold q in *. split; nia.
Qed.

Lemma clkgen_mode0_le15 clk t :
  0 < t -> 0 < clk ->
  (clkgen_mode0 clk t <= 15 <-> clk <= 65535 * t).
Proof.
  intros Ht Hc. unfold clkgen_mode0.
  set (q := (clk - 1) / t + 1).
  assert (Hq0 : 0 <= (clk - 1) / t) by (apply Z.div_pos; lia).
  assert (Hq : 0 < q) by (unfold q; lia).
  pose proof (Z.div_mod (clk - 1) t ltac:(lia)) as E.
  pose proof (Z.mod_pos_bound (clk - 1) t ltac:(lia)) as B.
  assert (Hlog : q < 2 ^ 16 <-> Z.log2 q < 16) by (apply Z.log2_lt_pow2; lia).
  change (2 ^ 16) with 65536 in Hlog.
  unfold q in *. split; intros H.
  - assert ((clk - 1) / t + 1 < 65536) by (apply Hlog; lia). nia.
  - assert (Z.log2 ((clk - 1) / t + 1) < 16); [|lia].
    apply Hlog. assert ((clk - 1) / t < 65535); [|lia].
    apply Z.div_lt_upper_bound; lia.
Qed.

(** C1, as amended.  For a target rate [0 < t <= clk] the divider
    computation has exactly three outcomes.  It fails with [-EINVAL],
    leaving the structure alone, when [clk > 65535 * t].  It selects clock
    mode 1 (scheme A) exactly when [2 * t < clk <= 512 * t], with the
    divider [d = (clk - 1) / (2 * t)], that is [ceil (clk / (2 * t)) - 1],
    which lies in [1, 255] and is the least [d] with
    [clk <= 2 * (d + 1) * t].  Otherwise it selects clock mode 0
    (scheme B) with [d = log2 ((clk - 1) / t + 1)], that is
    [floor (log2 (ceil (clk / t)))], which lies in [0, 15] and whose rate
    [clk / 2^(d+1)] is at most [t]; no divider below [d - 1] reaches the
    target. *)
Theorem calculate_clkgen_selects (clk t : Z) (s : mchp_corespi) :
  0 < t <= clk -> clk < 2 ^ 32 ->
  (65535 * t < clk /\
   mchp_corespi_calculate_clkgen clk s t = Some (- EINVAL, s))
  \/
  (exists d,
     mchp_corespi_calculate_clkgen clk s t
       = Some (0, set_clk_gen d (set_clk_mode 1 s))
     /\ d = clkgen_mode1 clk t
     /\ 2 * t < clk <= 512 * t
     /\ CLK_GEN_MIN < d <= CLK_GEN_MODE1_MAX
     /\ clk <= 2 * (d + 1) * t
     /\ (forall d', 0 <= d' < d -> 2 * (d' + 1) * t < clk))
  \/
  (exists d,
     mchp_corespi_calculate_clkgen clk s t
       = Some (0, set_clk_gen d (set_clk_mode 0 s))
     /\ d = clkgen_mode0 clk t
     /\ ~ (2 * t < clk <= 512 * t) /\ clk <= 65535 * t
     /\ 0 <= d <= CLK_GEN_MODE0_MAX
     /\ effective_rate clk 0 d <= t
     /\ clk < clk_divisor 0 d * t
     /\ (forall d', 0 <= d' < d - 1 -> clk_divisor 0 d' * t < clk)).
Proof.
  intros Ht Hc. rewrite calculate_clkgen_unfold by assumption. cbv zeta.
  pose proof (clkgen_mode1_spec clk t ltac:(lia) ltac:(lia)) as (H1a & H1b & H1c).
  pose proof (clkgen_mode0_spec clk t ltac:(lia) ltac:(lia)) as (H0a & H0b & H0c).
  pose proof (clkgen_mode0_le15 clk t ltac:(lia) ltac:(lia)) as H15.
  unfold CLK_GEN_MODE1_MAX, CLK_GEN_MIN, CLK_GEN_MODE0_MAX in *.
  destruct (Z.gtb_spec (clkgen_mode1 clk t) 255) as [Hgt|Hle]; cbn [orb].
  - (* mode 1 out of range above *)
    assert (Hbig : 512 * t < clk) by nia.
    destruct (Z.gtb_spec (clkgen_mode0 clk t) 15) as [Hg0|Hl0].
    + left. split; [|reflexivity].
      destruct (Z.le_gt_cases clk (65535 * t)) as [Hx|Hx]; [|lia].
      apply H15 in Hx. lia.
    + right; right. exists (clkgen_mode0 clk t).
      split; [reflexivity|]. split; [reflexivity|].
      split; [lia|]. split; [apply H15; lia|].
      split; [lia|]. unfold effective_rate, clk_divisor. cbn [Z.eqb].
      assert (Hpow : 0 < 2 ^ (clkgen_mode0 clk t + 1)) by (apply Z.pow_pos_nonneg; lia).
      split; [|split; [lia|]].
      * assert (clk / 2 ^ (clkgen_mode0 clk t + 1) < t); [|lia].
        apply Z.div_lt_upper_bound; lia.
      * intros d' Hd'.
        assert (2 ^ (d' + 1) <= 2 ^ (clkgen_mode0 clk t - 1))
          by (apply Z.pow_le_mono_r; lia).
        assert (2 ^ clkgen_mode0 clk t = 2 * 2 ^ (clkgen_mode0 clk t - 1)).
        { replace (clkgen_mode0 clk t) with ((clkgen_mode0 clk t - 1) + 1) at 1 by lia.
          rewrite Z.pow_add_r by lia. lia. }
        assert (0 < 2 ^ (clkgen_mode0 clk t - 1)) by (apply Z.pow_pos_nonneg; lia).
        nia.
  - destruct (Z.leb_spec (clkgen_mode1 clk t) 0) as [Hz|Hpos].
    + (* mode 1 gives 0 *)
      assert (Hd1 : clkgen_mode1 clk t = 0) by lia.
      assert (Hsmall : clk <= 2 * t) by nia.
      destruct (Z.gtb_spec (clkgen_mode0 clk t) 15) as [Hg0|Hl0].
      * exfalso. assert (clkgen_mode0 clk t <= 15) by (apply H15; lia). lia.
      * right; right. exists (clkgen_mode0 clk t).
        split; [reflexivity|]. split; [reflexivity|].
        split; [lia|]. split; [lia|].
        split; [lia|]. unfold effective_rate, clk_divisor. cbn [Z.eqb].
        assert (Hpow : 0 < 2 ^ (clkgen_mode0 clk t + 1)) by (apply Z.pow_pos_nonneg; lia).
        split; [|split; [lia|]].
        -- assert (clk / 2 ^ (clkgen_mode0 clk t + 1) < t); [|lia].
           apply Z.div_lt_upper_bound; lia.
        -- intros d' Hd'.
           assert (2 ^ (d' + 1) <= 2 ^ (clkgen_mode0 clk t - 1))
             by (apply Z.pow_le_mono_r; lia).
           assert (2 ^ clkgen_mode0 clk t = 2 * 2 ^ (clkgen_mode0 clk t - 1)).
           { replace (clkgen_mode0 clk t) with ((clkgen_mode0 clk t - 1) + 1) at 1 by lia.
             rewrite Z.pow_add_r by lia. lia. }
           assert (0 < 2 ^ (clkgen_mode0 clk t - 1)) by (apply Z.pow_pos_nonneg; lia).
           nia.
    + right; left. exists (clkgen_mode1 clk t).
      split; [reflexivity|]. split; [reflexivity|].
      split; [nia|]. split; [lia|]. split; [lia|].
      intros d' Hd'. nia.
Qed.

Lemma calculate_clkgen_selects_witness :
  exists d,
    mchp_corespi_calculate_clkgen 20000000 spi_idle 1000000
      = Some (0, set_clk_gen d (set_clk_mode 1 spi_idle))
    /\ d = 9.
Proof.
  destruct (calculate_clkgen_selects 20000000 1000000 spi_idle ltac:(lia) ltac:(lia))
    as [[H _] | [(d & E & _ & _ & _ & Hle & Hmin) | (d & _ & _ & H & _)]].
  - lia.
  - exists d. split; [exact E|].
    assert (9 <= d) by lia.
    destruct (Z.eq_dec d 9) as [->|Hne]; [reflexivity|].
    specialize (Hmin 9 ltac:(lia)). lia.
  - lia.
Defined.

(** C1 as stated fails on the code.  With a 20 MHz source clock: a
    target of 1 Hz is refused although it is below the source rate; a
    target of 1 MHz selects scheme A with [d = 9], whose rate by the
    documented ratio [1 / (2 * d + 1)] is 1052631 Hz, above the target; a
    target of 20 MHz selects scheme B although [d = 0] of scheme A meets
    the bound; a target of 10 MHz selects [d = 1] in scheme B although
    [d = 0] of scheme B meets the bound. *)
Lemma calculate_clkgen_counterexample :
  mchp_corespi_calculate_clkgen 20000000 spi_idle 1 = Some (- EINVAL, spi_idle)
  /\ (mchp_corespi_calculate_clkgen 20000000 spi_idle 1000000
        = Some (0, set_clk_gen 9 (set_clk_mode 1 spi_idle))
      /\ effective_rate 20000000 1 9 = 1052631
      /\ ~ effective_rate 20000000 1 9 <= 1000000)
  /\ (mchp_corespi_calculate_clkgen 20000000 spi_idle 20000000
        = Some (0, set_clk_gen 0 (set_clk_mode 0 spi_idle))
      /\ effective_rate 20000000 1 0 <= 20000000)
  /\ (mchp_corespi_calculate_clkgen 20000000 spi_idle 10000000
        = Some (0, set_clk_gen 1 (set_clk_mode 0 spi_idle))
      /\ effective_rate 20000000 0 0 <= 10000000).
Proof.
  repeat split; try reflexivity; vm_compute; congruence.
Qed.

(** ** Projections of the log *)

Lemma tx_data_writes_app l1 l2 :
  tx_data_writes (l1 ++ l2) = tx_data_writes l1 ++ tx_data_writes l2.
Proof.
  induction l1 as [|e l1 IH]; [reflexivity|].
  destruct e; cbn; try assumption.
  destruct (reg =? REG_TX_DATA); cbn; now rewrite ?IH.
Qed.

Lemma rx_data_reads_app l1 l2 :
  rx_data_reads (l1 ++ l2) = rx_data_reads l1 ++ rx_data_reads l2.
Proof.
  induction l1 as [|e l1 IH]; [reflexivity|].
  destruct e; cbn; try assumption.
  destruct (reg =? REG_RX_DATA); cbn; now rewrite ?IH.
Qed.

Lemma tx_count_app l1 l2 : tx_count (l1 ++ l2) = tx_count l1 + tx_count l2.
Proof. unfold tx_count. rewrite tx_data_writes_app, length_app. lia. Qed.

Lemma rx_count_app l1 l2 : rx_count (l1 ++ l2) = rx_count l1 + rx_count l2.
Proof. unfold rx_count. rewrite rx_data_reads_app, length_app. lia. Qed.

Lemma fifo_quiet_app l1 l2 : fifo_quiet l1 -> fifo_quiet l2 -> fifo_quiet (l1 ++ l2).
Proof.
  unfold fifo_quiet. intros H1 H2. rewrite existsb_app, H1, H2. reflexivity.
Qed.

Lemma fifo_quiet_tx l : fifo_quiet l -> tx_data_writes l = [].
Proof.
  unfold fifo_quiet. induction l as [|e l IH]; [reflexivity|].
  cbn [existsb]. intros H. apply orb_false_elim in H as [He Hl].
  destruct e; cbn in *; auto.
  apply orb_false_elim in He as [_ He]. rewrite He. auto.
Qed.

Lemma fifo_quiet_rx l : fifo_quiet l -> rx_data_reads l = [].
Proof.
  unfold fifo_quiet. induction l as [|e l IH]; [reflexivity|].
  cbn [existsb]. intros H. apply orb_false_elim in H as [He Hl].
  destruct e; cbn in *; auto.
  apply orb_false_elim in He as [He _]. rewrite He. auto.
Qed.

Lemma new_events_app {HW : Type} (m m' : machine HW) l :
  log m' = log m ++ l -> new_events m m' = l.
Proof.
  unfold new_events. intros ->. rewrite skipn_app, skipn_all, Nat.sub_diag. reflexivity.
Qed.

Lemma u32_range x : 0 <= u32 x < 2 ^ 32.
Proof. unfold u32. apply Z.mod_pos_bound. reflexivity. Qed.

Lemma u8_range x : 0 <= u8 x < 256.
Proof. unfold u8. apply Z.mod_pos_bound. reflexivity. Qed.

Lemma u32_u8 x : u32 (u8 x) = u8 x.
Proof. pose proof (u8_range x). apply u32_small. lia. Qed.

Lemma u32_idem x : u32 (u32 x) = u32 x.
Proof. apply u32_small, u32_range. Qed.

(** ** Effects of the register primitives *)

Section Effects.
  Context {HW : Type} {io : Mmio HW}.

Lemma mmio_only_trans (m1 m2 m3 : machine HW) l1 l2 :
    mmio_only m1 m2 l1 -> mmio_only m2 m3 l2 -> mmio_only m1 m3 (l1 ++ l2).
  Proof.
    intros (A1 & B1 & C1 & D1) (A2 & B2 & C2 & D2).
    repeat split; try congruence.
    rewrite A2, A1. now rewrite app_assoc.
  Qed.

Lemma read_inv reg m v m' :
    mchp_corespi_read reg m = (v, m') ->
    mmio_only m m' [MmioRead reg v] /\ 0 <= v < 2 ^ 32
    /\ v = u32 (fst (readl (hw m) reg)) /\ hw m' = snd (readl (hw m) reg).
  Proof.
    unfold mchp_corespi_read. destruct (readl (hw m) reg) as [x h].
    intros H; inversion H; subst; clear H. cbn.
    repeat split; auto using u32_range; apply u32_range.
  Qed.

Lemma write_inv reg val m u m' :
    mchp_corespi_write reg val m = (u, m') ->
    mmio_only m m' [MmioWrite reg (u32 val)]
    /\ hw m' = writel (hw m) reg (u32 val).
  Proof.
    unfold mchp_corespi_write. intros H; inversion H; subst; clear H. cbn.
    repeat split; auto.
  Qed.

Lemma disable_inv m u m' :
    mchp_corespi_disable m = (u, m') ->
    exists c,
      mmio_only m m'
        [MmioRead REG_CONTROL c;
         MmioWrite REG_CONTROL (u32 (Z.land c (not64 CONTROL_ENABLE)))].
  Proof.
    unfold mchp_corespi_disable, bind.
    destruct (mchp_corespi_read REG_CONTROL m) as [c m1] eqn:E1.
    intros E2. apply read_inv in E1 as (H1 & _). apply write_inv in E2 as (H2 & _).
    exists c. rewrite u32_idem in H2.
    exact (mmio_only_trans _ _ _ _ _ H1 H2).
  Qed.

Lemma set_xfer_size_inv len m u m' :
    mchp_corespi_set_xfer_size len m = (u, m') ->
    exists c0 c1, mmio_only m m' (xfer_size_events len c0 c1).
  Proof.
    unfold mchp_corespi_set_xfer_size, bind.
    destruct (mchp_corespi_disable m) as [u0 m1] eqn:E0.
    destruct (mchp_corespi_read REG_CONTROL m1) as [c1 m2] eqn:E1.
    destruct (mchp_corespi_write REG_CONTROL _ m2) as [u2 m3] eqn:E2.
    destruct (mchp_corespi_write REG_FRAMESUP _ m3) as [u3 m4] eqn:E3.
    intros E4.
    apply disable_inv in E0 as (c0 & H0).
    apply read_inv in E1 as (H1 & _).
    apply write_inv in E2 as (H2 & _).
    apply write_inv in E3 as (H3 & _).
    apply write_inv in E4 as (H4 & _).
    exists c0, c1.
    pose proof (mmio_only_trans _ _ _ _ _
      (mmio_only_trans _ _ _ _ _
        (mmio_only_trans _ _ _ _ _ (mmio_only_trans _ _ _ _ _ H0 H1) H2) H3) H4) as H.
    cbn [app] in H. unfold xfer_size_events.
    rewrite !u32_idem in H.
    replace (u32 (u16 (Z.land len 4294901760))) with (u16 (Z.land len 4294901760)) in H.
    - exact H.
    - symmetry. apply u32_small. unfold u16.
      pose proof (Z.mod_pos_bound (Z.land len 4294901760) (2 ^ 16) eq_refl). lia.
  Qed.

Lemma xfer_size_events_quiet len c0 c1 : fifo_quiet (xfer_size_events len c0 c1).
  Proof. reflexivity. Qed.

Lemma set_clk_gen_inv m u m' :
    mchp_corespi_set_clk_gen m = (u, m') ->
    exists l, mmio_only m m' l /\ fifo_quiet l.
  Proof.
    unfold mchp_corespi_set_clk_gen, bind.
    destruct (mchp_corespi_disable m) as [u0 m1] eqn:E0.
    destruct (mchp_corespi_read REG_CONTROL m1) as [c1 m2] eqn:E1.
    unfold get_spi at 1.
    destruct (mchp_corespi_write REG_CLK_GEN _ m2) as [u2 m3] eqn:E2.
    destruct (mchp_corespi_write REG_CONTROL _ m3) as [u3 m4] eqn:E3.
    intros E4.
    apply disable_inv in E0 as (c0 & H0).
    apply read_inv in E1 as (H1 & _).
    apply write_inv in E2 as (H2 & _).
    apply write_inv in E3 as (H3 & _).
    apply write_inv in E4 as (H4 & _).
    eexists. split.
    - exact (mmio_only_trans _ _ _ _ _
        (mmio_only_trans _ _ _ _ _
          (mmio_only_trans _ _ _ _ _ (mmio_only_trans _ _ _ _ _ H0 H1) H2) H3) H4).
    - reflexivity.
  Qed.

End Effects.

(** ** The drain and fill loops *)

Lemma drain_events_no_tx l : forallb is_drain_event l = true -> tx_data_writes l = [].
Proof.
  induction l as [|e l IH]; [reflexivity|]. cbn [forallb].
  intros H. apply andb_prop in H as [He Hl]. destruct e; cbn in *; auto; discriminate.
Qed.

Lemma fill_events_no_rx l : forallb is_fill_event l = true -> rx_data_reads l = [].
Proof.
  induction l as [|e l IH]; [reflexivity|]. cbn [forallb].
  intros H. apply andb_prop in H as [He Hl]. destruct e; cbn in *; auto; try discriminate.
  apply Z.eqb_eq in He. subst reg. cbn. auto.
Qed.

Lemma drain_events_no_write l : forallb is_drain_event l = true -> existsb is_write l = false.
Proof.
  induction l as [|e l IH]; [reflexivity|]. cbn [forallb existsb].
  intros H. apply andb_prop in H as [He Hl]. destruct e; cbn in *; auto; discriminate.
Qed.

Section Fifo.
Context {HW : Type} {io : Mmio HW}.

Lemma read_fifo_loop_inv n : forall i (m : machine HW) i' m',
  0 <= rx_buf (spi m) ->
  read_fifo_loop n i m = (i', m') ->
  exists l,
    log m' = log m ++ l /\ clk_rate m' = clk_rate m
    /\ forallb is_drain_event l = true
    /\ rx_count l = i' - i /\ 0 <= i' - i <= Z.of_nat n
    /\ spi m' = set_rx_buf (if rx_buf (spi m) =? 0 then 0
                            else rx_buf (spi m) + (i' - i)) (spi m)
    /\ mem m' = (if rx_buf (spi m) =? 0 then mem m
                 else store_bytes (mem m) (rx_buf (spi m)) (map u8 (rx_data_reads l))).
Proof.
  induction n as [|n IH]; intros i m i' m' Hp H.
  - cbn in H. inversion H; subst; clear H. exists [].
    rewrite app_nil_r, Z.sub_diag, Z.add_0_r. cbn.
    repeat split; try lia.
    + destruct (spi m'); cbn. now destruct (rx_buf0 =? 0) eqn:E; [apply Z.eqb_eq in E; subst|].
    + now destruct (rx_buf (spi m') =? 0).
  - cbn [read_fifo_loop] in H. unfold bind at 1 in H.
    destruct (mchp_corespi_read REG_STATUS m) as [st m1] eqn:E1.
    apply read_inv in E1 as ((L1 & K1 & S1 & M1) & _).
    destruct (Z.land st STATUS_RXFIFO_EMPTY =? 0).
    + unfold bind at 1 in H.
      destruct (mchp_corespi_read REG_RX_DATA m1) as [v m2] eqn:E2.
      apply read_inv in E2 as ((L2 & K2 & S2 & M2) & _).
      unfold bind at 1, get_spi at 1 in H. unfold bind at 1 in H.
      destruct (rx_buf (spi m2) =? 0) eqn:Enull.
      * (* no receive buffer *)
        cbn [ret] in H. apply IH in H; [|congruence].
        destruct H as (l & Hl & Hk & Hd & Hc & Hr & Hs & Hm).
        exists ([MmioRead REG_STATUS st; MmioRead REG_RX_DATA v] ++ l).
        assert (En : (rx_buf (spi m) =? 0) = true) by congruence.
        rewrite Enull in Hs, Hm. rewrite En.
        rewrite rx_count_app. change (rx_count [_; _]) with 1.
        repeat split; try lia; try congruence.
        -- rewrite Hl, L2, L1, <- !app_assoc. reflexivity.
        -- rewrite forallb_app, Hd. reflexivity.
      * (* the byte is stored and the pointer advances *)
        unfold store_byte, modify_spi, bind in H. cbn [spi hw clk_rate mem log] in H.
        apply IH in H; [|cbn; rewrite S2, S1; lia].
        destruct H as (l & Hl & Hk & Hd & Hc & Hr & Hs & Hm).
        cbn [spi hw clk_rate mem log] in *.
        exists ([MmioRead REG_STATUS st; MmioRead REG_RX_DATA v] ++ l).
        assert (En : (rx_buf (spi m) =? 0) = false) by congruence.
        rewrite En. rewrite S2, S1 in *. rewrite M2, M1 in *.
        assert (Ea : (rx_buf (set_rx_buf (rx_buf (spi m) + 1) (spi m)) =? 0) = false).
        { cbn. apply Z.eqb_neq. lia. }
        rewrite Ea in Hs, Hm.
        rewrite rx_count_app. change (rx_count [_; _]) with 1.
        repeat split; try lia; try congruence.
        -- rewrite Hl, L2, L1, <- !app_assoc. reflexivity.
        -- rewrite forallb_app, Hd. reflexivity.
        -- rewrite Hs. destruct (spi m); unfold set_rx_buf, set_tx_buf; cbn. f_equal. lia.
        -- rewrite Hm. rewrite rx_data_reads_app. reflexivity.
    + cbn in H. inversion H; subst; clear H.
      exists [MmioRead REG_STATUS st].
      rewrite Z.sub_diag, Z.add_0_r. cbn.
      repeat split; try lia; try congruence.
      * rewrite S1. destruct (spi m); cbn.
        now destruct (rx_buf0 =? 0) eqn:E; [apply Z.eqb_eq in E; subst|].
      * rewrite M1. now destruct (rx_buf (spi m) =? 0).
Qed.

Lemma write_fifo_loop_inv n : forall i (m : machine HW) i' m',
  0 <= tx_buf (spi m) ->
  write_fifo_loop n i m = (i', m') ->
  exists l,
    log m' = log m ++ l /\ clk_rate m' = clk_rate m /\ mem m' = mem m
    /\ forallb is_fill_event l = true
    /\ tx_count l = i' - i /\ 0 <= i' - i <= Z.of_nat n
    /\ spi m' = set_tx_buf (if tx_buf (spi m) =? 0 then 0
                            else tx_buf (spi m) + (i' - i)) (spi m)
    /\ tx_data_writes l =
         (if tx_buf (spi m) =? 0 then repeat 0xaa (Z.to_nat (i' - i))
          else map u8 (load_bytes (mem m) (tx_buf (spi m)) (Z.to_nat (i' - i)))).
Proof.
  induction n as [|n IH]; intros i m i' m' Hp H.
  - cbn in H. inversion H; subst; clear H. exists [].
    rewrite app_nil_r, Z.sub_diag, Z.add_0_r. cbn.
    repeat split; try lia.
    + destruct (spi m'); cbn. now destruct (tx_buf0 =? 0) eqn:E; [apply Z.eqb_eq in E; subst|].
    + now destruct (tx_buf (spi m') =? 0).
  - cbn [write_fifo_loop] in H. unfold bind at 1 in H.
    destruct (mchp_corespi_read REG_STATUS m) as [st m1] eqn:E1.
    apply read_inv in E1 as ((L1 & K1 & S1 & M1) & _).
    destruct (Z.land st STATUS_TXFIFO_FULL =? 0).
    + unfold bind at 1, get_spi at 1 in H. unfold bind at 1 in H.
      destruct (tx_buf (spi m1) =? 0) eqn:Enull.
      * (* filler byte *)
        cbn [ret] in H. unfold bind at 1 in H.
        destruct (mchp_corespi_write REG_TX_DATA 170 m1) as [u m2] eqn:E2.
        apply write_inv in E2 as ((L2 & K2 & S2 & M2) & _).
        apply IH in H; [|congruence].
        destruct H as (l & Hl & Hk & Hmm & Hd & Hc & Hr & Hs & Hw).
        exists ([MmioRead REG_STATUS st; MmioWrite REG_TX_DATA (u32 170)] ++ l).
        assert (En : (tx_buf (spi m) =? 0) = true) by congruence.
        assert (En2 : (tx_buf (spi m2) =? 0) = true) by congruence.
        rewrite En2 in Hs, Hw. rewrite En.
        rewrite tx_count_app. change (tx_count [_; _]) with 1.
        repeat split; try lia; try congruence.
        -- rewrite Hl, L2, L1, <- !app_assoc. reflexivity.
        -- rewrite forallb_app, Hd. reflexivity.
        -- rewrite tx_data_writes_app, Hw.
           replace (Z.to_nat (i' - i)) with (S (Z.to_nat (i' - (i + 1)))) by lia.
           reflexivity.
      * (* next byte of the transmit buffer *)
        unfold load_byte, modify_spi, bind at 1 in H.
        unfold bind at 1 in H. cbn [ret] in H. unfold bind at 1 in H.
        match type of H with
        | context [mchp_corespi_write REG_TX_DATA ?b ?mm] =>
            destruct (mchp_corespi_write REG_TX_DATA b mm) as [u m2] eqn:E2
        end.
        apply write_inv in E2 as ((L2 & K2 & S2 & M2) & _).
        cbn [spi hw clk_rate mem log] in *.
        apply IH in H; [|rewrite S2, S1; cbn; lia].
        destruct H as (l & Hl & Hk & Hmm & Hd & Hc & Hr & Hs & Hw).
        exists ([MmioRead REG_STATUS st;
                 MmioWrite REG_TX_DATA (u8 (mem m (tx_buf (spi m))))] ++ l).
        assert (En : (tx_buf (spi m) =? 0) = false) by congruence.
        rewrite En. rewrite S2, S1 in *. rewrite M2, M1 in *. rewrite u32_u8 in L2.
        assert (Ea : (tx_buf (set_tx_buf (tx_buf (spi m) + 1) (spi m)) =? 0) = false).
        { cbn. apply Z.eqb_neq. lia. }
        rewrite Ea in Hs, Hw.
        rewrite tx_count_app. change (tx_count [_; _]) with 1.
        repeat split; try lia; try congruence.
        -- rewrite Hl, L2, L1, <- !app_assoc. reflexivity.
        -- rewrite forallb_app, Hd. reflexivity.
        -- rewrite Hs. destruct (spi m); unfold set_rx_buf, set_tx_buf; cbn. f_equal. lia.
        -- rewrite tx_data_writes_app, Hw.
           replace (Z.to_nat (i' - i)) with (S (Z.to_nat (i' - (i + 1)))) by lia.
           reflexivity.
    + cbn in H. inversion H; subst; clear H.
      exists [MmioRead REG_STATUS st].
      rewrite Z.sub_diag, Z.add_0_r. cbn.
      repeat split; try lia; try congruence.
      * rewrite S1. destruct (spi m); cbn.
        now destruct (tx_buf0 =? 0) eqn:E; [apply Z.eqb_eq in E; subst|].
      * now destruct (tx_buf (spi m) =? 0).
Qed.

(** [mchp_corespi_read_fifo] on any controller: it only reads [STATUS] and
    [RX_DATA]; the bytes read go to consecutive addresses of the receive
    buffer when there is one; [rx_len] and [pending] go down by the number
    of bytes read, which is at most [min(rx_len, FIFO_DEPTH)]. *)
Lemma read_fifo_inv (m : machine HW) u m' :
  0 <= rx_buf (spi m) -> int_range (rx_len (spi m)) ->
  mchp_corespi_read_fifo m = (u, m') ->
  exists l,
    log m' = log m ++ l /\ clk_rate m' = clk_rate m
    /\ forallb is_drain_event l = true
    /\ 0 <= rx_count l <= Z.max 0 (Z.min (rx_len (spi m)) FIFO_DEPTH)
    /\ spi m' =
         set_pending (s32 (pending (spi m) - rx_count l))
           (set_rx_len (rx_len (spi m) - rx_count l)
              (set_rx_buf (if rx_buf (spi m) =? 0 then 0
                           else rx_buf (spi m) + rx_count l) (spi m)))
    /\ mem m' = (if rx_buf (spi m) =? 0 then mem m
                 else store_bytes (mem m) (rx_buf (spi m)) (map u8 (rx_data_reads l))).
Proof.
  intros Hp Hr H. unfold mchp_corespi_read_fifo in H.
  unfold bind at 1, get_spi at 1 in H. unfold bind at 1 in H.
  destruct (read_fifo_loop _ 0 m) as [i m1] eqn:E.
  apply read_fifo_loop_inv in E; [|assumption].
  destruct E as (l & Hl & Hk & Hd & Hc & Hb & Hs & Hm).
  rewrite Z.sub_0_r in *.
  unfold bind, modify_spi in H. cbn in H. injection H as _ H. subst m'. cbn.
  exists l. rewrite Hc.
  assert (Hi : 0 <= i <= Z.max 0 (Z.min (rx_len (spi m)) FIFO_DEPTH)) by lia.
  repeat split; try assumption; try lia.
  rewrite Hs. unfold set_pending, set_rx_len, set_rx_buf; cbn.
  f_equal. apply s32_small.
  unfold int_range, INT_MIN, INT_MAX, FIFO_DEPTH in *. lia.
Qed.

(** [mchp_corespi_write_fifo] on any controller: the frame count is
    programmed with [min(tx_len, FIFO_DEPTH)], then only [STATUS] is read
    and [TX_DATA] written; the bytes come from consecutive addresses of
    the transmit buffer, or are [0xaa] when there is none; [tx_len] goes
    down and [pending] up by the number of bytes written, which is at most
    [min(tx_len, FIFO_DEPTH)]. *)
Lemma write_fifo_inv (m : machine HW) u m' :
  0 <= tx_buf (spi m) -> int_range (tx_len (spi m)) ->
  mchp_corespi_write_fifo m = (u, m') ->
  exists c0 c1 l,
    log m' = log m
             ++ xfer_size_events (Z.min (tx_len (spi m)) FIFO_DEPTH) c0 c1 ++ l
    /\ clk_rate m' = clk_rate m /\ mem m' = mem m
    /\ forallb is_fill_event l = true
    /\ 0 <= tx_count l <= Z.max 0 (Z.min (tx_len (spi m)) FIFO_DEPTH)
    /\ spi m' =
         set_pending (s32 (pending (spi m) + tx_count l))
           (set_tx_len (tx_len (spi m) - tx_count l)
              (set_tx_buf (if tx_buf (spi m) =? 0 then 0
                           else tx_buf (spi m) + tx_count l) (spi m)))
    /\ tx_data_writes l =
         (if tx_buf (spi m) =? 0 then repeat 0xaa (Z.to_nat (tx_count l))
          else map u8 (load_bytes (mem m) (tx_buf (spi m)) (Z.to_nat (tx_count l)))).
Proof.
  intros Hp Hr H. unfold mchp_corespi_write_fifo in H.
  unfold bind at 1, get_spi at 1 in H. unfold bind at 1 in H.
  destruct (mchp_corespi_set_xfer_size _ m) as [u0 m0] eqn:E0.
  apply set_xfer_size_inv in E0 as (c0 & c1 & L0 & K0 & S0 & M0).
  unfold bind at 1 in H.
  destruct (write_fifo_loop _ 0 m0) as [i m1] eqn:E.
  apply write_fifo_loop_inv in E; [|congruence].
  destruct E as (l & Hl & Hk & Hmm & Hd & Hc & Hb & Hs & Hw).
  rewrite Z.sub_0_r in *. rewrite S0, M0 in *.
  unfold bind, modify_spi in H. cbn in H. injection H as _ H. subst m'. cbn.
  exists c0, c1, l. rewrite Hc.
  assert (Hi : 0 <= i <= Z.max 0 (Z.min (tx_len (spi m)) FIFO_DEPTH)) by lia.
  repeat split; try assumption; try lia; try congruence.
  - rewrite Hl, L0, <- app_assoc. reflexivity.
  - rewrite Hs. unfold set_pending, set_tx_len, set_tx_buf; cbn.
    f_equal. apply s32_small.
    unfold int_range, INT_MIN, INT_MAX, FIFO_DEPTH in *. lia.
Qed.

(** The log only grows. *)
Lemma read_fifo_loop_extends n : forall i (m : machine HW),
  exists l, log (snd (read_fifo_loop n i m)) = log m ++ l.
Proof.
  induction n as [|n IH]; intros i m.
  - exists []. cbn. now rewrite app_nil_r.
  - cbn [read_fifo_loop]. unfold bind at 1.
    destruct (mchp_corespi_read REG_STATUS m) as [st ms] eqn:Es.
    apply read_inv in Es as ((Ls & _) & _).
    destruct (Z.land st STATUS_RXFIFO_EMPTY =? 0); [|cbn; eauto].
    unfold bind at 1.
    destruct (mchp_corespi_read REG_RX_DATA ms) as [v mv] eqn:Ev.
    apply read_inv in Ev as ((Lv & _) & _).
    unfold bind at 1, get_spi at 1. unfold bind at 1.
    destruct (rx_buf (spi mv) =? 0);
      cbn [ret store_byte modify_spi bind hw clk_rate spi mem log];
      match goal with
      | |- context [read_fifo_loop n ?j ?mm] =>
          destruct (IH j mm) as (l & Hl); cbn [log] in Hl
      end;
      rewrite Hl, Lv, Ls, <- !app_assoc; eauto.
Qed.

Lemma write_fifo_loop_extends n : forall i (m : machine HW),
  exists l, log (snd (write_fifo_loop n i m)) = log m ++ l.
Proof.
  induction n as [|n IH]; intros i m.
  - exists []. cbn. now rewrite app_nil_r.
  - cbn [write_fifo_loop]. unfold bind at 1.
    destruct (mchp_corespi_read REG_STATUS m) as [st ms] eqn:Es.
    apply read_inv in Es as ((Ls & _) & _).
    destruct (Z.land st STATUS_TXFIFO_FULL =? 0); [|cbn; eauto].
    unfold bind at 1, get_spi at 1. unfold bind at 1.
    destruct (tx_buf (spi ms) =? 0).
    + cbn [ret]. unfold bind at 1.
      destruct (mchp_corespi_write REG_TX_DATA 170 ms) as [uw mw] eqn:Ew.
      apply write_inv in Ew as ((Lw & _) & _).
      destruct (IH (i + 1) mw) as (l & Hl).
      rewrite Hl, Lw, Ls, <- !app_assoc; eauto.
    + unfold load_byte, modify_spi, bind at 1.
      unfold bind at 1. cbn [ret]. unfold bind at 1.
      match goal with
      | |- context [mchp_corespi_write REG_TX_DATA ?b ?mq] =>
          destruct (mchp_corespi_write REG_TX_DATA b mq) as [uw mw] eqn:Ew
      end.
      apply write_inv in Ew as ((Lw & _) & _). cbn [log] in Lw.
      destruct (IH (i + 1) mw) as (l & Hl).
      rewrite Hl, Lw, Ls, <- !app_assoc; eauto.
Qed.

Lemma read_fifo_extends (m : machine HW) :
  exists l, log (snd (mchp_corespi_read_fifo m)) = log m ++ l.
Proof.
  unfold mchp_corespi_read_fifo, bind, get_spi, modify_spi.
  destruct (read_fifo_loop_extends
              (Z.to_nat (Z.min (rx_len (spi m)) FIFO_DEPTH)) 0 m) as (l & Hl).
  destruct (read_fifo_loop _ 0 m) as [i mi]. cbn in *. eauto.
Qed.

Lemma write_fifo_extends (m : machine HW) :
  exists l, log (snd (mchp_corespi_write_fifo m)) = log m ++ l.
Proof.
  unfold mchp_corespi_write_fifo.
  unfold bind at 1, get_spi at 1. unfold bind at 1.
  destruct (mchp_corespi_set_xfer_size _ m) as [ux mx] eqn:Ex.
  apply set_xfer_size_inv in Ex as (c0 & c1 & Lx & _).
  unfold bind, modify_spi.
  destruct (write_fifo_loop_extends
              (Z.to_nat (Z.min (tx_len (spi m)) FIFO_DEPTH)) 0 mx) as (l & Hl).
  destruct (write_fifo_loop _ 0 mx) as [i mi]. cbn in *.
  rewrite Hl, Lx, <- app_assoc. eauto.
Qed.

Lemma txdone_branch_extends (m : machine HW) :
  exists l, log (snd (txdone_branch m)) = log m ++ l.
Proof.
  unfold txdone_branch. unfold bind at 1.
  destruct (mchp_corespi_write REG_INT_CLEAR INT_TXDONE m) as [u1 ma] eqn:Ea.
  apply write_inv in Ea as ((La & _) & _).
  unfold bind at 1, get_spi at 1. unfold bind at 1.
  assert (exists lb, log (snd (when (negb (rx_len (spi ma) =? 0))
                                 mchp_corespi_read_fifo ma)) = log ma ++ lb)
    as (lb & Lb).
  { unfold when. destruct (negb _); [apply read_fifo_extends|].
    exists []. cbn. now rewrite app_nil_r. }
  destruct (when _ mchp_corespi_read_fifo ma) as [u2 mb]. cbn [snd] in Lb.
  unfold bind at 1, get_spi at 1. unfold bind at 1.
  assert (exists lc, log (snd (when (negb (tx_len (spi mb) =? 0))
                                 mchp_corespi_write_fifo mb)) = log mb ++ lc)
    as (lc & Lc).
  { unfold when. destruct (negb _); [apply write_fifo_extends|].
    exists []. cbn. now rewrite app_nil_r. }
  destruct (when _ mchp_corespi_write_fifo mb) as [u3 mc]. cbn [snd] in Lc.
  cbn. rewrite Lc, Lb, La, <- !app_assoc. eauto.
Qed.

End Fifo.

(** ** Absent buffers *)

Section AbsentBuffers.
Context {HW : Type} {io : Mmio HW}.

(** C7.  With no transmit buffer ([tx_buf] is [NULL]) every byte that
    [mchp_corespi_write_fifo] writes to [TX_DATA] is [0xaa], and [tx_len]
    goes down by the number of bytes written. *)
Theorem write_fifo_filler (m : machine HW) :
  tx_buf (spi m) = 0 -> int_range (tx_len (spi m)) ->
  let m' := snd (mchp_corespi_write_fifo m) in
  let pushed := tx_data_writes (new_events m m') in
  Forall (fun b => b = 0xaa) pushed
  /\ tx_len (spi m') = tx_len (spi m) - Z.of_nat (length pushed)
  /\ tx_buf (spi m') = 0.
Proof.
  intros Hnull Hr m' pushed.
  destruct (mchp_corespi_write_fifo m) as [u m1] eqn:E.
  apply write_fifo_inv in E; [|lia|assumption].
  destruct E as (c0 & c1 & l & Hl & Hk & Hm & Hd & Hc & Hs & Hw).
  subst m' pushed. cbn [snd].
  rewrite (new_events_app _ _ _ Hl), tx_data_writes_app.
  rewrite (fifo_quiet_tx _ (xfer_size_events_quiet _ _ _)). cbn [app].
  rewrite Hnull in *. cbn [Z.eqb] in *.
  split; [|split].
  - rewrite Hw. clear. induction (Z.to_nat (tx_count l)); cbn; auto.
  - rewrite Hs. reflexivity.
  - rewrite Hs. reflexivity.
Qed.

Lemma read_fifo_loop_io n : forall i (m1 m2 : machine HW),
  hw m1 = hw m2 -> log m1 = log m2 ->
  fst (read_fifo_loop n i m1) = fst (read_fifo_loop n i m2)
  /\ hw (snd (read_fifo_loop n i m1)) = hw (snd (read_fifo_loop n i m2))
  /\ log (snd (read_fifo_loop n i m1)) = log (snd (read_fifo_loop n i m2)).
Proof.
  induction n as [|n IH]; intros i m1 m2 Hh Hl.
  - cbn. auto.
  - cbn [read_fifo_loop].
    unfold bind, mchp_corespi_read, get_spi, store_byte, modify_spi, ret.
    rewrite Hh, Hl.
    destruct (readl (hw m2) REG_STATUS) as [st h].
    destruct (Z.land (u32 st) STATUS_RXFIFO_EMPTY =? 0); [|cbn; auto].
    cbn [hw log spi mem clk_rate].
    destruct (readl h REG_RX_DATA) as [v h'].
    cbn [hw log spi mem clk_rate].
    destruct (rx_buf (spi m1) =? 0), (rx_buf (spi m2) =? 0);
      cbn [hw log spi mem clk_rate];
      apply IH; reflexivity.
Qed.

(** C8.  With no receive buffer ([rx_buf] is [NULL])
    [mchp_corespi_read_fifo] leaves memory alone and writes no register,
    while [rx_len] and [pending] go down by the number of bytes read from
    [RX_DATA]; the register reads, and the state they leave the
    controller in, are those of the same call with a buffer present. *)
Theorem read_fifo_discards (m : machine HW) :
  rx_buf (spi m) = 0 -> int_range (rx_len (spi m)) ->
  INT_MIN + FIFO_DEPTH <= pending (spi m) <= INT_MAX ->
  let m' := snd (mchp_corespi_read_fifo m) in
  let n := rx_count (new_events m m') in
  mem m' = mem m
  /\ spi m' = set_pending (pending (spi m) - n) (set_rx_len (rx_len (spi m) - n) (spi m))
  /\ 0 <= n <= Z.max 0 (Z.min (rx_len (spi m)) FIFO_DEPTH)
  /\ existsb is_write (new_events m m') = false
  /\ forall a,
       let ma' := snd (mchp_corespi_read_fifo (with_rx_buf a m)) in
       hw ma' = hw m' /\ new_events (with_rx_buf a m) ma' = new_events m m'.
Proof.
  intros Hnull Hr Hp m' n.
  destruct (mchp_corespi_read_fifo m) as [u m1] eqn:E.
  pose proof E as E'.
  apply read_fifo_inv in E; [|lia|assumption].
  destruct E as (l & Hl & Hk & Hd & Hc & Hs & Hm).
  subst m' n. cbn [snd].
  rewrite (new_events_app _ _ _ Hl).
  rewrite Hnull in *. cbn [Z.eqb] in *.
  split; [assumption|]. split; [|split; [assumption|split]].
  - rewrite Hs. rewrite s32_small.
    + destruct (spi m); cbn in *. subst. reflexivity.
    + unfold int_range, INT_MIN, INT_MAX, FIFO_DEPTH in *. lia.
  - now apply drain_events_no_write.
  - intros a.
    unfold mchp_corespi_read_fifo, bind, get_spi, modify_spi in E' |- *.
    change (rx_len (spi (with_rx_buf a m))) with (rx_len (spi m)).
    pose proof (read_fifo_loop_io (Z.to_nat (Z.min (rx_len (spi m)) FIFO_DEPTH)) 0
                  (with_rx_buf a m) m eq_refl eq_refl) as (_ & Hh & Hlog).
    destruct (read_fifo_loop _ 0 (with_rx_buf a m)) as [ia ma1].
    destruct (read_fifo_loop _ 0 m) as [i0 m01].
    cbn [fst snd] in *.
    injection E' as _ E'. subst m1. cbn in *.
    split; [assumption|].
    unfold new_events. cbn. rewrite Hlog, Hl.
    rewrite skipn_app, skipn_all, Nat.sub_diag. reflexivity.
Qed.

End AbsentBuffers.

(** ** Chip select *)

Lemma u32_testbit x i : 0 <= i ->
  Z.testbit (u32 x) i = if i <? 32 then Z.testbit x i else false.
Proof.
  intros Hi. unfold u32. destruct (Z.ltb_spec i 32).
  - apply Z.mod_pow2_bits_low. lia.
  - apply Z.mod_pow2_bits_high. lia.
Qed.

Lemma ulong_testbit x i : 0 <= i ->
  Z.testbit (ulong x) i = if i <? 64 then Z.testbit x i else false.
Proof.
  intros Hi. unfold ulong. destruct (Z.ltb_spec i 64).
  - apply Z.mod_pow2_bits_low. lia.
  - apply Z.mod_pow2_bits_high. lia.
Qed.

Lemma s32_testbit_low x i : 0 <= i < 32 -> Z.testbit (s32 x) i = Z.testbit x i.
Proof.
  intros Hi.
  rewrite <- (Z.mod_pow2_bits_low (s32 x) 32 i) by lia.
  rewrite <- (Z.mod_pow2_bits_low x 32 i) by lia.
  f_equal. unfold s32.
  rewrite Zminus_mod_idemp_l. f_equal. lia.
Qed.

Lemma BIT_testbit n i : 0 <= n < 64 -> 0 <= i ->
  Z.testbit (BIT n) i = (n =? i).
Proof.
  intros Hn Hi. unfold BIT. rewrite Z.shiftl_1_l.
  rewrite ulong_testbit by lia.
  rewrite Z.pow2_bits_eqb by lia.
  destruct (Z.ltb_spec i 64); [reflexivity|].
  symmetry. apply Z.eqb_neq. lia.
Qed.

Lemma not64_testbit x i : 0 <= i < 64 ->
  Z.testbit (not64 x) i = negb (Z.testbit x i).
Proof.
  intros Hi. unfold not64. rewrite ulong_testbit by lia.
  destruct (Z.ltb_spec i 64); [|lia].
  apply Z.lnot_spec. lia.
Qed.

Section ChipSelect.
Context {HW : Type} {io : Mmio HW}.

(** C10.  For a chip-select index [cs] in [0, 31] and any [disable],
    [mchp_corespi_set_cs] reads [SLAVE_SELECT] once and writes it once;
    bit [cs] of the value written is [!disable] and every other bit is
    the bit of the value just read.  Nothing else is accessed or
    changed. *)
Theorem set_cs_frame (m : machine HW) (cs : Z) (disable : bool) :
  0 <= cs < 32 ->
  let m' := snd (mchp_corespi_set_cs cs disable m) in
  exists v w,
    new_events m m' = [MmioRead REG_SLAVE_SELECT v; MmioWrite REG_SLAVE_SELECT w]
    /\ v = u32 (fst (readl (hw m) REG_SLAVE_SELECT))
    /\ hw m' = writel (snd (readl (hw m) REG_SLAVE_SELECT)) REG_SLAVE_SELECT w
    /\ (forall i, 0 <= i ->
          Z.testbit w i = if i =? cs then negb disable else Z.testbit v i)
    /\ spi m' = spi m /\ mem m' = mem m.
Proof.
  intros Hcs m'. subst m'.
  unfold mchp_corespi_set_cs, bind.
  destruct (mchp_corespi_read REG_SLAVE_SELECT m) as [v m1] eqn:E1.
  apply read_inv in E1 as ((L1 & K1 & S1 & M1) & Hv & Ev & Hh).
  match goal with
  | |- context [mchp_corespi_write REG_SLAVE_SELECT ?x m1] =>
      set (w := x);
      destruct (mchp_corespi_write REG_SLAVE_SELECT w m1) as [u m2] eqn:E2
  end.
  apply write_inv in E2 as ((L2 & K2 & S2 & M2) & Hh2).
  cbn [snd]. exists v, w.
  assert (Ew : u32 w = w) by (subst w; apply u32_idem).
  rewrite Ew in *.
  split; [|split; [|split; [|split; [|split]]]]; try congruence.
  - apply new_events_app. rewrite L2, L1, <- app_assoc. reflexivity.
  - intros i Hi. subst w.
    rewrite u32_testbit by lia.
    destruct (Z.ltb_spec i 32) as [Hlt|Hge].
    + rewrite Z.lor_spec, u32_testbit by lia.
      destruct (Z.ltb_spec i 32); [|lia].
      rewrite Z.land_spec, not64_testbit by lia.
      rewrite BIT_testbit by lia.
      rewrite s32_testbit_low by lia.
      rewrite Z.shiftl_spec by lia.
      rewrite (Z.eqb_sym cs i).
      destruct (Z.eqb_spec i cs) as [->|Hne].
      * rewrite Z.sub_diag. cbn [negb]. rewrite andb_false_r. cbn [orb].
        destruct disable; reflexivity.
      * cbn [negb]. rewrite andb_true_r.
        destruct (Z.ltb_spec i cs).
        -- rewrite (Z.testbit_neg_r _ (i - cs)) by lia. apply orb_false_r.
        -- assert (Hb : Z.testbit (Z.b2z (negb disable)) (i - cs) = false).
           { destruct disable; cbn [negb Z.b2z].
             - apply Z.bits_0.
             - replace 1 with (2 ^ 0) by reflexivity.
               rewrite Z.pow2_bits_eqb by lia. apply Z.eqb_neq. lia. }
           rewrite Hb. apply orb_false_r.
    + destruct (Z.eqb_spec i cs); [lia|].
      symmetry. apply Z.bits_above_log2; [lia|].
      destruct (Z.eq_dec v 0) as [->|Hnz]; [cbn; lia|].
      assert (Z.log2 v < 32) by (apply Z.log2_lt_pow2; lia). lia.
Qed.

End ChipSelect.

(** ** The interrupt handler *)

Lemma irq_tail_quiet intfield s fin : fifo_quiet (irq_tail intfield s fin).
Proof.
  unfold irq_tail, fifo_quiet.
  destruct (Z.land intfield INT_RXRDY =? 0),
           (Z.land intfield INT_RX_CHANNEL_OVERFLOW =? 0),
           (Z.land intfield INT_TX_CHANNEL_UNDERRUN =? 0), fin; reflexivity.
Qed.

Lemma irq_tail_finalized intfield s fin :
  finalized (irq_tail intfield s fin)
  = fin || negb (Z.land intfield INT_RX_CHANNEL_OVERFLOW =? 0)
        || negb (Z.land intfield INT_TX_CHANNEL_UNDERRUN =? 0).
Proof.
  unfold irq_tail, finalized.
  destruct (Z.land intfield INT_RXRDY =? 0),
           (Z.land intfield INT_RX_CHANNEL_OVERFLOW =? 0),
           (Z.land intfield INT_TX_CHANNEL_UNDERRUN =? 0), fin; reflexivity.
Qed.

Section Interrupt.
Context {HW : Type} {io : Mmio HW}.

(** The handler is: read [MIS]; serve transfer-done; then [irq_tail]. *)
Lemma interrupt_decompose (m : machine HW) :
  forall mis m0,
  mchp_corespi_read REG_MIS m = (mis, m0) ->
  Z.land mis 0xf <> 0 ->
  forall fin m1,
  (if Z.land (Z.land mis 0xf) INT_TXDONE =? 0 then (false, m0)
   else txdone_branch m0) = (fin, m1) ->
  exists m',
    mchp_corespi_interrupt m = (IRQ_HANDLED, m')
    /\ mmio_only m1 m' (irq_tail (Z.land mis 0xf) (spi m1) fin)
    /\ hw m' = fold_left (fun h e => match e with
                                     | MmioWrite r v => writel h r v
                                     | _ => h
                                     end)
                         (irq_tail (Z.land mis 0xf) (spi m1) fin) (hw m1).
Proof.
  intros mis m0 E0 Hnz fin m1 E1.
  unfold mchp_corespi_interrupt. unfold bind at 1. rewrite E0.
  destruct (Z.eqb_spec (Z.land mis 15) 0) as [|_]; [contradiction|].
  unfold bind at 1.
  replace (if Z.land (Z.land mis 15) INT_TXDONE =? 0 then ret false else txdone_branch)
    with (fun mm : machine HW =>
            if Z.land (Z.land mis 15) INT_TXDONE =? 0 then (false, mm)
            else txdone_branch mm)
    by (destruct (Z.land (Z.land mis 15) INT_TXDONE =? 0); reflexivity).
  cbv beta. rewrite E1. clear E0 E1 m m0.
  unfold irq_tail, mmio_only.
  unfold bind, when, ret, emit, get_spi, mchp_corespi_write.
  destruct (Z.land (Z.land mis 15) INT_RXRDY =? 0),
           (Z.land (Z.land mis 15) INT_RX_CHANNEL_OVERFLOW =? 0),
           (Z.land (Z.land mis 15) INT_TX_CHANNEL_UNDERRUN =? 0), fin;
    cbn [negb orb app hw clk_rate spi mem log fold_left];
    eexists; (split; [reflexivity|]);
    cbn [hw clk_rate spi mem log]; rewrite <- ?app_assoc, ?app_nil_r; cbn [app];
    repeat split; reflexivity.
Qed.

(** The transfer-done branch on any controller. *)
Lemma txdone_branch_inv (m : machine HW) fin m' :
  wf_spi (spi m) ->
  txdone_branch m = (fin, m') ->
  exists ld lf,
    log m' = log m ++ [MmioWrite REG_INT_CLEAR INT_TXDONE] ++ ld ++ lf
    /\ clk_rate m' = clk_rate m
    /\ forallb is_drain_event ld = true
    /\ 0 <= rx_count ld <= Z.max 0 (Z.min (rx_len (spi m)) FIFO_DEPTH)
    /\ (rx_len (spi m) = 0 -> ld = [])
    /\ mem m' = (if rx_buf (spi m) =? 0 then mem m
                 else store_bytes (mem m) (rx_buf (spi m)) (map u8 (rx_data_reads ld)))
    /\ rx_data_reads lf = []
    /\ 0 <= tx_count lf <= Z.max 0 (Z.min (tx_len (spi m)) FIFO_DEPTH)
    /\ (tx_len (spi m) = 0 -> lf = [])
    /\ (tx_len (spi m) <> 0 ->
        exists c0 c1 lw,
          lf = xfer_size_events (Z.min (tx_len (spi m)) FIFO_DEPTH) c0 c1 ++ lw
          /\ forallb is_fill_event lw = true)
    /\ tx_data_writes lf =
         (if tx_buf (spi m) =? 0 then repeat 0xaa (Z.to_nat (tx_count lf))
          else map u8 (load_bytes (mem m') (tx_buf (spi m)) (Z.to_nat (tx_count lf))))
    /\ spi m' =
         Build_corespi
           (if tx_buf (spi m) =? 0 then 0 else tx_buf (spi m) + tx_count lf)
           (if rx_buf (spi m) =? 0 then 0 else rx_buf (spi m) + rx_count ld)
           (clk_gen (spi m)) (clk_mode (spi m))
           (tx_len (spi m) - tx_count lf)
           (rx_len (spi m) - rx_count ld)
           (s32 (s32 (pending (spi m) - rx_count ld) + tx_count lf))
    /\ fin = (rx_len (spi m) - rx_count ld =? 0).
Proof.
  intros (Wt & Wr & Wtl & Wrl & Wp) H.
  unfold txdone_branch in H. unfold bind at 1 in H.
  destruct (mchp_corespi_write REG_INT_CLEAR INT_TXDONE m) as [u0 m0] eqn:E0.
  apply write_inv in E0 as ((L0 & K0 & S0 & M0) & _).
  change (u32 INT_TXDONE) with INT_TXDONE in L0.
  unfold bind at 1, get_spi at 1 in H. unfold bind at 1 in H.
  (* drain *)
  assert (Hdrain : exists ld m1 u1,
    when (negb (rx_len (spi m0) =? 0)) mchp_corespi_read_fifo m0 = (u1, m1)
    /\ log m1 = log m0 ++ ld /\ clk_rate m1 = clk_rate m0
    /\ forallb is_drain_event ld = true
    /\ 0 <= rx_count ld <= Z.max 0 (Z.min (rx_len (spi m)) FIFO_DEPTH)
    /\ (rx_len (spi m) = 0 -> ld = [])
    /\ mem m1 = (if rx_buf (spi m) =? 0 then mem m
                 else store_bytes (mem m) (rx_buf (spi m)) (map u8 (rx_data_reads ld)))
    /\ spi m1 = Build_corespi (tx_buf (spi m))
                  (if rx_buf (spi m) =? 0 then 0 else rx_buf (spi m) + rx_count ld)
                  (clk_gen (spi m)) (clk_mode (spi m)) (tx_len (spi m))
                  (rx_len (spi m) - rx_count ld)
                  (s32 (pending (spi m) - rx_count ld))).
  { rewrite S0. destruct (Z.eqb_spec (rx_len (spi m)) 0) as [Ez|Enz]; cbn [negb when].
    - exists [], m0, tt. rewrite app_nil_r, Ez, M0, S0. cbn.
      repeat split; try lia; auto.
      + now destruct (rx_buf (spi m) =? 0).
      + rewrite Z.sub_0_r, Z.add_0_r, s32_small by assumption.
        destruct (spi m); cbn in *. subst.
        now destruct (rx_buf0 =? 0) eqn:E; [apply Z.eqb_eq in E; subst|].
    - destruct (mchp_corespi_read_fifo m0) as [u1 m1] eqn:E1.
      apply read_fifo_inv in E1; [|rewrite S0; assumption..].
      destruct E1 as (l & Hl & Hk & Hd & Hc & Hs & Hm).
      rewrite S0, M0 in *.
      exists l, m1, u1. repeat split; try assumption; try lia. }
  destruct Hdrain as (ld & m1 & u1 & E1 & L1 & K1 & D1 & C1 & Z1 & M1 & S1).
  rewrite E1 in H. clear E1.
  unfold bind at 1, get_spi at 1 in H. unfold bind at 1 in H.
  (* fill *)
  assert (Hfill : exists lf m2 u2,
    when (negb (tx_len (spi m1) =? 0)) mchp_corespi_write_fifo m1 = (u2, m2)
    /\ log m2 = log m1 ++ lf /\ clk_rate m2 = clk_rate m1 /\ mem m2 = mem m1
    /\ rx_data_reads lf = []
    /\ 0 <= tx_count lf <= Z.max 0 (Z.min (tx_len (spi m)) FIFO_DEPTH)
    /\ (tx_len (spi m) = 0 -> lf = [])
    /\ (tx_len (spi m) <> 0 ->
        exists c0 c1 lw,
          lf = xfer_size_events (Z.min (tx_len (spi m)) FIFO_DEPTH) c0 c1 ++ lw
          /\ forallb is_fill_event lw = true)
    /\ tx_data_writes lf =
         (if tx_buf (spi m) =? 0 then repeat 0xaa (Z.to_nat (tx_count lf))
          else map u8 (load_bytes (mem m1) (tx_buf (spi m)) (Z.to_nat (tx_count lf))))
    /\ spi m2 = Build_corespi
                  (if tx_buf (spi m) =? 0 then 0 else tx_buf (spi m) + tx_count lf)
                  (rx_buf (spi m1)) (clk_gen (spi m)) (clk_mode (spi m))
                  (tx_len (spi m) - tx_count lf) (rx_len (spi m1))
                  (s32 (pending (spi m1) + tx_count lf))).
  { assert (Et : tx_len (spi m1) = tx_len (spi m)) by (rewrite S1; reflexivity).
    assert (Eb : tx_buf (spi m1) = tx_buf (spi m)) by (rewrite S1; reflexivity).
    rewrite Et.
    destruct (Z.eqb_spec (tx_len (spi m)) 0) as [Ez|Enz]; cbn [negb when].
    - exists [], m1, tt. rewrite app_nil_r, Ez. cbn.
      repeat split; try lia; auto.
      + now destruct (tx_buf (spi m) =? 0).
      + rewrite ?Z.sub_0_r, ?Z.add_0_r, s32_small.
        * rewrite S1. cbn. f_equal; [|lia].
          now destruct (tx_buf (spi m) =? 0) eqn:E; [apply Z.eqb_eq in E|].
        * rewrite S1. cbn. unfold s32, int_range, INT_MIN, INT_MAX.
          pose proof (Z.mod_pos_bound (pending (spi m) - rx_count ld + 2 ^ 31)
                        (2 ^ 32) eq_refl). lia.
    - destruct (mchp_corespi_write_fifo m1) as [u2 m2] eqn:E2.
      apply write_fifo_inv in E2; [|rewrite Eb; assumption|rewrite Et; assumption].
      destruct E2 as (c0 & c1 & lw & Hl & Hk & Hm & Hd & Hc & Hs & Hw).
      rewrite Et, Eb in *.
      assert (Hq : tx_count (xfer_size_events (Z.min (tx_len (spi m)) FIFO_DEPTH) c0 c1 ++ lw)
                   = tx_count lw).
      { rewrite tx_count_app. unfold tx_count at 1.
        rewrite (fifo_quiet_tx _ (xfer_size_events_quiet (Z.min (tx_len (spi m)) FIFO_DEPTH) c0 c1)). reflexivity. }
      exists (xfer_size_events (Z.min (tx_len (spi m)) FIFO_DEPTH) c0 c1 ++ lw), m2, u2.
      rewrite Hq.
      repeat split; try assumption; try lia.
      + rewrite rx_data_reads_app, (fill_events_no_rx _ Hd).
        rewrite (fifo_quiet_rx _ (xfer_size_events_quiet (Z.min (tx_len (spi m)) FIFO_DEPTH) c0 c1)). reflexivity.
      + intros _. exists c0, c1, lw. auto.
      + rewrite Hs, S1. reflexivity. }
  destruct Hfill as (lf & m2 & u2 & E2 & L2 & K2 & M2 & R2 & C2 & Z2 & X2 & W2 & S2).
  rewrite E2 in H. clear E2.
  unfold bind, get_spi, ret in H. injection H as Hfin Hm'. subst m'.
  exists ld, lf.
  repeat split; try assumption; try lia; try congruence.
  - rewrite L2, L1, L0, <- !app_assoc. reflexivity.
  - rewrite M2. exact W2.
  - rewrite S2, S1. reflexivity.
  - rewrite <- Hfin, S2, S1. reflexivity.
Qed.

End Interrupt.

(** ** The frame count field *)

Lemma framecnt_mask_testbit i : 0 <= i ->
  Z.testbit CONTROL_FRAMECNT_MASK i = (8 <=? i) && (i <? 24).
Proof.
  intros Hi.
  change CONTROL_FRAMECNT_MASK with (Z.shiftl (Z.ones 16) 8).
  rewrite Z.shiftl_spec by lia.
  destruct (Z.leb_spec 8 i); cbn [andb].
  - destruct (Z.ltb_spec i 24).
    + apply Z.ones_spec_low. lia.
    + apply Z.ones_spec_high. lia.
  - apply Z.testbit_neg_r. lia.
Qed.

Lemma small_bits_high len i : 0 <= len < 2 ^ 16 -> 16 <= i -> Z.testbit len i = false.
Proof.
  intros Hl Hi. destruct (Z.eq_dec len 0) as [->|Hnz]; [apply Z.bits_0|].
  apply Z.bits_above_log2; [lia|].
  assert (Z.log2 len < 16) by (apply Z.log2_lt_pow2; lia). lia.
Qed.

(** For a length that fits 16 bits, [mchp_corespi_set_xfer_size] puts
    the length in the frame count field of [CONTROL] and writes 0 to
    [FRAMESUP]. *)
Lemma xfer_size_framecnt len c1 :
  0 <= len <= MAX_LEN ->
  framecnt (xfer_size_control len c1) = len
  /\ u16 (Z.land len 0xffff0000) = 0.
Proof.
  intros Hl. unfold MAX_LEN in Hl.
  assert (Hl' : 0 <= len < 2 ^ 16) by (change (2 ^ 16) with 65536; lia).
  assert (Hlow : Z.land len 0xffff = len).
  { change 0xffff with (Z.ones 16). rewrite Z.land_ones by lia.
    now apply Z.mod_small. }
  split.
  - unfold framecnt, xfer_size_control, CONTROL_FRAMECNT_SHIFT. rewrite Hlow.
    unfold u16 at 1. rewrite (Z.mod_small len) by assumption.
    apply Z.bits_inj'. intros i Hi.
    rewrite Z.land_spec, Z.shiftr_spec by lia.
    change 65535 with (Z.ones 16).
    destruct (Z.ltb_spec i 16) as [Hlt|Hge].
    + rewrite Z.ones_spec_low, andb_true_r by lia.
      rewrite u32_testbit by lia.
      destruct (Z.ltb_spec (i + 8) 32); [|lia].
      rewrite Z.lor_spec, u32_testbit by lia.
      destruct (Z.ltb_spec (i + 8) 32); [|lia].
      rewrite Z.land_spec, not64_testbit, framecnt_mask_testbit by lia.
      destruct (Z.leb_spec 8 (i + 8)); [|lia].
      destruct (Z.ltb_spec (i + 8) 24); [|lia].
      cbn [andb negb]. rewrite andb_false_r. cbn [orb].
      rewrite Z.shiftl_spec by lia. f_equal. lia.
    + rewrite Z.ones_spec_high, andb_false_r by lia.
      now rewrite small_bits_high.
  - assert (E : Z.land len 4294901760 = 0).
    { apply Z.bits_inj'. intros i Hi. rewrite Z.land_spec, Z.bits_0.
      change 4294901760 with (Z.shiftl (Z.ones 16) 16).
      destruct (Z.ltb_spec i 16).
      - rewrite Z.shiftl_spec_low by lia. apply andb_false_r.
      - now rewrite small_bits_high. }
    rewrite E. reflexivity.
Qed.

Lemma land_pow2 x n : 0 <= n ->
  Z.land x (2 ^ n) = if Z.testbit x n then 2 ^ n else 0.
Proof.
  intros Hn. apply Z.bits_inj'. intros i Hi.
  rewrite Z.land_spec, Z.pow2_bits_eqb by lia.
  destruct (Z.eqb_spec n i) as [->|Hne].
  - rewrite andb_true_r. destruct (Z.testbit x i) eqn:E.
    + rewrite Z.pow2_bits_eqb by lia. symmetry. apply Z.eqb_refl.
    + symmetry. apply Z.bits_0.
  - rewrite andb_false_r. destruct (Z.testbit x n).
    + rewrite Z.pow2_bits_eqb by lia. symmetry. now apply Z.eqb_neq.
    + symmetry. apply Z.bits_0.
Qed.

Section Handler.
Context {HW : Type} {io : Mmio HW}.

Lemma pending_causes_read (m : machine HW) mis m0 :
  mchp_corespi_read REG_MIS m = (mis, m0) ->
  Z.land mis 0xf = pending_causes m.
Proof.
  intros E. apply read_inv in E as (_ & _ & -> & _). reflexivity.
Qed.

(** C2, as amended.  When the receive-overflow or the transmit-underrun
    cause is raised, the handler returns [IRQ_HANDLED] and the last thing
    it does is [spi_finalize_current_transfer], whatever [tx_len] and
    [rx_len] are; each raised fault cause is cleared in [INT_CLEAR] and
    reported through [dev_err].  When the transfer-done cause is not
    raised with it, the handler touches neither FIFO data register and
    changes neither the driver state nor memory. *)
Theorem interrupt_fault (m : machine HW) :
  Z.land (pending_causes m) fault_causes <> 0 ->
  let m' := snd (mchp_corespi_interrupt m) in
  let c := pending_causes m in
  fst (mchp_corespi_interrupt m) = IRQ_HANDLED
  /\ (exists l, new_events m m' = l ++ [FinalizeCurrentTransfer])
  /\ (Z.land c INT_RX_CHANNEL_OVERFLOW <> 0 ->
      In (MmioWrite REG_INT_CLEAR INT_RX_CHANNEL_OVERFLOW) (new_events m m')
      /\ In (DevErr (RxOverflow (rx_len (spi m')) (tx_len (spi m')))) (new_events m m'))
  /\ (Z.land c INT_TX_CHANNEL_UNDERRUN <> 0 ->
      In (MmioWrite REG_INT_CLEAR INT_TX_CHANNEL_UNDERRUN) (new_events m m')
      /\ In (DevErr (TxUnderflow (rx_len (spi m')) (tx_len (spi m')))) (new_events m m'))
  /\ (Z.land c INT_TXDONE = 0 ->
      fifo_quiet (new_events m m') /\ spi m' = spi m /\ mem m' = mem m).
Proof.
  intros Hf m' c. subst m' c.
  destruct (mchp_corespi_read REG_MIS m) as [mis m0] eqn:E0.
  pose proof (pending_causes_read _ _ _ E0) as Hc.
  assert (Hnz : Z.land mis 0xf <> 0).
  { rewrite Hc. intros Ez. rewrite Ez in Hf. now apply Hf. }
  destruct (if Z.land (Z.land mis 0xf) INT_TXDONE =? 0 then (false, m0)
            else txdone_branch m0) as [fin m1] eqn:E1.
  destruct (interrupt_decompose m mis m0 E0 Hnz fin m1 E1)
    as (m' & Ei & (Lt & Kt & St & Mt) & _).
  rewrite Ei. cbn [fst snd]. rewrite Hc in *.
  apply read_inv in E0 as ((L0 & K0 & S0 & M0) & _).
  (* the fault bits *)
  assert (Hbits : Z.land (pending_causes m) INT_RX_CHANNEL_OVERFLOW <> 0
                  \/ Z.land (pending_causes m) INT_TX_CHANNEL_UNDERRUN <> 0).
  { destruct (Z.eq_dec (Z.land (pending_causes m) INT_RX_CHANNEL_OVERFLOW) 0) as [Ea|Ea];
      [|now left].
    destruct (Z.eq_dec (Z.land (pending_causes m) INT_TX_CHANNEL_UNDERRUN) 0) as [Eb|Eb];
      [|now right].
    exfalso. apply Hf. unfold fault_causes.
    rewrite Z.land_lor_distr_r, Ea, Eb. reflexivity. }
  (* the log of the handler ends with the tail *)
  assert (Hlog : exists lt, log m1 = log m ++ lt
                            /\ (Z.land (pending_causes m) INT_TXDONE = 0 ->
                                fifo_quiet lt /\ spi m1 = spi m /\ mem m1 = mem m)).
  { destruct (Z.eqb_spec (Z.land (pending_causes m) INT_TXDONE) 0) as [Ez|Enz].
    - injection E1 as _ <-. exists [MmioRead REG_MIS mis]. split; [assumption|].
      intros _. repeat split; congruence.
    - destruct (txdone_branch_extends m0) as (lx & Lx).
      rewrite E1 in Lx. cbn [snd] in Lx.
      exists ([MmioRead REG_MIS mis] ++ lx). split.
      + rewrite Lx, L0, <- app_assoc. reflexivity.
      + intros; contradiction. }
  destruct Hlog as (lt & Hlt & Hq).
  assert (Hnew : new_events m m' = lt ++ irq_tail (pending_causes m) (spi m1) fin).
  { apply new_events_app. rewrite Lt, Hlt, <- app_assoc. reflexivity. }
  rewrite Hnew, St.
  split; [reflexivity|].
  split; [|split; [|split]].
  - (* ends with finalise *)
    unfold irq_tail.
    assert (Hfin : fin || negb (Z.land (pending_causes m) INT_RX_CHANNEL_OVERFLOW =? 0)
                       || negb (Z.land (pending_causes m) INT_TX_CHANNEL_UNDERRUN =? 0)
                   = true).
    { destruct Hbits as [Hb|Hb]; apply Z.eqb_neq in Hb; rewrite Hb; cbn;
        now rewrite ?orb_true_r. }
    rewrite Hfin. rewrite !app_assoc. eauto.
  - intros Hb. apply Z.eqb_neq in Hb. unfold irq_tail. rewrite Hb.
    split; apply in_or_app; right; apply in_or_app; right;
      apply in_or_app; left; cbn; auto.
  - intros Hb. apply Z.eqb_neq in Hb. unfold irq_tail. rewrite Hb.
    split; apply in_or_app; right; apply in_or_app; right;
      apply in_or_app; right; apply in_or_app; left; cbn; auto.
  - intros Hz. destruct (Hq Hz) as (Q1 & Q2 & Q3).
    repeat split; try congruence.
    apply fifo_quiet_app; [assumption|apply irq_tail_quiet].
Qed.

(** C3, as amended.  On an interrupt that carries the transfer-done
    cause the handler reads [MIS], clears the cause, then drains: it reads
    only [STATUS] and [RX_DATA], at most [min(rx_len, FIFO_DEPTH)] bytes,
    which go to consecutive addresses of the receive buffer when there is
    one and nowhere otherwise.  Then, if [tx_len] is not zero, it programs
    the frame count with [min(tx_len, FIFO_DEPTH)] and fills: it reads
    only [STATUS] and writes only [TX_DATA], at most
    [min(tx_len, FIFO_DEPTH)] bytes, taken from the transmit buffer or
    [0xaa].  It finalises the transfer exactly when [rx_len] is then zero
    or a fault cause is raised in the same interrupt. *)
Theorem interrupt_txdone (m : machine HW) :
  wf_spi (spi m) ->
  Z.land (pending_causes m) INT_TXDONE <> 0 ->
  let m' := snd (mchp_corespi_interrupt m) in
  fst (mchp_corespi_interrupt m) = IRQ_HANDLED
  /\ exists mis ld lf,
       new_events m m'
       = [MmioRead REG_MIS mis; MmioWrite REG_INT_CLEAR INT_TXDONE]
         ++ ld ++ lf
         ++ irq_tail (pending_causes m) (spi m') (rx_len (spi m') =? 0)
       (* drain *)
       /\ forallb is_drain_event ld = true
       /\ 0 <= rx_count ld <= Z.max 0 (Z.min (rx_len (spi m)) FIFO_DEPTH)
       /\ (rx_len (spi m) = 0 -> ld = [])
       /\ rx_len (spi m') = rx_len (spi m) - rx_count ld
       /\ mem m' = (if rx_buf (spi m) =? 0 then mem m
                    else store_bytes (mem m) (rx_buf (spi m))
                                     (map u8 (rx_data_reads ld)))
       (* fill *)
       /\ (tx_len (spi m) = 0 -> lf = [])
       /\ (tx_len (spi m) <> 0 ->
           exists c0 c1 lw,
             lf = xfer_size_events (Z.min (tx_len (spi m)) FIFO_DEPTH) c0 c1 ++ lw
             /\ forallb is_fill_event lw = true
             /\ (0 < tx_len (spi m) ->
                 framecnt (xfer_size_control (Z.min (tx_len (spi m)) FIFO_DEPTH) c1)
                 = Z.min (tx_len (spi m)) FIFO_DEPTH))
       /\ 0 <= tx_count lf <= Z.max 0 (Z.min (tx_len (spi m)) FIFO_DEPTH)
       /\ tx_len (spi m') = tx_len (spi m) - tx_count lf
       /\ tx_data_writes lf =
            (if tx_buf (spi m) =? 0 then repeat 0xaa (Z.to_nat (tx_count lf))
             else map u8 (load_bytes (mem m') (tx_buf (spi m))
                                     (Z.to_nat (tx_count lf))))
       (* finalise *)
       /\ finalized (new_events m m')
          = (rx_len (spi m') =? 0)
            || negb (Z.land (pending_causes m) fault_causes =? 0).
Proof.
  intros Hwf Htx m'. subst m'.
  destruct (mchp_corespi_read REG_MIS m) as [mis m0] eqn:E0.
  pose proof (pending_causes_read _ _ _ E0) as Hc.
  assert (Hnz : Z.land mis 0xf <> 0).
  { rewrite Hc. intros Ez. rewrite Ez in Htx. now apply Htx. }
  destruct (if Z.land (Z.land mis 0xf) INT_TXDONE =? 0 then (false, m0)
            else txdone_branch m0) as [fin m1] eqn:E1.
  destruct (interrupt_decompose m mis m0 E0 Hnz fin m1 E1)
    as (m' & Ei & (Lt & Kt & St & Mt) & _).
  rewrite Ei. cbn [fst snd]. rewrite Hc in *.
  apply read_inv in E0 as ((L0 & K0 & S0 & M0) & _).
  destruct (Z.eqb_spec (Z.land (pending_causes m) INT_TXDONE) 0) as [|_];
    [contradiction|].
  apply txdone_branch_inv in E1; [|rewrite S0; assumption].
  destruct E1 as (ld & lf & L1 & K1 & D1 & C1 & Z1 & M1 & R1 & C2 & Z2 & X2 & W2 & S1 & F1).
  rewrite S0, M0 in *.
  split; [reflexivity|].
  exists mis, ld, lf.
  assert (Erx : rx_len (spi m') = rx_len (spi m) - rx_count ld)
    by (rewrite St, S1; reflexivity).
  assert (Etx : tx_len (spi m') = tx_len (spi m) - tx_count lf)
    by (rewrite St, S1; reflexivity).
  assert (Hnew : new_events m m'
                 = [MmioRead REG_MIS mis; MmioWrite REG_INT_CLEAR INT_TXDONE]
                     ++ ld ++ lf
                     ++ irq_tail (pending_causes m) (spi m') (rx_len (spi m') =? 0)).
  { apply new_events_app. rewrite Erx, St, Lt, L1, L0, F1, <- !app_assoc.
    reflexivity. }
  rewrite Hnew.
  split; [reflexivity|].
  repeat (split; [first [assumption | congruence]|]).
  split.
  { intros Hne. destruct (X2 Hne) as (c0 & c1 & lw & -> & Hfill).
    exists c0, c1, lw. repeat split; try assumption.
    intros Hpos. apply xfer_size_framecnt.
    unfold MAX_LEN, FIFO_DEPTH. lia. }
  repeat (split; [first [assumption | congruence]|]).
  split; [rewrite Mt; exact W2|].
  (* finalise *)
  unfold finalized. rewrite !existsb_app.
  change (existsb is_finalize [MmioRead REG_MIS mis; MmioWrite REG_INT_CLEAR INT_TXDONE])
    with false.
  assert (Hd : existsb is_finalize ld = false).
  { clear - D1. induction ld as [|e l IH]; [reflexivity|].
    cbn [forallb] in D1. apply andb_prop in D1 as [He Hl].
    destruct e; cbn in *; auto; discriminate. }
  assert (Hf : existsb is_finalize lf = false).
  { destruct (Z.eq_dec (tx_len (spi m)) 0) as [Ez|Ene].
    - now rewrite (Z2 Ez).
    - destruct (X2 Ene) as (c0 & c1 & lw & -> & Hfill).
      rewrite existsb_app. change (existsb is_finalize (xfer_size_events _ c0 c1)) with false.
      clear - Hfill. induction lw as [|e l IH]; [reflexivity|].
      cbn [forallb] in Hfill. apply andb_prop in Hfill as [He Hl].
      destruct e; cbn in *; auto; discriminate. }
  rewrite Hd, Hf. cbn [orb].
  pose proof (irq_tail_finalized (pending_causes m) (spi m') (rx_len (spi m') =? 0)) as Ht.
  unfold finalized in Ht. rewrite Ht. rewrite <- orb_assoc. f_equal.
  unfold fault_causes. rewrite Z.land_lor_distr_r.
  (* single-bit masks *)
  assert (Ha : Z.land (pending_causes m) INT_RX_CHANNEL_OVERFLOW = 0
               \/ Z.land (pending_causes m) INT_RX_CHANNEL_OVERFLOW = 4).
  { change INT_RX_CHANNEL_OVERFLOW with (2 ^ 2).
    rewrite land_pow2 by lia.
    destruct (Z.testbit (pending_causes m) 2); auto. }
  assert (Hb : Z.land (pending_causes m) INT_TX_CHANNEL_UNDERRUN = 0
               \/ Z.land (pending_causes m) INT_TX_CHANNEL_UNDERRUN = 8).
  { change INT_TX_CHANNEL_UNDERRUN with (2 ^ 3).
    rewrite land_pow2 by lia.
    destruct (Z.testbit (pending_causes m) 3); auto. }
  destruct Ha as [-> | ->], Hb as [-> | ->]; reflexivity.
Qed.

End Handler.

(** ** Submitting a transfer *)

Section TransferOne.
Context {HW : Type} {io : Mmio HW}.

(** [mchp_corespi_transfer_one] is the divider computation followed by
    [dev_err] or by the start of the transfer. *)
Lemma transfer_one_unfold (xfer : spi_transfer) (m : machine HW) :
  mchp_corespi_transfer_one xfer m =
  match mchp_corespi_calculate_clkgen (clk_rate m) (spi m) (u32 (xfer_speed_hz xfer)) with
  | None => None
  | Some (r, s') =>
      if r =? 0
      then Some (transfer_one_start xfer
                   (Build_machine (hw m) (clk_rate m) s' (mem m) (log m)))
      else Some (r, Build_machine (hw m) (clk_rate m) s' (mem m)
                      (log m ++ [DevErr (ClkGenFailed (xfer_speed_hz xfer))]))
  end.
Proof. reflexivity. Qed.

(** The divider computation only changes [clk_gen] and [clk_mode], and
    returns 0 or [-EINVAL]. *)
Lemma calculate_clkgen_frame clk s t r s' :
  mchp_corespi_calculate_clkgen clk s t = Some (r, s') ->
  (r = 0 \/ (r = - EINVAL /\ s' = s))
  /\ tx_buf s' = tx_buf s /\ rx_buf s' = rx_buf s
  /\ tx_len s' = tx_len s /\ rx_len s' = rx_len s /\ pending s' = pending s.
Proof.
  unfold mchp_corespi_calculate_clkgen.
  destruct (clk =? 0); [intros H; injection H as <- <-; auto 10|].
  destruct (DIV_ROUND_UP clk (ulong (2 * Z.min t clk))) as [q1|]; [|discriminate].
  cbn [obind].
  destruct (_ || _).
  - destruct (DIV_ROUND_UP clk (Z.min t clk)) as [q0|]; [|discriminate].
    cbn [obind]. destruct (_ >? _); intros H; injection H as <- <-; cbn; auto 10.
  - intros H; injection H as <- <-; cbn; auto 10.
Qed.

(** The start of a transfer: the divider is programmed, the session
    fields are set from the transfer, the frame count is programmed, and
    the first chunk is pushed. *)
Lemma transfer_one_start_inv (xfer : spi_transfer) (m : machine HW) r m' :
  0 <= xfer_tx_buf xfer -> 0 <= xfer_rx_buf xfer ->
  0 <= xfer_len xfer <= INT_MAX ->
  transfer_one_start xfer m = (r, m') ->
  r = 1
  /\ exists lq lf,
       log m' = log m ++ lq ++ lf
       /\ clk_rate m' = clk_rate m /\ mem m' = mem m
       /\ fifo_quiet lq
       /\ rx_data_reads lf = []
       /\ (xfer_len xfer = 0 -> lf = [])
       /\ 0 <= tx_count lf <= Z.min (xfer_len xfer) FIFO_DEPTH
       /\ tx_data_writes lf =
            (if xfer_tx_buf xfer =? 0 then repeat 0xaa (Z.to_nat (tx_count lf))
             else map u8 (load_bytes (mem m) (xfer_tx_buf xfer)
                                     (Z.to_nat (tx_count lf))))
       /\ spi m' =
            Build_corespi
              (if xfer_tx_buf xfer =? 0 then 0 else xfer_tx_buf xfer + tx_count lf)
              (xfer_rx_buf xfer) (clk_gen (spi m)) (clk_mode (spi m))
              (xfer_len xfer - tx_count lf) (xfer_len xfer) (tx_count lf).
Proof.
  intros Ht Hr Hl H. unfold transfer_one_start in H.
  assert (Hlen : s32 (xfer_len xfer) = xfer_len xfer).
  { apply s32_small. unfold int_range, INT_MIN, INT_MAX in *. lia. }
  unfold bind at 1 in H.
  destruct (mchp_corespi_set_clk_gen m) as [u0 m0] eqn:E0.
  apply set_clk_gen_inv in E0 as (l0 & (L0 & K0 & S0 & M0) & Q0).
  unfold modify_spi at 1 2 3 4 5 in H. unfold bind at 1 2 3 4 5 in H.
  unfold bind at 1, get_spi at 1 in H. cbn [spi hw clk_rate mem log] in H.
  unfold bind at 1 in H.
  match type of H with
  | context [mchp_corespi_set_xfer_size ?len ?mm] =>
      destruct (mchp_corespi_set_xfer_size len mm) as [u1 m1] eqn:E1
  end.
  apply set_xfer_size_inv in E1 as (c0 & c1 & L1 & K1 & S1 & M1).
  cbn [spi hw clk_rate mem log] in *.
  unfold bind at 1, get_spi at 1 in H. unfold bind at 1 in H.
  rewrite S1, Hlen in *. cbn [tx_len set_tx_len set_rx_len set_pending] in H.
  destruct (Z.eqb_spec (xfer_len xfer) 0) as [Ez|Enz]; cbn [negb when ret] in H.
  - injection H as <- <-. split; [reflexivity|].
    eexists (l0 ++ xfer_size_events _ c0 c1), [].
    rewrite app_nil_r, Ez in *. cbn.
    repeat split; try lia; try congruence.
    + rewrite L1, L0, <- app_assoc. reflexivity.
    + apply fifo_quiet_app; [assumption|apply xfer_size_events_quiet].
    + now destruct (xfer_tx_buf xfer =? 0).
    + rewrite S1, S0. unfold set_tx_buf, set_rx_buf, set_tx_len, set_rx_len, set_pending.
      cbn. f_equal.
      destruct (Z.eqb_spec (xfer_tx_buf xfer) 0); lia.
  - destruct (mchp_corespi_write_fifo m1) as [u2 m2] eqn:E2.
    injection H as <- <-. split; [reflexivity|].
    apply write_fifo_inv in E2;
      [|rewrite S1; cbn; assumption
       |rewrite S1; cbn; unfold int_range, INT_MIN, INT_MAX in *; lia].
    destruct E2 as (d0 & d1 & lw & Hlw & Hk & Hm & Hd & Hc & Hs & Hw).
    rewrite S1 in *.
    cbn [tx_len tx_buf pending set_tx_buf set_rx_buf set_tx_len set_rx_len set_pending] in *.
    assert (Hq : tx_count (xfer_size_events (Z.min (xfer_len xfer) FIFO_DEPTH) d0 d1 ++ lw)
                 = tx_count lw).
    { rewrite tx_count_app. unfold tx_count at 1.
      rewrite (fifo_quiet_tx _ (xfer_size_events_quiet
                                  (Z.min (xfer_len xfer) FIFO_DEPTH) d0 d1)).
      reflexivity. }
    eexists (l0 ++ xfer_size_events _ c0 c1),
            (xfer_size_events (Z.min (xfer_len xfer) FIFO_DEPTH) d0 d1 ++ lw).
    rewrite Hq.
    repeat split; try lia; try congruence.
    + rewrite Hlw, L1, L0, <- !app_assoc. reflexivity.
    + apply fifo_quiet_app; [assumption|apply xfer_size_events_quiet].
    + rewrite rx_data_reads_app, (fill_events_no_rx _ Hd).
      rewrite (fifo_quiet_rx _ (xfer_size_events_quiet
                                  (Z.min (xfer_len xfer) FIFO_DEPTH) d0 d1)).
      reflexivity.
    + unfold FIFO_DEPTH in *. lia.
    + rewrite tx_data_writes_app.
      rewrite (fifo_quiet_tx _ (xfer_size_events_quiet
                                  (Z.min (xfer_len xfer) FIFO_DEPTH) d0 d1)).
      cbn [app]. rewrite Hw, M1, M0. reflexivity.
    + rewrite Hs, S0.
      unfold set_tx_buf, set_rx_buf, set_tx_len, set_rx_len, set_pending. cbn.
      f_equal. apply s32_small.
      unfold int_range, INT_MIN, INT_MAX, FIFO_DEPTH in *. lia.
Qed.

(** C4.  When the target rate is below what the largest divider of
    either clock mode gives, [mchp_corespi_transfer_one] returns
    [-EINVAL] at once; the controller, the driver structure and memory
    are untouched and no register is accessed: the only effect is the
    [dev_err] message. *)
Theorem transfer_one_clock_unattainable (xfer : spi_transfer) (m : machine HW) :
  0 < xfer_speed_hz xfer < 2 ^ 32 -> clk_rate m < 2 ^ 32 ->
  clk_divisor 0 CLK_GEN_MODE0_MAX * xfer_speed_hz xfer < clk_rate m ->
  clk_divisor 1 CLK_GEN_MODE1_MAX * xfer_speed_hz xfer < clk_rate m ->
  mchp_corespi_transfer_one xfer m =
  Some (- EINVAL,
        Build_machine (hw m) (clk_rate m) (spi m) (mem m)
                      (log m ++ [DevErr (ClkGenFailed (xfer_speed_hz xfer))])).
Proof.
  intros Ht Hc H0 H1. rewrite transfer_one_unfold.
  rewrite u32_small by lia.
  change (clk_divisor 0 CLK_GEN_MODE0_MAX) with 65536 in H0.
  change (clk_divisor 1 CLK_GEN_MODE1_MAX) with 511 in H1.
  rewrite calculate_clkgen_unfold by lia. cbv zeta.
  pose proof (clkgen_mode1_spec (clk_rate m) (xfer_speed_hz xfer) ltac:(lia) ltac:(lia))
    as (H1a & H1b & H1c).
  pose proof (clkgen_mode0_le15 (clk_rate m) (xfer_speed_hz xfer) ltac:(lia) ltac:(lia))
    as H15.
  unfold CLK_GEN_MODE1_MAX, CLK_GEN_MIN, CLK_GEN_MODE0_MAX in *.
  destruct (Z.gtb_spec (clkgen_mode1 (clk_rate m) (xfer_speed_hz xfer)) 255) as [_|Hle];
    [|exfalso; nia].
  cbn [orb].
  destruct (Z.gtb_spec (clkgen_mode0 (clk_rate m) (xfer_speed_hz xfer)) 15) as [_|Hle];
    [|exfalso; apply H15 in Hle; lia].
  reflexivity.
Qed.

End TransferOne.

(** ** Zero-length transfers *)

Section ZeroLength.
Context {HW : Type} {io : Mmio HW}.

Lemma on_hw_log (f : HW -> HW) (m : machine HW) : log (on_hw f m) = log m.
Proof. reflexivity. Qed.

(** *** Submission never completes a transfer *)

Lemma finalized_app l1 l2 : finalized (l1 ++ l2) = finalized l1 || finalized l2.
Proof. apply existsb_app. Qed.

Lemma never_finalizes_bind {A B : Type} (c : M HW A) (f : A -> M HW B) :
  never_finalizes c -> (forall a, never_finalizes (f a)) ->
  never_finalizes (bind c f).
Proof.
  intros Hc Hf m. destruct (Hc m) as (l1 & L1 & F1).
  unfold bind. destruct (c m) as [a m1]. cbn [snd] in *.
  destruct (Hf a m1) as (l2 & L2 & F2).
  exists (l1 ++ l2). split.
  - rewrite L2, L1. apply eq_sym, app_assoc.
  - rewrite finalized_app, F1, F2. reflexivity.
Qed.

Lemma never_finalizes_pure {A : Type} (c : M HW A) :
  (forall m, log (snd (c m)) = log m) -> never_finalizes c.
Proof. intros Hc m. exists []. rewrite app_nil_r. auto. Qed.

Lemma never_finalizes_read reg : never_finalizes (mchp_corespi_read reg).
Proof.
  intros m. unfold mchp_corespi_read.
  destruct (readl (hw m) reg) as [v h]. exists [MmioRead reg (u32 v)].
  split; reflexivity.
Qed.

Lemma never_finalizes_write reg v : never_finalizes (mchp_corespi_write reg v).
Proof. intros m. exists [MmioWrite reg (u32 v)]. split; reflexivity. Qed.

Ltac no_finalize :=
  repeat first
    [ apply never_finalizes_read
    | apply never_finalizes_write
    | apply never_finalizes_pure; intros ?; reflexivity
    | apply never_finalizes_bind; [|intros ?] ].

Lemma never_finalizes_disable : never_finalizes mchp_corespi_disable.
Proof. unfold mchp_corespi_disable. no_finalize. Qed.

Lemma never_finalizes_set_clk_gen : never_finalizes mchp_corespi_set_clk_gen.
Proof.
  unfold mchp_corespi_set_clk_gen.
  apply never_finalizes_bind; [apply never_finalizes_disable|intros ?].
  no_finalize.
Qed.

Lemma never_finalizes_set_xfer_size len :
  never_finalizes (mchp_corespi_set_xfer_size len).
Proof.
  unfold mchp_corespi_set_xfer_size.
  apply never_finalizes_bind; [apply never_finalizes_disable|intros ?].
  no_finalize.
Qed.

Lemma never_finalizes_write_fifo_loop n : forall i,
  never_finalizes (write_fifo_loop n i).
Proof.
  induction n as [|n IH]; intros i; cbn [write_fifo_loop].
  - no_finalize.
  - apply never_finalizes_bind; [apply never_finalizes_read|intros status].
    destruct (_ =? 0); [|no_finalize].
    apply never_finalizes_bind; [no_finalize|intros s].
    apply never_finalizes_bind.
    + destruct (_ =? 0); no_finalize.
    + intros byte.
      apply never_finalizes_bind; [apply never_finalizes_write|intros ?]. apply IH.
Qed.

Lemma never_finalizes_write_fifo : never_finalizes mchp_corespi_write_fifo.
Proof.
  unfold mchp_corespi_write_fifo.
  apply never_finalizes_bind; [no_finalize|intros s]. cbv zeta.
  apply never_finalizes_bind; [apply never_finalizes_set_xfer_size|intros ?].
  apply never_finalizes_bind; [apply never_finalizes_write_fifo_loop|intros ?].
  no_finalize.
Qed.

(** Whatever the transfer, [mchp_corespi_transfer_one] leaves its
    completion to the interrupt handler. *)
Lemma never_finalizes_transfer_one_start xfer :
  never_finalizes (transfer_one_start xfer).
Proof.
  unfold transfer_one_start.
  apply never_finalizes_bind; [apply never_finalizes_set_clk_gen|intros ?].
  do 5 (apply never_finalizes_bind; [no_finalize|intros ?]).
  apply never_finalizes_bind; [no_finalize|intros s].
  apply never_finalizes_bind; [apply never_finalizes_set_xfer_size|intros ?].
  apply never_finalizes_bind; [no_finalize|intros s'].
  apply never_finalizes_bind; [|intros ?; no_finalize].
  unfold when. destruct (negb _); [apply never_finalizes_write_fifo|no_finalize].
Qed.

(** *** Acceptance *)

(** The divider computation succeeds for every target the controller
    can reach: a rate of at least 1/65535 of the source clock. *)
Lemma calculate_clkgen_accepts clk t s :
  0 < t -> 0 < clk < 2 ^ 32 -> clk <= 65535 * t ->
  exists s', mchp_corespi_calculate_clkgen clk s t = Some (0, s').
Proof.
  intros Ht Hc Hle.
  assert (E : mchp_corespi_calculate_clkgen clk s t
              = mchp_corespi_calculate_clkgen clk s (Z.min t clk)).
  { unfold mchp_corespi_calculate_clkgen.
    replace (Z.min (Z.min t clk) clk) with (Z.min t clk) by lia. reflexivity. }
  rewrite E, calculate_clkgen_unfold by lia. cbv zeta.
  destruct (_ || _); [|eauto].
  pose proof (clkgen_mode0_le15 clk (Z.min t clk) ltac:(lia) ltac:(lia)) as H15.
  unfold CLK_GEN_MODE0_MAX.
  destruct (Z.gtb_spec (clkgen_mode0 clk (Z.min t clk)) 15) as [Hgt|_]; [|eauto].
  exfalso. assert (clkgen_mode0 clk (Z.min t clk) <= 15) by (apply H15; lia). lia.
Qed.

(** *** Interrupts of an idle session *)

(** With nothing left to send or to receive the handler leaves the
    FIFOs alone, and finalises exactly when the transfer-done cause or a
    fault cause is raised. *)
Lemma interrupt_idle (m : machine HW) :
  tx_len (spi m) = 0 -> rx_len (spi m) = 0 ->
  let m' := snd (mchp_corespi_interrupt m) in
  exists l,
    log m' = log m ++ l /\ fifo_quiet l
    /\ spi m' = spi m /\ mem m' = mem m
    /\ finalized l
       = negb (Z.land (pending_causes m) INT_TXDONE =? 0)
         || negb (Z.land (pending_causes m) INT_RX_CHANNEL_OVERFLOW =? 0)
         || negb (Z.land (pending_causes m) INT_TX_CHANNEL_UNDERRUN =? 0).
Proof.
  intros Ht Hr m'. subst m'.
  destruct (mchp_corespi_read REG_MIS m) as [mis m0] eqn:E0.
  pose proof (pending_causes_read _ _ _ E0) as Hc.
  pose proof E0 as E0'.
  apply read_inv in E0' as ((L0 & K0 & S0 & M0) & _).
  destruct (Z.eq_dec (Z.land mis 0xf) 0) as [Ez|Hnz].
  - (* not for us *)
    unfold mchp_corespi_interrupt, bind. rewrite E0.
    change 15 with 0xf. rewrite Ez. cbn [ret snd].
    exists [MmioRead REG_MIS mis]. rewrite <- Hc, Ez.
    repeat split; assumption.
  - assert (Htx : exists fin m1 lt,
               (if Z.land (Z.land mis 0xf) INT_TXDONE =? 0 then (false, m0)
                else txdone_branch m0) = (fin, m1)
               /\ log m1 = log m0 ++ lt /\ fifo_quiet lt /\ finalized lt = false
               /\ spi m1 = spi m0 /\ mem m1 = mem m0
               /\ fin = negb (Z.land (Z.land mis 0xf) INT_TXDONE =? 0)).
    { destruct (Z.eqb_spec (Z.land (Z.land mis 0xf) INT_TXDONE) 0) as [Ea|Ea].
      - exists false, m0, []. rewrite app_nil_r. repeat split; auto.
      - unfold txdone_branch. unfold bind at 1.
        destruct (mchp_corespi_write REG_INT_CLEAR INT_TXDONE m0) as [u1 ma] eqn:Ew.
        apply write_inv in Ew as ((La & Ka & Sa & Ma) & _).
        unfold bind, get_spi, when, ret.
        rewrite Sa, S0, Hr. cbn [Z.eqb negb].
        rewrite Sa, S0, Ht. cbn [Z.eqb negb].
        rewrite Sa, S0, Hr. cbn [Z.eqb].
        exists true, ma, [MmioWrite REG_INT_CLEAR (u32 INT_TXDONE)].
        repeat split; auto; congruence. }
    destruct Htx as (fin & m1 & lt & E1 & L1 & Q1 & N1 & S1 & M1 & F1).
    destruct (interrupt_decompose m mis m0 E0 Hnz fin m1 E1)
      as (m' & Ei & (Lt & Kt & St & Mt) & _).
    rewrite Ei. cbn [snd].
    exists ([MmioRead REG_MIS mis] ++ lt ++ irq_tail (Z.land mis 0xf) (spi m1) fin).
    repeat split; try congruence.
    + rewrite Lt, L1, L0, <- !app_assoc. reflexivity.
    + apply fifo_quiet_app; [reflexivity|].
      apply fifo_quiet_app; [assumption|apply irq_tail_quiet].
    + rewrite !finalized_app, N1, irq_tail_finalized, F1, <- Hc. reflexivity.
Qed.

Lemma cause_raised c b : negb (Z.land c b =? 0) = true <-> Z.land c b <> 0.
Proof. destruct (Z.eqb_spec (Z.land c b) 0); cbn; split; intros; congruence. Qed.

(** C9, as amended.  A transfer of length 0 whose clock rate the
    controller can reach is accepted: [mchp_corespi_transfer_one] returns
    1, "transfer in progress", having accessed neither [RX_DATA] nor
    [TX_DATA], and without finalising the transfer.  Nothing that follows
    accesses the FIFOs either: [tx_len], [rx_len] and [pending] stay 0 and
    no interrupt drains or fills.  The transfer is finalised by an
    interrupt exactly when that interrupt carries the transfer-done cause
    or a fault cause. *)
Theorem zero_length_transfer (xfer : spi_transfer) (m : machine HW) :
  xfer_len xfer = 0 ->
  0 <= xfer_tx_buf xfer -> 0 <= xfer_rx_buf xfer ->
  0 < xfer_speed_hz xfer < 2 ^ 32 ->
  0 < clk_rate m < 2 ^ 32 ->
  clk_rate m <= 65535 * xfer_speed_hz xfer ->
  exists m1,
    mchp_corespi_transfer_one xfer m = Some (1, m1)
    /\ fifo_quiet (new_events m m1)
    /\ finalized (new_events m m1) = false
    /\ forall m2, follows m1 m2 ->
         fifo_quiet (new_events m m2)
         /\ tx_len (spi m2) = 0 /\ rx_len (spi m2) = 0 /\ pending (spi m2) = 0
         /\ (finalized (new_events m2 (snd (mchp_corespi_interrupt m2))) = true
             <-> Z.land (pending_causes m2) INT_TXDONE <> 0
                 \/ Z.land (pending_causes m2) INT_RX_CHANNEL_OVERFLOW <> 0
                 \/ Z.land (pending_causes m2) INT_TX_CHANNEL_UNDERRUN <> 0).
Proof.
  intros Hlen Ht Hr Hs Hc Hle. rewrite transfer_one_unfold.
  rewrite (u32_small (xfer_speed_hz xfer)) by lia.
  destruct (calculate_clkgen_accepts (clk_rate m) (xfer_speed_hz xfer) (spi m)
              ltac:(lia) Hc Hle) as (s' & ->).
  cbn [Z.eqb].
  set (ms := Build_machine (hw m) (clk_rate m) s' (mem m) (log m)).
  destruct (never_finalizes_transfer_one_start xfer ms) as (l0 & Ll0 & Fl0).
  destruct (transfer_one_start xfer ms) as [r m1] eqn:H. cbn [snd] in *.
  change (log ms) with (log m) in Ll0.
  apply transfer_one_start_inv in H;
    [|assumption|assumption|rewrite Hlen; unfold INT_MAX; lia].
  destruct H as (-> & lq & lf & L1 & K1 & M1 & Q1 & R1 & Z1 & C1 & W1 & S1).
  rewrite (Z1 Hlen) in *. rewrite app_nil_r in L1. change (log ms) with (log m) in L1.
  exists m1. split; [reflexivity|].
  split; [rewrite (new_events_app _ _ _ L1); assumption|].
  split; [rewrite (new_events_app _ _ _ Ll0); assumption|].
  intros m2 Hf.
  assert (Hinv : exists l, log m2 = log m ++ l /\ fifo_quiet l
                           /\ tx_len (spi m2) = 0 /\ rx_len (spi m2) = 0
                           /\ pending (spi m2) = 0).
  { induction Hf as [|mx f Hf IH|mx Hf IH].
    - exists lq. rewrite S1, Hlen. cbn. repeat split; auto.
    - destruct IH as (l & Hl & Hq' & ? & ? & ?). exists l. repeat split; auto.
    - destruct IH as (l & Hl & Hq' & Htx & Hrx & Hp).
      destruct (interrupt_idle mx Htx Hrx) as (l' & Hl' & Hq'' & Hsp & _).
      exists (l ++ l'). rewrite Hsp. repeat split; auto.
      + rewrite Hl', Hl, app_assoc. reflexivity.
      + now apply fifo_quiet_app. }
  destruct Hinv as (l & Hl & Hq' & Htx & Hrx & Hp).
  rewrite (new_events_app _ _ _ Hl).
  split; [assumption|]. split; [assumption|]. split; [assumption|].
  split; [assumption|].
  destruct (interrupt_idle m2 Htx Hrx) as (l' & Hl' & _ & _ & _ & Hfin).
  rewrite (new_events_app _ _ _ Hl'), Hfin, !orb_true_iff, !cause_raised.
  tauto.
Qed.

End ZeroLength.

(** ** The modelled controller under the driver *)

Lemma dev_status_cases d :
  (dev_status d = 0 \/ dev_status d = 64 \/ dev_status d = 256 \/ dev_status d = 320)
  /\ ((Z.land (dev_status d) STATUS_RXFIFO_EMPTY =? 0)
      = match d_rxfifo d with [] => false | _ => true end)
  /\ ((Z.land (dev_status d) STATUS_TXFIFO_FULL =? 0)
      = (length (d_txfifo d) <? 32)%nat).
Proof.
  unfold dev_status.
  destruct (length (d_txfifo d) <? 32)%nat, (d_rxfifo d); cbn; auto 10.
Qed.

Lemma dev_status_u32 d : u32 (dev_status d) = dev_status d.
Proof.
  destruct (dev_status_cases d) as ([E|[E|[E|E]]] & _); rewrite E; reflexivity.
Qed.

Lemma fifo_delta_refl m : fifo_delta m m 0 0.
Proof. unfold fifo_delta. lia. Qed.

Lemma fifo_delta_trans m1 m2 m3 a b c d :
  fifo_delta m1 m2 a b -> fifo_delta m2 m3 c d -> fifo_delta m1 m3 (a + c) (b + d).
Proof. unfold fifo_delta. lia. Qed.

(** Accesses to other registers than the two data registers leave the
    FIFOs alone. *)
Lemma dev_read_quiet reg (m : machine corespi_dev) :
  reg <> REG_RX_DATA ->
  fifo_delta m (snd (mchp_corespi_read reg m)) 0 0.
Proof.
  intros Hne. unfold mchp_corespi_read, fifo_delta. cbn [readl corespi_mmio].
  unfold dev_readl.
  repeat match goal with
         | |- context [if ?r =? ?c then _ else _] =>
             destruct (Z.eqb_spec r c); [try contradiction; cbn; lia|]
         end.
  cbn; lia.
Qed.

Lemma dev_write_quiet reg v (m : machine corespi_dev) :
  reg <> REG_TX_DATA ->
  fifo_delta m (snd (mchp_corespi_write reg v m)) 0 0.
Proof.
  intros Hne. unfold mchp_corespi_write, fifo_delta. cbn [readl writel corespi_mmio snd hw].
  unfold dev_writel.
  repeat match goal with
         | |- context [if ?r =? ?c then _ else _] =>
             destruct (Z.eqb_spec r c); [try contradiction; cbn; lia|]
         end.
  cbn; lia.
Qed.

Lemma dev_read_status_eq (m : machine corespi_dev) :
  mchp_corespi_read REG_STATUS m =
  (dev_status (hw m),
   Build_machine (hw m) (clk_rate m) (spi m) (mem m)
                 (log m ++ [MmioRead REG_STATUS (dev_status (hw m))])).
Proof.
  unfold mchp_corespi_read. cbn [readl corespi_mmio].
  change (dev_readl (hw m) REG_STATUS) with (dev_status (hw m), hw m).
  cbv beta iota. now rewrite dev_status_u32.
Qed.

Lemma dev_read_rx_eq (m : machine corespi_dev) :
  mchp_corespi_read REG_RX_DATA m =
  (u32 (hd 0 (d_rxfifo (hw m))),
   Build_machine
     (Build_dev (d_control (hw m)) (d_frame_size (hw m)) (d_clk_gen (hw m))
                (d_ssel (hw m)) (d_framesup (hw m)) (d_mis (hw m))
                (tl (d_rxfifo (hw m))) (d_txfifo (hw m)))
     (clk_rate m) (spi m) (mem m)
     (log m ++ [MmioRead REG_RX_DATA (u32 (hd 0 (d_rxfifo (hw m))))])).
Proof. reflexivity. Qed.

Lemma dev_write_tx_eq (m : machine corespi_dev) v :
  mchp_corespi_write REG_TX_DATA v m =
  (tt,
   Build_machine
     (Build_dev (d_control (hw m)) (d_frame_size (hw m)) (d_clk_gen (hw m))
                (d_ssel (hw m)) (d_framesup (hw m)) (d_mis (hw m))
                (d_rxfifo (hw m))
                (if (length (d_txfifo (hw m)) <? 32)%nat
                 then d_txfifo (hw m) ++ [u8 (u32 v)] else d_txfifo (hw m)))
     (clk_rate m) (spi m) (mem m)
     (log m ++ [MmioWrite REG_TX_DATA (u32 v)])).
Proof. reflexivity. Qed.

(** *** Every driver operation tracks the FIFOs *)

Lemma fifo_tracks_refl m : fifo_tracks m m.
Proof. exists []. rewrite app_nil_r. split; [reflexivity|apply fifo_delta_refl]. Qed.

Lemma fifo_tracks_trans m1 m2 m3 :
  fifo_tracks m1 m2 -> fifo_tracks m2 m3 -> fifo_tracks m1 m3.
Proof.
  intros (l1 & L1 & D1) (l2 & L2 & D2). exists (l1 ++ l2). split.
  - rewrite L2, L1, app_assoc. reflexivity.
  - rewrite tx_count_app, rx_count_app. eapply fifo_delta_trans; eassumption.
Qed.

Lemma tracks_ret {A : Type} (a : A) : tracks (ret a).
Proof. intros m. apply fifo_tracks_refl. Qed.

Lemma tracks_bind {A B : Type} (c : M corespi_dev A) (f : A -> M corespi_dev B) :
  tracks c -> (forall a, tracks (f a)) -> tracks (bind c f).
Proof.
  intros Hc Hf m. unfold bind. specialize (Hc m).
  destruct (c m) as [a m1]. cbn [snd] in Hc.
  eapply fifo_tracks_trans; [exact Hc|apply Hf].
Qed.

Lemma tracks_get_spi : tracks get_spi.
Proof. intros m. apply fifo_tracks_refl. Qed.

Lemma tracks_modify_spi f : tracks (modify_spi f).
Proof.
  intros m. exists []. cbn. rewrite app_nil_r. split; [reflexivity|].
  unfold fifo_delta. cbn. lia.
Qed.

Lemma tracks_store_byte a v : tracks (store_byte a v).
Proof.
  intros m. exists []. cbn. rewrite app_nil_r. split; [reflexivity|].
  unfold fifo_delta. cbn. lia.
Qed.

Lemma tracks_load_byte a : tracks (load_byte a).
Proof. intros m. apply fifo_tracks_refl. Qed.

Lemma tracks_emit e :
  match e with MmioRead _ _ | MmioWrite _ _ => False | _ => True end ->
  tracks (emit e).
Proof.
  intros He m. exists [e]. cbn. split; [reflexivity|].
  unfold fifo_delta. destruct e; try contradiction; cbn; lia.
Qed.

Lemma tracks_when b (c : M corespi_dev unit) : tracks c -> tracks (when b c).
Proof. intros Hc. destruct b; [assumption|apply tracks_ret]. Qed.

Lemma tracks_read reg : reg <> REG_RX_DATA -> tracks (mchp_corespi_read reg).
Proof.
  intros Hne m. pose proof (dev_read_quiet reg m Hne) as Hq.
  destruct (mchp_corespi_read reg m) as [v m1] eqn:E. cbn [snd] in *.
  apply read_inv in E as ((L & _) & _).
  exists [MmioRead reg v]. split; [assumption|].
  unfold tx_count, rx_count. cbn.
  destruct (Z.eqb_spec reg REG_RX_DATA); [contradiction|]. exact Hq.
Qed.

Lemma tracks_write reg v : reg <> REG_TX_DATA -> tracks (mchp_corespi_write reg v).
Proof.
  intros Hne m. pose proof (dev_write_quiet reg v m Hne) as Hq.
  destruct (mchp_corespi_write reg v m) as [u m1] eqn:E. cbn [snd] in *.
  apply write_inv in E as ((L & _) & _).
  exists [MmioWrite reg (u32 v)]. split; [assumption|].
  unfold tx_count, rx_count. cbn.
  destruct (Z.eqb_spec reg REG_TX_DATA); [contradiction|]. exact Hq.
Qed.

Lemma tracks_disable : tracks mchp_corespi_disable.
Proof.
  unfold mchp_corespi_disable.
  apply tracks_bind; [apply tracks_read; discriminate|].
  intros c. apply tracks_write; discriminate.
Qed.

Lemma tracks_set_xfer_size len : tracks (mchp_corespi_set_xfer_size len).
Proof.
  unfold mchp_corespi_set_xfer_size.
  apply tracks_bind; [apply tracks_disable|intros _].
  apply tracks_bind; [apply tracks_read; discriminate|intros c].
  apply tracks_bind; [apply tracks_write; discriminate|intros _].
  apply tracks_bind; [apply tracks_write; discriminate|intros _].
  apply tracks_write; discriminate.
Qed.

Lemma tracks_set_clk_gen : tracks mchp_corespi_set_clk_gen.
Proof.
  unfold mchp_corespi_set_clk_gen.
  apply tracks_bind; [apply tracks_disable|intros _].
  apply tracks_bind; [apply tracks_read; discriminate|intros c].
  apply tracks_bind; [apply tracks_get_spi|intros s].
  apply tracks_bind; [apply tracks_write; discriminate|intros _].
  apply tracks_bind; [apply tracks_write; discriminate|intros _].
  apply tracks_write; discriminate.
Qed.

(** The drain loop takes one byte out of the input FIFO per iteration:
    it reads [RX_DATA] only after [STATUS] has shown the FIFO not empty. *)
Lemma tracks_read_fifo_loop n : forall i, tracks (read_fifo_loop n i).
Proof.
  induction n as [|n IH]; intros i m.
  - apply fifo_tracks_refl.
  - cbn [read_fifo_loop]. unfold bind at 1.
    rewrite dev_read_status_eq.
    destruct (dev_status_cases (hw m)) as (_ & E & _). rewrite E. clear E.
    destruct (d_rxfifo (hw m)) as [|b rest] eqn:Erx.
    + cbn. exists [MmioRead REG_STATUS (dev_status (hw m))].
      split; [reflexivity|]. unfold fifo_delta. cbn. lia.
    + unfold bind at 1. rewrite dev_read_rx_eq.
      cbn [hw clk_rate spi mem log].
      match goal with
      | |- fifo_tracks m (snd (?c ?mm)) =>
          assert (Hc : fifo_tracks mm (snd (c mm)))
      end.
      { apply tracks_bind; [apply tracks_get_spi|intros s].
        apply tracks_bind; [|intros _; apply IH].
        destruct (rx_buf s =? 0); [apply tracks_ret|].
        apply tracks_bind; [apply tracks_store_byte|intros _].
        apply tracks_modify_spi. }
      eapply fifo_tracks_trans; [|exact Hc].
      exists [MmioRead REG_STATUS (dev_status (hw m));
              MmioRead REG_RX_DATA (u32 (hd 0 (d_rxfifo (hw m))))].
      cbn [log]. rewrite <- app_assoc. split; [reflexivity|].
      unfold fifo_delta. cbn [hw d_txfifo d_rxfifo]. rewrite Erx.
      change (tx_count [_; _]) with 0. change (rx_count [_; _]) with 1.
      cbn [length tl]. lia.
Qed.

(** The fill loop puts one byte in the output FIFO per iteration: it
    writes [TX_DATA] only after [STATUS] has shown the FIFO not full. *)
Lemma tracks_write_fifo_loop n : forall i, tracks (write_fifo_loop n i).
Proof.
  induction n as [|n IH]; intros i m.
  - apply fifo_tracks_refl.
  - cbn [write_fifo_loop]. unfold bind at 1.
    rewrite dev_read_status_eq.
    destruct (dev_status_cases (hw m)) as (_ & _ & E). rewrite E. clear E.
    destruct (length (d_txfifo (hw m)) <? 32)%nat eqn:Efull.
    + unfold bind at 1, get_spi at 1. cbn [hw clk_rate spi mem log].
      unfold bind at 1.
      set (m1 := Build_machine (hw m) (clk_rate m) (spi m) (mem m)
                   (log m ++ [MmioRead REG_STATUS (dev_status (hw m))])).
      assert (H1 : fifo_tracks m m1).
      { exists [MmioRead REG_STATUS (dev_status (hw m))].
        split; [reflexivity|]. unfold fifo_delta. cbn. lia. }
      assert (Hpush : forall v (mm : machine corespi_dev),
                 (length (d_txfifo (hw mm)) <? 32)%nat = true ->
                 fifo_tracks mm (snd (mchp_corespi_write REG_TX_DATA v mm))).
      { intros v mm Hroom. rewrite dev_write_tx_eq. cbn [snd].
        exists [MmioWrite REG_TX_DATA (u32 v)]. split; [reflexivity|].
        unfold fifo_delta. cbn [hw d_txfifo d_rxfifo]. rewrite Hroom.
        change (tx_count [_]) with 1. change (rx_count [_]) with 0.
        rewrite length_app. cbn [length]. lia. }
      eapply fifo_tracks_trans; [exact H1|].
      destruct (tx_buf (spi m) =? 0).
      * cbn [ret]. unfold bind at 1.
        pose proof (Hpush 170 m1 Efull) as H2.
        destruct (mchp_corespi_write REG_TX_DATA 170 m1) as [u m2].
        cbn [snd] in H2. eapply fifo_tracks_trans; [exact H2|apply IH].
      * unfold load_byte, modify_spi, bind at 1. unfold bind at 1.
        cbn [ret hw clk_rate spi mem log]. unfold bind at 1.
        match goal with
        | |- context [mchp_corespi_write REG_TX_DATA ?v ?mm] =>
            pose proof (Hpush v mm Efull) as H2;
            destruct (mchp_corespi_write REG_TX_DATA v mm) as [u m2]
        end.
        cbn [snd] in H2.
        eapply fifo_tracks_trans; [|apply IH].
        destruct H2 as (l2 & L2 & D2). exists l2. split; [exact L2|].
        unfold fifo_delta in *. cbn [hw] in *. exact D2.
    + cbn. exists [MmioRead REG_STATUS (dev_status (hw m))].
      split; [reflexivity|]. unfold fifo_delta. cbn. lia.
Qed.

Lemma tracks_read_fifo : tracks mchp_corespi_read_fifo.
Proof.
  unfold mchp_corespi_read_fifo.
  apply tracks_bind; [apply tracks_get_spi|intros s].
  apply tracks_bind; [apply tracks_read_fifo_loop|intros i].
  apply tracks_bind; [apply tracks_modify_spi|intros _].
  apply tracks_modify_spi.
Qed.

Lemma tracks_write_fifo : tracks mchp_corespi_write_fifo.
Proof.
  unfold mchp_corespi_write_fifo.
  apply tracks_bind; [apply tracks_get_spi|intros s].
  apply tracks_bind; [apply tracks_set_xfer_size|intros _].
  apply tracks_bind; [apply tracks_write_fifo_loop|intros i].
  apply tracks_bind; [apply tracks_modify_spi|intros _].
  apply tracks_modify_spi.
Qed.

Lemma tracks_txdone_branch : tracks txdone_branch.
Proof.
  unfold txdone_branch.
  apply tracks_bind; [apply tracks_write; discriminate|intros _].
  apply tracks_bind; [apply tracks_get_spi|intros s].
  apply tracks_bind; [apply tracks_when, tracks_read_fifo|intros _].
  apply tracks_bind; [apply tracks_get_spi|intros s'].
  apply tracks_bind; [apply tracks_when, tracks_write_fifo|intros _].
  apply tracks_bind; [apply tracks_get_spi|intros s''].
  apply tracks_ret.
Qed.

Lemma tracks_interrupt : tracks mchp_corespi_interrupt.
Proof.
  unfold mchp_corespi_interrupt.
  apply tracks_bind; [apply tracks_read; discriminate|intros mis].
  destruct (Z.land mis 15 =? 0); [apply tracks_ret|].
  apply tracks_bind.
  { destruct (Z.land (Z.land mis 15) INT_TXDONE =? 0);
      [apply tracks_ret|apply tracks_txdone_branch]. }
  intros fin.
  apply tracks_bind; [apply tracks_when, tracks_write; discriminate|intros _].
  apply tracks_bind.
  { destruct (Z.land (Z.land mis 15) INT_RX_CHANNEL_OVERFLOW =? 0);
      [apply tracks_ret|].
    apply tracks_bind; [apply tracks_write; discriminate|intros _].
    apply tracks_bind; [apply tracks_get_spi|intros s].
    apply tracks_bind; [apply tracks_emit; exact I|intros _].
    apply tracks_ret. }
  intros fin1.
  apply tracks_bind.
  { destruct (Z.land (Z.land mis 15) INT_TX_CHANNEL_UNDERRUN =? 0);
      [apply tracks_ret|].
    apply tracks_bind; [apply tracks_write; discriminate|intros _].
    apply tracks_bind; [apply tracks_get_spi|intros s].
    apply tracks_bind; [apply tracks_emit; exact I|intros _].
    apply tracks_ret. }
  intros fin2.
  apply tracks_bind; [apply tracks_when, tracks_emit; exact I|intros _].
  apply tracks_ret.
Qed.

Lemma tracks_transfer_one_start xfer : tracks (transfer_one_start xfer).
Proof.
  unfold transfer_one_start.
  apply tracks_bind; [apply tracks_set_clk_gen|intros _].
  do 5 (apply tracks_bind; [apply tracks_modify_spi|intros _]).
  apply tracks_bind; [apply tracks_get_spi|intros s].
  apply tracks_bind; [apply tracks_set_xfer_size|intros _].
  apply tracks_bind; [apply tracks_get_spi|intros s'].
  apply tracks_bind; [apply tracks_when, tracks_write_fifo|intros _].
  apply tracks_ret.
Qed.

(** Bus activity never adds to what the two FIFOs hold. *)
Lemma wire_shift_occupancy rx_in causes (m : machine corespi_dev) :
  occupancy (on_hw (wire_shift rx_in causes) m) <= occupancy m.
Proof.
  unfold occupancy, on_hw, wire_shift. cbn [hw d_txfifo d_rxfifo].
  rewrite length_skipn, length_firstn, length_app, length_map, length_firstn.
  lia.
Qed.

(** ** Sessions *)

Lemma fault_bits_zero c :
  Z.land c fault_causes = 0 ->
  Z.land c INT_RX_CHANNEL_OVERFLOW = 0 /\ Z.land c INT_TX_CHANNEL_UNDERRUN = 0.
Proof.
  unfold fault_causes. rewrite Z.land_lor_distr_r.
  change INT_RX_CHANNEL_OVERFLOW with (2 ^ 2).
  change INT_TX_CHANNEL_UNDERRUN with (2 ^ 3).
  rewrite !land_pow2 by lia.
  destruct (Z.testbit c 2), (Z.testbit c 3); cbn; intros H; try discriminate; auto.
Qed.

Section Step.
Context {HW : Type} {io : Mmio HW}.

(** One interrupt, on any controller: what it does to the lengths and
    to the in-flight count, in terms of the data-register accesses it
    logs. *)
Lemma interrupt_step (m : machine HW) :
  wf_spi (spi m) ->
  let m' := snd (mchp_corespi_interrupt m) in
  exists l,
    log m' = log m ++ l /\ clk_rate m' = clk_rate m
    /\ 0 <= tx_count l <= Z.max 0 (Z.min (tx_len (spi m)) FIFO_DEPTH)
    /\ 0 <= rx_count l <= Z.max 0 (Z.min (rx_len (spi m)) FIFO_DEPTH)
    /\ tx_len (spi m') = tx_len (spi m) - tx_count l
    /\ rx_len (spi m') = rx_len (spi m) - rx_count l
    /\ pending (spi m') = s32 (s32 (pending (spi m) - rx_count l) + tx_count l)
    /\ 0 <= tx_buf (spi m') /\ 0 <= rx_buf (spi m')
    /\ (finalized l = true -> Z.land (pending_causes m) fault_causes = 0 ->
        rx_len (spi m') = 0).
Proof.
  intros Hwf m'. subst m'.
  pose proof Hwf as (Wt & Wr & Wtl & Wrl & Wp).
  assert (Hp0 : s32 (s32 (pending (spi m) - 0) + 0) = pending (spi m)).
  { rewrite Z.sub_0_r, Z.add_0_r, !s32_small; auto. now rewrite s32_small. }
  destruct (mchp_corespi_read REG_MIS m) as [mis m0] eqn:E0.
  pose proof (pending_causes_read _ _ _ E0) as Hc.
  pose proof E0 as E0'.
  apply read_inv in E0' as ((L0 & K0 & S0 & M0) & _).
  destruct (Z.eq_dec (Z.land mis 0xf) 0) as [Ez|Hnz].
  - unfold mchp_corespi_interrupt, bind. rewrite E0.
    change 15 with 0xf. rewrite Ez. cbn.
    exists [MmioRead REG_MIS mis]. rewrite S0.
    change (tx_count [_]) with 0. change (rx_count [_]) with 0.
    rewrite Hp0, !Z.sub_0_r.
    repeat split; try assumption; try lia. discriminate.
  - destruct (if Z.land (Z.land mis 0xf) INT_TXDONE =? 0 then (false, m0)
              else txdone_branch m0) as [fin m1] eqn:E1.
    destruct (interrupt_decompose m mis m0 E0 Hnz fin m1 E1)
      as (m' & Ei & (Lt & Kt & St & Mt) & _).
    rewrite Ei. cbn [snd]. rewrite Hc in *.
    pose proof (irq_tail_quiet (pending_causes m) (spi m1) fin) as Hq.
    pose proof (irq_tail_finalized (pending_causes m) (spi m1) fin) as Hf.
    assert (Ht0 : tx_count (irq_tail (pending_causes m) (spi m1) fin) = 0)
      by (unfold tx_count; now rewrite (fifo_quiet_tx _ Hq)).
    assert (Hr0 : rx_count (irq_tail (pending_causes m) (spi m1) fin) = 0)
      by (unfold rx_count; now rewrite (fifo_quiet_rx _ Hq)).
    destruct (Z.eqb_spec (Z.land (pending_causes m) INT_TXDONE) 0) as [Ea|Ea].
    + injection E1 as <- <-.
      exists ([MmioRead REG_MIS mis] ++ irq_tail (pending_causes m) (spi m0) false).
      rewrite tx_count_app, rx_count_app, Ht0, Hr0.
      change (tx_count [_]) with 0. change (rx_count [_]) with 0.
      cbn [Z.add]. rewrite St, S0, Hp0, !Z.sub_0_r.
      repeat split; try assumption; try lia; try congruence.
      * rewrite Lt, L0, S0, <- app_assoc. reflexivity.
      * intros Hfin Hnf. exfalso.
        rewrite S0 in Hf.
        unfold finalized in *. rewrite existsb_app in Hfin. cbn [existsb is_finalize orb] in Hfin.
        rewrite Hf in Hfin.
        destruct (fault_bits_zero _ Hnf) as (Eo & Eu). rewrite Eo, Eu in Hfin.
        discriminate.
    + apply txdone_branch_inv in E1; [|rewrite S0; assumption].
      destruct E1 as (ld & lf & L1 & K1 & D1 & C1 & Z1 & M1 & R1 & C2 & Z2 & X2 & W2 & S1 & F1).
      rewrite S0 in *.
      exists ([MmioRead REG_MIS mis] ++ ([MmioWrite REG_INT_CLEAR INT_TXDONE] ++ ld ++ lf)
              ++ irq_tail (pending_causes m) (spi m1) fin).
      assert (Etx : tx_count ([MmioRead REG_MIS mis]
                              ++ ([MmioWrite REG_INT_CLEAR INT_TXDONE] ++ ld ++ lf)
                              ++ irq_tail (pending_causes m) (spi m1) fin)
                    = tx_count lf).
      { rewrite !tx_count_app, Ht0.
        change (tx_count [_]) with 0.
        unfold tx_count at 1. rewrite (drain_events_no_tx _ D1). cbn [length]. lia. }
      assert (Erx : rx_count ([MmioRead REG_MIS mis]
                              ++ ([MmioWrite REG_INT_CLEAR INT_TXDONE] ++ ld ++ lf)
                              ++ irq_tail (pending_causes m) (spi m1) fin)
                    = rx_count ld).
      { rewrite !rx_count_app, Hr0.
        change (rx_count [_]) with 0.
        unfold rx_count at 2. rewrite R1. cbn [length]. lia. }
      rewrite Etx, Erx, St, S1. cbn [tx_len rx_len pending tx_buf rx_buf].
      repeat split; try assumption; try lia; try congruence.
      * rewrite Lt, L1, L0, S1, <- !app_assoc. reflexivity.
      * destruct (tx_buf (spi m) =? 0); lia.
      * destruct (rx_buf (spi m) =? 0); lia.
      * intros Hfin Hnf. rewrite S1 in Hf.
        unfold finalized in *. rewrite !existsb_app in Hfin.
        cbn [existsb is_finalize orb] in Hfin.
        rewrite Hf in Hfin.
        destruct (fault_bits_zero _ Hnf) as (Eo & Eu). rewrite Eo, Eu in Hfin.
        cbn [Z.eqb negb] in Hfin. rewrite !orb_false_r in Hfin.
        assert (Hd : existsb is_finalize ld = false).
        { clear - D1. induction ld as [|e l IH]; [reflexivity|].
          cbn [forallb] in D1. apply andb_prop in D1 as [He Hl].
          destruct e; cbn in *; auto; discriminate. }
        assert (Hl : existsb is_finalize lf = false).
        { destruct (Z.eq_dec (tx_len (spi m)) 0) as [Ezz|Ene].
          - now rewrite (Z2 Ezz).
          - destruct (X2 Ene) as (c0 & c1 & lw & -> & Hfill).
            rewrite existsb_app.
            change (existsb is_finalize (xfer_size_events _ c0 c1)) with false.
            clear - Hfill. induction lw as [|e l IH]; [reflexivity|].
            cbn [forallb] in Hfill. apply andb_prop in Hfill as [He Hl].
            destruct e; cbn in *; auto; discriminate. }
        rewrite Hd, Hl in Hfin. cbn [orb] in Hfin.
        rewrite F1 in Hfin. now apply Z.eqb_eq in Hfin.
Qed.

End Step.

Lemma tx_count_nonneg l : 0 <= tx_count l.
Proof. unfold tx_count. lia. Qed.

Lemma rx_count_nonneg l : 0 <= rx_count l.
Proof. unfold rx_count. lia. Qed.

Lemma fifo_tracks_occupancy m m' l :
  fifo_tracks m m' -> log m' = log m ++ l ->
  occupancy m' = occupancy m + tx_count l - rx_count l.
Proof.
  intros (l' & L' & (Dt & Dr)) L.
  assert (l' = l) as -> by (rewrite L in L'; now apply app_inv_head in L').
  unfold occupancy. lia.
Qed.

Lemma some_inj {A : Type} (a b : A) : Some a = Some b -> a = b.
Proof. intros H. now injection H. Qed.

Lemma session_inv_begin m0 xfer m1 :
  0 <= xfer_tx_buf xfer -> 0 <= xfer_rx_buf xfer ->
  0 <= xfer_len xfer <= MAX_LEN ->
  mchp_corespi_transfer_one xfer m0 = Some (1, m1) ->
  session_inv m0 xfer m1
  /\ (fifos_empty m0 -> fifo_bound m1).
Proof.
  intros Ht Hr Hl H. unfold MAX_LEN in Hl.
  rewrite transfer_one_unfold in H.
  destruct (mchp_corespi_calculate_clkgen _ _ _) as [[r0 s']|] eqn:Ec; [|discriminate].
  apply calculate_clkgen_frame in Ec as (Hr0 & _).
  destruct (Z.eqb_spec r0 0) as [-> | Hne].
  - apply some_inj in H.
    match type of H with
    | transfer_one_start _ ?mm = _ => set (ms := mm) in *
    end.
    pose proof (tracks_transfer_one_start xfer ms) as Htr. rewrite H in Htr.
    cbn [snd] in Htr.
    apply transfer_one_start_inv in H;
      [|assumption|assumption|unfold INT_MAX; lia].
    destruct H as (_ & lq & lf & L1 & K1 & M1 & Q1 & R1 & Z1 & C1 & W1 & S1).
    pose proof (fifo_tracks_occupancy _ _ _ Htr L1) as Hocc.
    assert (Etx : tx_count (lq ++ lf) = tx_count lf).
    { rewrite tx_count_app. unfold tx_count at 1. now rewrite (fifo_quiet_tx _ Q1). }
    assert (Erx : rx_count (lq ++ lf) = 0).
    { rewrite rx_count_app. unfold rx_count. now rewrite (fifo_quiet_rx _ Q1), R1. }
    split.
    + exists (lq ++ lf). rewrite Etx, Erx in *. rewrite S1.
      unfold wf_spi, int_range, INT_MIN, INT_MAX, FIFO_DEPTH in *.
      cbn [tx_len rx_len pending tx_buf rx_buf].
      repeat split; try lia.
      * exact L1.
      * destruct (xfer_tx_buf xfer =? 0); lia.
    + intros [Hrx Htx].
      assert (Eo : occupancy ms = 0).
      { unfold occupancy, ms. cbn [hw]. rewrite Hrx, Htx. reflexivity. }
      unfold fifo_bound. rewrite Hocc, Eo, Etx, Erx, S1.
      cbn [pending]. lia.
  - exfalso. apply some_inj in H. apply (f_equal fst) in H. cbn [fst] in H. subst r0.
    destruct Hr0 as [E|[E _]]; [contradiction|discriminate].
Qed.

Lemma session_inv_step m0 xfer m m' :
  0 <= xfer_len xfer <= MAX_LEN ->
  session_inv m0 xfer m -> session_step m m' ->
  session_inv m0 xfer m'
  /\ (fifo_bound m -> fifo_bound m').
Proof.
  intros Hl (l & L & Hwf & Etx & Erx & Htx & Hrx & Hp) Hstep.
  unfold MAX_LEN in Hl. unfold fifo_bound.
  destruct Hstep as [m rx_in causes | m].
  - pose proof (wire_shift_occupancy rx_in causes m).
    change (spi (on_hw (wire_shift rx_in causes) m)) with (spi m).
    split; [|lia].
    exists l.
    change (log (on_hw (wire_shift rx_in causes) m)) with (log m).
    repeat split; try assumption; apply Hwf.
  - destruct (interrupt_step m Hwf)
      as (l' & L' & K' & Ct & Cr & Et' & Er' & Ep' & Bt & Br & _).
    pose proof (fifo_tracks_occupancy _ _ _ (tracks_interrupt m) L') as Ho.
    pose proof (tx_count_nonneg l). pose proof (rx_count_nonneg l).
    assert (Hp' : pending (spi (snd (mchp_corespi_interrupt m)))
                  = pending (spi m) - rx_count l' + tx_count l').
    { rewrite Ep'. unfold FIFO_DEPTH in *.
      rewrite !s32_small; unfold int_range, INT_MIN, INT_MAX; try lia.
      rewrite s32_small; unfold int_range, INT_MIN, INT_MAX; lia. }
    split; [|lia].
    exists (l ++ l'). rewrite tx_count_app, rx_count_app.
    unfold wf_spi, int_range, INT_MIN, INT_MAX, FIFO_DEPTH in *.
    repeat split; try lia.
    rewrite L', L, app_assoc. reflexivity.
Qed.

Lemma session_inv_holds m0 xfer m :
  session m0 xfer m ->
  session_inv m0 xfer m /\ 0 <= xfer_len xfer <= MAX_LEN
  /\ (fifos_empty m0 -> fifo_bound m).
Proof.
  induction 1 as [m1 Ht Hr Hl H | m m' Hs (IH & Hl & Hb) Hstep].
  - destruct (session_inv_begin _ _ _ Ht Hr Hl H) as [Hi Hf]. auto.
  - destruct (session_inv_step _ _ _ _ Hl IH Hstep) as [Hi Hf]. auto.
Qed.

(** C5, as amended.  Throughout every session on the modelled
    controller, for a length in [0, 65535] and whatever the FIFOs held
    when the transfer was submitted: [tx_len] and [rx_len] stay between 0
    and the length and no step increases them; [pending] is the number of
    bytes written to [TX_DATA] minus the number of bytes read from
    [RX_DATA] since the transfer was submitted; and a step that completes
    the session normally leaves [rx_len] at 0.  When both FIFOs were empty
    at submission, [pending] is moreover never negative, and a step that
    completes the session normally leaves [pending] and [tx_len] at 0 as
    well. *)
Theorem session_accounting m0 xfer m :
  session m0 xfer m ->
  (0 <= tx_len (spi m) <= xfer_len xfer
   /\ 0 <= rx_len (spi m) <= xfer_len xfer
   /\ pending (spi m) = tx_count (new_events m0 m) - rx_count (new_events m0 m)
   /\ forall m', session_step m m' ->
        tx_len (spi m') <= tx_len (spi m)
        /\ rx_len (spi m') <= rx_len (spi m)
        /\ (completes_normally m m' -> rx_len (spi m') = 0))
  /\ (fifos_empty m0 ->
      0 <= pending (spi m)
      /\ forall m', session_step m m' -> completes_normally m m' ->
           pending (spi m') = 0 /\ tx_len (spi m') = 0 /\ rx_len (spi m') = 0).
Proof.
  intros Hs. destruct (session_inv_holds _ _ _ Hs) as (Hinv & Hl & Hb).
  pose proof Hinv as (l & L & Hwf & Etx & Erx & Htx & Hrx & Hp).
  pose proof (tx_count_nonneg l). pose proof (rx_count_nonneg l).
  assert (Ho : 0 <= occupancy m) by (unfold occupancy; lia).
  assert (Hnormal : forall m', completes_normally m m' -> rx_len (spi m') = 0).
  { intros m' (-> & Hfin & Hnf).
    destruct (interrupt_step m Hwf)
      as (l' & L' & _ & _ & _ & _ & _ & _ & _ & _ & Hz).
    rewrite (new_events_app _ _ _ L') in Hfin. exact (Hz Hfin Hnf). }
  split.
  - rewrite (new_events_app _ _ _ L).
    split; [lia|]. split; [lia|]. split; [lia|].
    intros m' Hstep.
    split; [|split; [|apply Hnormal]].
    + destruct Hstep as [m rx_in causes | m]; [cbn; lia|].
      destruct (interrupt_step m Hwf)
        as (l' & _ & _ & Ct & Cr & Et' & Er' & _). lia.
    + destruct Hstep as [m rx_in causes | m]; [cbn; lia|].
      destruct (interrupt_step m Hwf)
        as (l' & _ & _ & Ct & Cr & Et' & Er' & _). lia.
  - intros He. specialize (Hb He). unfold fifo_bound in Hb.
    split; [lia|].
    intros m' Hstep Hc.
    destruct (session_inv_step _ _ _ _ Hl Hinv Hstep) as [Hinv2 Hb2].
    specialize (Hb2 Hb). unfold fifo_bound in Hb2.
    destruct Hinv2 as (l2 & L2 & Hwf2 & Etx2 & Erx2 & Htx2 & Hrx2 & Hp2).
    assert (Ho2 : 0 <= occupancy m') by (unfold occupancy; lia).
    pose proof (Hnormal m' Hc). lia.
Qed.

(** ** The end-to-end scenario *)

Ltac by_evaluation :=
  repeat match goal with |- _ /\ _ => split end;
  vm_compute; first [reflexivity | congruence | discriminate].


(** ** Faults in the scenario *)

(** C2 as stated fails on the code.  When the first chunk comes back
    with transfer-done and receive-overflow raised together, the handler
    that sees the overflow still writes the remaining 8 bytes to
    [TX_DATA] before it finalises.  When the overflow is raised alone, the
    handler finalises and leaves the session fields as they were; the
    transfer-done interrupt that follows drains and writes the remaining
    8 bytes to [TX_DATA]. *)
Lemma interrupt_fault_counterexample :
  (pending_causes overflow_m1 = Z.lor INT_TXDONE INT_RX_CHANNEL_OVERFLOW
   /\ finalized (new_events overflow_m1 overflow_m2) = true
   /\ tx_data_writes (new_events overflow_m1 overflow_m2) = skipn 32 scenario_tx)
  /\ (pending_causes overflow_only_m1 = INT_RX_CHANNEL_OVERFLOW
      /\ finalized (new_events overflow_only_m1 overflow_only_m2) = true
      /\ spi overflow_only_m2 = spi scenario_m1
      /\ tx_data_writes (new_events overflow_only_m2 overflow_only_m3)
         = skipn 32 scenario_tx).
Proof. by_evaluation. Qed.

(** C3 as stated fails on the code: an interrupt that carries
    transfer-done together with receive-overflow finalises the transfer
    although [rx_len] has not reached zero. *)
Lemma interrupt_txdone_counterexample :
  Z.land (pending_causes overflow_m1) INT_TXDONE = INT_TXDONE
  /\ finalized (new_events overflow_m1 overflow_m2) = true
  /\ rx_len (spi overflow_m2) = 8.
Proof. by_evaluation. Qed.

(** ** Instances *)

Lemma interrupt_fault_witness :
  Z.land (pending_causes overflow_only_m1) fault_causes <> 0
  /\ fst (mchp_corespi_interrupt overflow_only_m1) = IRQ_HANDLED
  /\ exists l, new_events overflow_only_m1 (snd (mchp_corespi_interrupt overflow_only_m1))
               = l ++ [FinalizeCurrentTransfer].
Proof.
  assert (H : Z.land (pending_causes overflow_only_m1) fault_causes <> 0)
    by (vm_compute; discriminate).
  split; [exact H|].
  split; [exact (proj1 (interrupt_fault overflow_only_m1 H))
         |exact (proj1 (proj2 (interrupt_fault overflow_only_m1 H)))].
Defined.

Lemma interrupt_txdone_witness :
  wf_spi (spi (on_hw loopback scenario_m1))
  /\ Z.land (pending_causes (on_hw loopback scenario_m1)) INT_TXDONE <> 0
  /\ fst (mchp_corespi_interrupt (on_hw loopback scenario_m1)) = IRQ_HANDLED.
Proof.
  assert (H1 : wf_spi (spi (on_hw loopback scenario_m1))).
  { unfold wf_spi, int_range, INT_MIN, INT_MAX.
    change (spi (on_hw loopback scenario_m1))
      with (Build_corespi 4128 8192 9 1 8 40 32).
    cbn [tx_buf rx_buf tx_len rx_len pending]. lia. }
  assert (H2 : Z.land (pending_causes (on_hw loopback scenario_m1)) INT_TXDONE <> 0)
    by (vm_compute; discriminate).
  split; [exact H1|]. split; [exact H2|].
  exact (proj1 (interrupt_txdone (on_hw loopback scenario_m1) H1 H2)).
Defined.

Lemma transfer_one_clock_unattainable_witness :
  mchp_corespi_transfer_one slow_xfer scenario_m0 =
  Some (- EINVAL,
        Build_machine (hw scenario_m0) (clk_rate scenario_m0) (spi scenario_m0)
                      (mem scenario_m0)
                      (log scenario_m0 ++ [DevErr (ClkGenFailed (xfer_speed_hz slow_xfer))])).
Proof.
  assert (H1 : 0 < xfer_speed_hz slow_xfer < 2 ^ 32) by (cbn; lia).
  assert (H2 : clk_rate scenario_m0 < 2 ^ 32) by (cbn; lia).
  assert (H3 : clk_divisor 0 CLK_GEN_MODE0_MAX * xfer_speed_hz slow_xfer
               < clk_rate scenario_m0) by reflexivity.
  assert (H4 : clk_divisor 1 CLK_GEN_MODE1_MAX * xfer_speed_hz slow_xfer
               < clk_rate scenario_m0) by reflexivity.
  exact (transfer_one_clock_unattainable slow_xfer scenario_m0 H1 H2 H3 H4).
Defined.

Lemma on_hw_loopback (m : machine corespi_dev) :
  on_hw loopback m = on_hw (wire_shift (d_txfifo (hw m)) INT_TXDONE) m.
Proof. reflexivity. Qed.

Lemma scenario_session :
  session scenario_m0 scenario_xfer (on_hw loopback scenario_m2).
Proof.
  assert (S1 : session scenario_m0 scenario_xfer scenario_m1).
  { apply session_begin.
    - cbn. lia.
    - cbn. lia.
    - unfold MAX_LEN. cbn. lia.
    - vm_compute. reflexivity. }
  assert (S1b : session scenario_m0 scenario_xfer (on_hw loopback scenario_m1)).
  { rewrite on_hw_loopback. exact (session_next _ _ _ _ S1 (step_bus _ _ _)). }
  assert (S2 : session scenario_m0 scenario_xfer scenario_m2).
  { change scenario_m2 with (snd (mchp_corespi_interrupt (on_hw loopback scenario_m1))).
    exact (session_next _ _ _ _ S1b (step_irq _)). }
  rewrite on_hw_loopback. exact (session_next _ _ _ _ S2 (step_bus _ _ _)).
Qed.

Lemma session_accounting_witness :
  session scenario_m0 scenario_xfer (on_hw loopback scenario_m2)
  /\ fifos_empty scenario_m0
  /\ pending (spi scenario_m3) = 0 /\ tx_len (spi scenario_m3) = 0
  /\ rx_len (spi scenario_m3) = 0.
Proof.
  assert (He : fifos_empty scenario_m0) by (split; reflexivity).
  split; [exact scenario_session|]. split; [exact He|].
  change scenario_m3 with (snd (mchp_corespi_interrupt (on_hw loopback scenario_m2))).
  assert (Hc : completes_normally (on_hw loopback scenario_m2)
                 (snd (mchp_corespi_interrupt (on_hw loopback scenario_m2)))).
  { split; [reflexivity|]. split; vm_compute; reflexivity. }
  exact (proj2 (proj2 (session_accounting _ _ _ scenario_session) He) _
           (step_irq (on_hw loopback scenario_m2)) Hc).
Defined.

(** C5 as stated fails on the code: the driver never empties the FIFOs,
    and a session submitted to a controller that holds stale bytes breaks
    the accounting.  After two transfers ended by a fault both FIFOs hold
    32 bytes.  A transfer of 8 bytes submitted then queues nothing, the
    output FIFO being full; the transfer-done interrupt that follows
    drains 8 stale bytes, queues nothing again and finalises with no fault
    raised: the session has completed normally with [tx_len = 8] and
    [pending = -8]. *)
Lemma session_accounting_counterexample :
  session stale_m0 short_xfer stale_m2
  /\ session_step stale_m2 stale_m3
  /\ completes_normally stale_m2 stale_m3
  /\ tx_len (spi stale_m3) = 8 /\ rx_len (spi stale_m3) = 0
  /\ pending (spi stale_m3) = -8
  /\ ~ 0 <= pending (spi stale_m3).
Proof.
  assert (S1 : session stale_m0 short_xfer stale_m1).
  { apply session_begin.
    - cbn. lia.
    - cbn. lia.
    - unfold MAX_LEN. cbn. lia.
    - vm_compute. reflexivity. }
  split; [exact (session_next _ _ _ _ S1 (step_bus _ _ _))|].
  split; [exact (step_irq stale_m2)|].
  split; [split; [reflexivity|split; vm_compute; reflexivity]|].
  assert (Hp : pending (spi stale_m3) = -8) by (vm_compute; reflexivity).
  split; [vm_compute; reflexivity|]. split; [vm_compute; reflexivity|].
  split; [exact Hp|]. rewrite Hp. lia.
Qed.

Lemma write_fifo_filler_witness :
  tx_data_writes (new_events filler_machine (snd (mchp_corespi_write_fifo filler_machine)))
  = [0xaa; 0xaa; 0xaa]
  /\ Forall (fun b => b = 0xaa)
            (tx_data_writes
               (new_events filler_machine (snd (mchp_corespi_write_fifo filler_machine)))).
Proof.
  split; [vm_compute; reflexivity|].
  assert (Hr : int_range (tx_len (spi filler_machine)))
    by (unfold int_range, INT_MIN, INT_MAX; cbn; lia).
  exact (proj1 (write_fifo_filler filler_machine eq_refl Hr)).
Defined.

Lemma read_fifo_discards_witness :
  rx_count (new_events discard_machine (snd (mchp_corespi_read_fifo discard_machine))) = 3
  /\ mem (snd (mchp_corespi_read_fifo discard_machine)) = mem discard_machine.
Proof.
  split; [vm_compute; reflexivity|].
  assert (Hr : int_range (rx_len (spi discard_machine)))
    by (unfold int_range, INT_MIN, INT_MAX; cbn; lia).
  assert (Hp : INT_MIN + FIFO_DEPTH <= pending (spi discard_machine) <= INT_MAX)
    by (unfold INT_MIN, INT_MAX, FIFO_DEPTH; cbn; lia).
  exact (proj1 (read_fifo_discards discard_machine eq_refl Hr Hp)).
Defined.

Lemma zero_length_transfer_witness :
  exists m1,
    mchp_corespi_transfer_one zero_xfer scenario_m0 = Some (1, m1)
    /\ fifo_quiet (new_events scenario_m0 m1)
    /\ finalized (new_events scenario_m0 m1) = false.
Proof.
  assert (Ht : 0 <= xfer_tx_buf zero_xfer) by (cbn; lia).
  assert (Hr : 0 <= xfer_rx_buf zero_xfer) by (cbn; lia).
  assert (Hs : 0 < xfer_speed_hz zero_xfer < 2 ^ 32) by (cbn; lia).
  assert (Hc : 0 < clk_rate scenario_m0 < 2 ^ 32) by (cbn; lia).
  assert (Hle : clk_rate scenario_m0 <= 65535 * xfer_speed_hz zero_xfer)
    by (cbn; lia).
  destruct (zero_length_transfer zero_xfer scenario_m0 eq_refl Ht Hr Hs Hc Hle)
    as (m1 & E & Q & F & _).
  exists m1. split; [exact E|]. split; [exact Q|exact F].
Defined.

(** C9 as stated fails on the code: a transfer of length 0 is not
    completed by its submission.  In the scenario
    [mchp_corespi_transfer_one] returns 1, "transfer in progress", and
    has not finalised the transfer; the transfer stays pending as long as
    the controller raises no cause: the interrupt that finds none returns
    [IRQ_NONE] and finalises nothing. *)
Lemma zero_length_counterexample :
  mchp_corespi_transfer_one zero_xfer scenario_m0 = Some (1, zero_m1)
  /\ finalized (new_events scenario_m0 zero_m1) = false
  /\ pending_causes zero_m1 = 0
  /\ fst (mchp_corespi_interrupt zero_m1) = IRQ_NONE
  /\ finalized (new_events scenario_m0 zero_m2) = false.
Proof. by_evaluation. Qed.

Lemma set_cs_frame_witness :
  exists v w,
    new_events scenario_m1 (snd (mchp_corespi_set_cs 3 false scenario_m1))
    = [MmioRead REG_SLAVE_SELECT v; MmioWrite REG_SLAVE_SELECT w]
    /\ Z.testbit w 3 = true.
Proof.
  destruct (set_cs_frame scenario_m1 3 false ltac:(lia))
    as (v & w & Hn & _ & _ & Hb & _).
  exists v, w. split; [exact Hn|]. exact (Hb 3 ltac:(lia)).
Defined.
(** ** Bit-level reasoning on 32-bit register values *)

Lemma below32_cases (P : Z -> Prop) :
  (forall k : nat, (k < 32)%nat -> P (Z.of_nat k)) ->
  forall i, 0 <= i < 32 -> P i.
Proof. intros H i Hi. rewrite <- (Z2Nat.id i) by lia. apply H. lia. Qed.

Lemma u32_testbit_low x i : 0 <= i < 32 -> Z.testbit (u32 x) i = Z.testbit x i.
Proof. intros Hi. unfold u32. apply Z.mod_pow2_bits_low. lia. Qed.

Lemma u16_testbit_low x i : 0 <= i < 16 -> Z.testbit (u16 x) i = Z.testbit x i.
Proof. intros Hi. unfold u16. apply Z.mod_pow2_bits_low. lia. Qed.

Lemma u16_testbit_high x i : 16 <= i -> Z.testbit (u16 x) i = false.
Proof. intros Hi. unfold u16. apply Z.mod_pow2_bits_high. lia. Qed.

Lemma not32_testbit x i : 0 <= i < 32 -> Z.testbit (not32 x) i = negb (Z.testbit x i).
Proof.
  intros Hi. unfold not32. rewrite u32_testbit_low by lia.
  apply Z.lnot_spec. lia.
Qed.

(** Evaluates [Z.testbit c k] for the closed registers constants [c]. *)
Ltac closed_term c :=
  lazymatch c with
  | context [?v] => tryif is_var v then fail else idtac
  end.

Ltac eval_const_bits :=
  repeat match goal with
  | |- context [Z.testbit ?c ?k] =>
      closed_term c; closed_term k;
      let b := eval vm_compute in (Z.testbit c k) in
      change (Z.testbit c k) with b
  end.

Ltac push_testbit :=
  repeat first
    [ rewrite u32_testbit_low by lia
    | rewrite Z.lor_spec
    | rewrite Z.land_spec
    | rewrite not64_testbit by lia
    | rewrite not32_testbit by lia
    | rewrite s32_testbit_low by lia ].

Ltac solve_bool :=
  cbn [andb orb negb];
  rewrite ?andb_true_r, ?andb_false_r, ?orb_true_r, ?orb_false_r;
  cbn [andb orb negb];
  try reflexivity;
  repeat match goal with
  | |- context [Z.testbit ?v ?k] => destruct (Z.testbit v k); cbn [andb orb negb]
  end;
  try reflexivity.

(** Settles a goal [forall i, 0 <= i < 32 -> Z.testbit w i = ...] bit
    by bit. *)
Ltac each_bit tac :=
  apply below32_cases;
  let k := fresh "k" in
  let Hk := fresh "Hk" in
  intros k Hk;
  do 32 (destruct k as [|k];
         [ clear Hk; simpl Z.of_nat; tac | ]);
  exfalso; lia.

Ltac reg_bits :=
  each_bit ltac:(cbv [bit_in existsb Z.eqb Pos.eqb orb];
                 push_testbit; eval_const_bits; solve_bool).

Lemma u32_bounds x : 0 <= u32 x < 2 ^ 32.
Proof. apply u32_range. Qed.

(** The same for values that hold the frame count field. *)
Ltac field_bits :=
  each_bit ltac:(cbv [start_bits bit_in existsb Z.eqb Pos.eqb Z.leb Z.ltb Z.compare
                      Pos.compare Pos.compare_cont andb orb negb];
                 push_testbit; unfold CONTROL_FRAMECNT_SHIFT;
                 rewrite ?Z.shiftl_spec by lia;
                 cbv [Z.sub Z.add Z.opp Z.pos_sub Pos.pred_double
                      Z.succ_double Z.pred_double Z.double];
                 rewrite ?(Z.testbit_neg_r _ (Z.neg _)) by lia;
                 rewrite ?u16_testbit_low by lia;
                 rewrite ?u16_testbit_high by lia;
                 rewrite ?Z.land_spec;
                 eval_const_bits; solve_bool).
(** ** Register programming on the modelled controller *)

Lemma log_grows_refl {A : Type} (l : list A) : exists l', l = l ++ l'.
Proof. exists []. now rewrite app_nil_r. Qed.

Lemma log_grows_snoc {A : Type} (l0 l : list A) (a : A) :
  (exists l', l = l0 ++ l') -> exists l', l ++ [a] = l0 ++ l'.
Proof. intros [l' ->]. exists (l' ++ [a]). now rewrite app_assoc. Qed.

Create HintDb log_grows.
#[local] Hint Resolve log_grows_refl log_grows_snoc : log_grows.

Ltac regs_only_tac :=
  unfold regs_only, with_control, with_frame_size, with_clk_gen, with_ssel,
    with_framesup, with_mis;
  cbn [hw clk_rate spi mem log d_control d_frame_size d_clk_gen d_ssel
       d_framesup d_mis d_rxfifo d_txfifo];
  split; [reflexivity|]; split; [reflexivity|]; split; [reflexivity|];
  split; [reflexivity|]; auto 20 with log_grows.

Lemma framesup_zero len : u16 (Z.land len 0xffff0000) = 0.
Proof.
  apply Z.bits_inj'. intros i Hi. rewrite Z.bits_0.
  destruct (Z.ltb_spec i 16).
  - rewrite u16_testbit_low, Z.land_spec by lia.
    change 0xffff0000 with (Z.shiftl (Z.ones 16) 16).
    rewrite Z.shiftl_spec_low by lia. apply andb_false_r.
  - now apply u16_testbit_high.
Qed.

Lemma mode_select mode :
  Z.land (u32 mode) SPI_MODE_X_MASK
  = Z.b2z (Z.testbit mode 0) + 2 * Z.b2z (Z.testbit mode 1).
Proof.
  change SPI_MODE_X_MASK with (Z.ones 2). rewrite Z.land_ones by lia.
  rewrite Z.bit0_mod, Z.testbit_spec' by lia.
  unfold u32. change (2 ^ 32) with 4294967296. change (2 ^ 2) with 4.
  change (2 ^ 1) with 2.
  Z.to_euclidean_division_equations. lia.
Qed.

Section Registers.

Local Arguments u32 : simpl never.
Local Arguments u16 : simpl never.
Local Arguments Z.lor : simpl never.
Local Arguments Z.land : simpl never.
Local Arguments Z.shiftl : simpl never.
Local Arguments not64 : simpl never.
Local Arguments not32 : simpl never.
Local Arguments Z.testbit : simpl never.

Ltac final_control :=
  match goal with
  | |- exists w, regs_only _ ?m' _ /\ _ => exists (d_control (hw m'))
  end.

Ltac open_machine m :=
  let d := fresh "d" in
  destruct m as [d rate0 spi0 mem0 log0];
  destruct d as [ctl fsz cgen ssel fsup mis rxf txf].

(** X1.  On the modelled controller, [mchp_corespi_enable_ints] sets the
    four interrupt-enable bits 4..7 of [CONTROL] and the enable bit 0, and
    [mchp_corespi_disable_ints] clears the bits 4..7 and sets bit 0.  In
    both cases every other bit of [CONTROL], every other register, the
    FIFOs, the driver structure and the memory are as before. *)
Theorem ints_enable_disable (m : machine corespi_dev) :
  (exists w,
     regs_only m (snd (mchp_corespi_enable_ints m)) (with_control w (hw m))
     /\ rewritten [0; 4; 5; 6; 7] [] (d_control (hw m)) w)
  /\ (exists w,
     regs_only m (snd (mchp_corespi_disable_ints m)) (with_control w (hw m))
     /\ rewritten [0] [4; 5; 6; 7] (d_control (hw m)) w).
Proof.
  open_machine m. split; final_control; cbn; (split; [solve [regs_only_tac]|]);
    (unfold bits_as, rewritten; split; [apply u32_range|]); reg_bits.
Qed.

(** X2.  On the modelled controller, [mchp_corespi_prepare_message]
    returns 0 and leaves [FRAME_SIZE] at 8, bit 24 of [CONTROL] (SPO)
    equal to the [SPI_CPOL] flag of the mode (bit 1), bit 25 (SPH) equal
    to its [SPI_CPHA] flag (bit 0) and the enable bit set; no other bit of
    [CONTROL], no other register and neither FIFO changes. *)
Theorem prepare_message_programs (m : machine corespi_dev) (mode : Z) :
  fst (mchp_corespi_prepare_message mode m) = 0
  /\ exists w,
       regs_only m (snd (mchp_corespi_prepare_message mode m))
         (with_frame_size DEFAULT_FRAMESIZE (with_control w (hw m)))
       /\ bits_as (fun i => if i =? 0 then Some true
                            else if i =? 24 then Some (Z.testbit mode 1)
                            else if i =? 25 then Some (Z.testbit mode 0)
                            else None)
                  (d_control (hw m)) w.
Proof.
  open_machine m. split; [reflexivity|].
  unfold mchp_corespi_prepare_message, mchp_corespi_set_mode.
  rewrite mode_select.
  destruct (Z.testbit mode 0), (Z.testbit mode 1); final_control; cbn;
    change (u32 DEFAULT_FRAMESIZE) with DEFAULT_FRAMESIZE; (split; [solve [regs_only_tac]|]); (unfold bits_as, rewritten; split; [apply u32_range|]);
    each_bit ltac:(cbv [Z.eqb Pos.eqb]; push_testbit; eval_const_bits; solve_bool).
Qed.

(** X3.  On the modelled controller, [mchp_corespi_init] leaves
    [FRAME_SIZE] at 8 and [SLAVE_SELECT] at [SSELOUT | SSEL_DIRECT], sets
    the bits 0 (enable), 4..7 (interrupt enables), 26 (SPS) and 29
    (BIGFIFO) of [CONTROL] and clears bit 31 (reset); it reports the source
    clock rate as the maximum speed.  Every other bit of [CONTROL] keeps
    the value it had: in particular the master bit 1 and the mode field
    2..3, which the function changes on a local copy only. *)
Theorem init_programs (m : machine corespi_dev) :
  fst (mchp_corespi_init m) = u32 (clk_rate m)
  /\ exists w,
       regs_only m (snd (mchp_corespi_init m))
         (with_ssel (Z.lor SSELOUT SSEL_DIRECT)
            (with_frame_size DEFAULT_FRAMESIZE (with_control w (hw m))))
       /\ rewritten [0; 4; 5; 6; 7; 26; 29] [31] (d_control (hw m)) w
       /\ Z.testbit w 1 = Z.testbit (d_control (hw m)) 1.
Proof.
  open_machine m. split; [reflexivity|].
  final_control. cbn. change (u32 DEFAULT_FRAMESIZE) with DEFAULT_FRAMESIZE.
  change (u32 (Z.lor SSELOUT SSEL_DIRECT)) with (Z.lor SSELOUT SSEL_DIRECT).
  split; [solve [regs_only_tac]|].
  split; [unfold rewritten; split; [apply u32_range|reg_bits]|].
  push_testbit; eval_const_bits; solve_bool.
Qed.

(** X4.  On the modelled controller, [mchp_corespi_remove] leaves the
    controller disabled with its four interrupt enables cleared: the bits
    0 and 4..7 of [CONTROL] are 0 and nothing else changes. *)
Theorem remove_quiesces (m : machine corespi_dev) :
  exists w,
    regs_only m (snd (mchp_corespi_remove m)) (with_control w (hw m))
    /\ rewritten [] [0; 4; 5; 6; 7] (d_control (hw m)) w.
Proof.
  open_machine m. final_control. cbn. split; [solve [regs_only_tac]|].
  unfold rewritten; split; [apply u32_range|reg_bits].
Qed.

(** X5.  On the modelled controller and for every [len],
    [mchp_corespi_set_xfer_size len] puts the low 16 bits of [len] in the
    frame count field (bits 8..23) of [CONTROL], sets the enable bit and
    leaves the other bits of [CONTROL] as they were; [FRAMESUP] is
    written with 0 whatever [len] is, so that the frame count programmed
    is [len mod 2^16]. *)
Theorem set_xfer_size_programs (m : machine corespi_dev) (len : Z) :
  exists w,
    regs_only m (snd (mchp_corespi_set_xfer_size len m))
      (with_framesup 0 (with_control w (hw m)))
    /\ bits_as (fun i => if i =? 0 then Some true
                         else if (8 <=? i) && (i <? 24)
                              then Some (Z.testbit len (i - 8))
                         else None)
               (d_control (hw m)) w
    /\ framecnt w = len mod 2 ^ 16.
Proof.
  open_machine m. final_control. cbn. rewrite framesup_zero. change (u32 0) with 0.
  split; [solve [regs_only_tac]|].
  match goal with |- bits_as _ _ ?w /\ _ => set (W := w) end.
  assert (B : forall i, 0 <= i < 32 ->
    Z.testbit W i
    = if i =? 0 then true
      else if (8 <=? i) && (i <? 24) then Z.testbit len (i - 8)
      else Z.testbit ctl i).
  { subst W.
    each_bit ltac:(cbv [Z.eqb Pos.eqb Z.leb Z.ltb Z.compare Pos.compare
                        Pos.compare_cont andb Z.sub Z.add Z.opp Z.pos_sub
                        Pos.pred_double Z.succ_double Z.pred_double Z.double];
                   push_testbit; unfold CONTROL_FRAMECNT_SHIFT;
                   rewrite Z.shiftl_spec by lia;
                   cbv [Z.sub Z.add Z.opp Z.pos_sub Pos.pred_double
                        Z.succ_double Z.pred_double Z.double];
                   try rewrite (Z.testbit_neg_r _ (Z.neg _)) by lia;
                   try rewrite u16_testbit_low by lia;
                   try rewrite u16_testbit_high by lia;
                   try rewrite Z.land_spec;
                   eval_const_bits; solve_bool). }
  split; [unfold bits_as; split; [apply u32_range|]|].
  - intros i Hi. rewrite (B i Hi).
    destruct (i =? 0); [reflexivity|].
    destruct ((8 <=? i) && (i <? 24)); reflexivity.
  - unfold framecnt, CONTROL_FRAMECNT_SHIFT.
    change 65535 with (Z.ones 16). rewrite Z.land_ones by lia.
    change 65536 with (2 ^ 16).
    apply Z.bits_inj'. intros i Hi.
    destruct (Z.ltb_spec i 16).
    + rewrite !Z.mod_pow2_bits_low by lia.
      rewrite Z.shiftr_spec by lia. rewrite B by lia.
      destruct (Z.eqb_spec (i + 8) 0); [lia|].
      destruct (Z.leb_spec 8 (i + 8)); [|lia].
      destruct (Z.ltb_spec (i + 8) 24); [|lia].
      cbn [andb]. replace (i + 8 - 8) with i by lia. reflexivity.
    + now rewrite !Z.mod_pow2_bits_high by lia.
Qed.

(** X6.  On the modelled controller, [mchp_corespi_set_clk_gen] writes
    the divider of the driver structure to [CLK_GEN], makes bit 28 of
    [CONTROL] (the clock mode) 1 exactly when [clk_mode] is not 0, and sets
    the enable bit; the other bits of [CONTROL], the other registers and
    the FIFOs are as before. *)
Theorem set_clk_gen_programs (m : machine corespi_dev) :
  exists w,
    regs_only m (snd (mchp_corespi_set_clk_gen m))
      (with_clk_gen (u32 (clk_gen (spi m))) (with_control w (hw m)))
    /\ rewritten (0 :: if clk_mode (spi m) =? 0 then [] else [28])
                 (if clk_mode (spi m) =? 0 then [28] else [])
                 (d_control (hw m)) w.
Proof.
  open_machine m. final_control. cbn. destruct (clk_mode spi0 =? 0); (split; [solve [regs_only_tac]|]);
    (unfold bits_as, rewritten; split; [apply u32_range|reg_bits]).
Qed.

End Registers.
(** ** Chip-select lines *)

Lemma u32_ext a b :
  (forall i, 0 <= i < 32 -> Z.testbit a i = Z.testbit b i) -> u32 a = u32 b.
Proof.
  intros H. apply Z.bits_inj'. intros i Hi. rewrite !u32_testbit by lia.
  destruct (Z.ltb_spec i 32); [apply H; lia|reflexivity].
Qed.

(** Bit [i] of what [mchp_corespi_set_cs] computes from [reg]. *)
Lemma set_cs_bits reg cs disable i :
  0 <= cs < 32 -> 0 <= i < 32 ->
  Z.testbit (Z.lor (u32 (Z.land reg (not64 (BIT cs))))
                   (s32 (Z.shiftl (Z.b2z (negb disable)) cs))) i
  = if i =? cs then negb disable else Z.testbit reg i.
Proof.
  intros Hcs Hi.
  rewrite Z.lor_spec, u32_testbit_low, Z.land_spec, not64_testbit by lia.
  rewrite BIT_testbit, s32_testbit_low, Z.shiftl_spec by lia.
  rewrite (Z.eqb_sym cs i).
  destruct (Z.eqb_spec i cs) as [->|Hne].
  - rewrite Z.sub_diag. cbn [negb]. rewrite andb_false_r. cbn [orb].
    destruct disable; reflexivity.
  - cbn [negb]. rewrite andb_true_r.
    destruct (Z.ltb_spec i cs).
    + rewrite (Z.testbit_neg_r _ (i - cs)) by lia. apply orb_false_r.
    + assert (Hb : Z.testbit (Z.b2z (negb disable)) (i - cs) = false).
      { destruct disable; cbn [negb Z.b2z].
        - apply Z.bits_0.
        - replace 1 with (2 ^ 0) by reflexivity.
          rewrite Z.pow2_bits_eqb by lia. apply Z.eqb_neq. lia. }
      rewrite Hb. apply orb_false_r.
Qed.

Lemma cs_high_flag mode :
  (Z.land mode SPI_CS_HIGH =? 0) = negb (Z.testbit mode 2).
Proof.
  change SPI_CS_HIGH with (2 ^ 2). rewrite land_pow2 by lia.
  destruct (Z.testbit mode 2); reflexivity.
Qed.

Section SetupGeneric.
Context {HW : Type} {io : Mmio HW}.

(** X7.  [mchp_corespi_setup] returns 0.  For a device without
    [SPI_CS_HIGH] it accesses no register and leaves the machine as it
    is.  For a device with [SPI_CS_HIGH] on chip-select line [cs] in
    [0, 31] it reads [SLAVE_SELECT] once and writes it back once with bit
    [cs] set and every other bit as read; the driver structure and the
    memory are untouched. *)
Theorem setup_selects (m : machine HW) (mode cs : Z) :
  0 <= cs < 32 ->
  fst (mchp_corespi_setup mode cs m) = 0
  /\ (Z.testbit mode 2 = false -> snd (mchp_corespi_setup mode cs m) = m)
  /\ (Z.testbit mode 2 = true ->
      exists v w,
        mmio_only m (snd (mchp_corespi_setup mode cs m))
          [MmioRead REG_SLAVE_SELECT v; MmioWrite REG_SLAVE_SELECT w]
        /\ v = u32 (fst (readl (hw m) REG_SLAVE_SELECT))
        /\ hw (snd (mchp_corespi_setup mode cs m))
           = writel (snd (readl (hw m) REG_SLAVE_SELECT)) REG_SLAVE_SELECT w
        /\ rewritten [cs] [] v w).
Proof.
  intros Hcs.
  destruct (mchp_corespi_setup mode cs m) as [r m'] eqn:E. cbn [fst snd].
  unfold mchp_corespi_setup in E. rewrite cs_high_flag in E.
  unfold bind, ret in E.
  destruct (Z.testbit mode 2); cbn [negb] in E.
  - (* active high *)
    destruct (mchp_corespi_read REG_SLAVE_SELECT m) as [v m1] eqn:E1.
    apply read_inv in E1 as (H1 & Hv & Ev & Hh).
    match type of E with
    | context [mchp_corespi_write REG_SLAVE_SELECT ?x m1] =>
        set (w := x) in E;
        destruct (mchp_corespi_write REG_SLAVE_SELECT w m1) as [u m2] eqn:E2
    end.
    apply write_inv in E2 as (H2 & Hh2).
    assert (Ew : u32 w = w) by (subst w; apply u32_idem).
    rewrite Ew in *. injection E as <- <-.
    split; [reflexivity|]. split; [discriminate|]. intros _.
    exists v, w. split; [exact (mmio_only_trans _ _ _ _ _ H1 H2)|].
    split; [exact Ev|]. split; [congruence|].
    split; [subst w; apply u32_range|].
    intros i Hi. subst w. unfold bit_in. cbn [existsb].
    rewrite u32_testbit_low, Z.lor_spec, BIT_testbit by lia.
    rewrite orb_false_r, (Z.eqb_sym cs i).
    destruct (i =? cs); [apply orb_true_r|apply orb_false_r].
  - injection E as <- <-.
    split; [reflexivity|]. split; [reflexivity|discriminate].
Qed.

End SetupGeneric.

Section ChipSelectDevice.

Local Arguments u32 : simpl never.
Local Arguments s32 : simpl never.
Local Arguments BIT : simpl never.
Local Arguments Z.lor : simpl never.
Local Arguments Z.land : simpl never.
Local Arguments Z.shiftl : simpl never.
Local Arguments not64 : simpl never.
Local Arguments Z.testbit : simpl never.

Lemma set_cs_dev (m : machine corespi_dev) cs disable :
  hw (snd (mchp_corespi_set_cs cs disable m))
  = with_ssel (u32 (Z.lor (u32 (Z.land (u32 (d_ssel (hw m))) (not64 (BIT cs))))
                          (s32 (Z.shiftl (Z.b2z (negb disable)) cs))))
              (hw m).
Proof.
  destruct m as [d rate0 spi0 mem0 log0].
  destruct d as [ctl fsz cgen ssel fsup mis rxf txf].
  cbn. unfold with_ssel. cbn. now rewrite u32_idem.
Qed.

(** X8.  On the modelled controller, [mchp_corespi_set_cs] on a line
    [cs] in [0, 31] leaves bit [cs] of [SLAVE_SELECT] equal to [!disable]
    and changes no other bit and no other register.  Two calls on the
    same line leave what the second call alone would leave, and calls on
    two different lines give the same registers in either order. *)
Theorem set_cs_composes (m : machine corespi_dev) (cs cs' : Z) (b b' : bool) :
  0 <= cs < 32 -> 0 <= cs' < 32 ->
  (exists w,
     hw (snd (mchp_corespi_set_cs cs b m)) = with_ssel w (hw m)
     /\ rewritten (if b then [] else [cs]) (if b then [cs] else [])
                  (d_ssel (hw m)) w)
  /\ hw (snd (mchp_corespi_set_cs cs b' (snd (mchp_corespi_set_cs cs b m))))
     = hw (snd (mchp_corespi_set_cs cs b' m))
  /\ (cs <> cs' ->
      hw (snd (mchp_corespi_set_cs cs b (snd (mchp_corespi_set_cs cs' b' m))))
      = hw (snd (mchp_corespi_set_cs cs' b' (snd (mchp_corespi_set_cs cs b m))))).
Proof.
  intros Hcs Hcs'. split; [|split].
  - rewrite set_cs_dev. eexists. split; [reflexivity|].
    split; [apply u32_range|]. intros i Hi.
    rewrite u32_testbit_low, set_cs_bits, u32_testbit_low by lia.
    unfold bit_in. destruct b; cbn [existsb negb]; rewrite orb_false_r;
      destruct (i =? cs); reflexivity.
  - rewrite !set_cs_dev. unfold with_ssel. cbn [d_control d_frame_size d_clk_gen
      d_ssel d_framesup d_mis d_rxfifo d_txfifo]. f_equal.
    apply u32_ext. intros i Hi.
    rewrite !set_cs_bits by lia.
    destruct (Z.eqb_spec i cs) as [->|Hne]; [reflexivity|].
    rewrite !u32_testbit_low, set_cs_bits by lia.
    destruct (Z.eqb_spec i cs); [lia|].
    now rewrite u32_testbit_low by lia.
  - intros Hne. rewrite !set_cs_dev. unfold with_ssel.
    cbn [d_control d_frame_size d_clk_gen d_ssel d_framesup d_mis d_rxfifo d_txfifo].
    f_equal. apply u32_ext. intros i Hi.
    rewrite !set_cs_bits by lia.
    rewrite !u32_testbit_low by lia.
    rewrite !set_cs_bits by lia.
    rewrite !u32_testbit_low by lia.
    destruct (Z.eqb_spec i cs), (Z.eqb_spec i cs'); try reflexivity; lia.
Qed.

End ChipSelectDevice.
(** ** The clock divider outside the range of attainable targets *)

Lemma ulong_nonneg x : 0 <= ulong x.
Proof. unfold ulong. apply Z.mod_pos_bound. reflexivity. Qed.

(** X9.  Whatever the source clock rate and the target are, a divider
    computation that returns 0 has selected either clock mode 1 with a
    divider in [1, 255] or clock mode 0 with a divider in [0, 15], and has
    changed no other field of the driver structure; one that does not
    return 0 returns [-EINVAL] and leaves the structure as it was. *)
Theorem calculate_clkgen_range (clk t : Z) (s : mchp_corespi) r s' :
  mchp_corespi_calculate_clkgen clk s t = Some (r, s') ->
  ((r = - EINVAL /\ s' = s)
   \/ (r = 0
       /\ ((clk_mode s' = 1 /\ 1 <= clk_gen s' <= CLK_GEN_MODE1_MAX)
           \/ (clk_mode s' = 0 /\ 0 <= clk_gen s' <= CLK_GEN_MODE0_MAX))))
  /\ tx_buf s' = tx_buf s /\ rx_buf s' = rx_buf s
  /\ tx_len s' = tx_len s /\ rx_len s' = rx_len s /\ pending s' = pending s.
Proof.
  unfold mchp_corespi_calculate_clkgen.
  destruct (clk =? 0); [intros H; injection H as <- <-; auto 10|].
  destruct (DIV_ROUND_UP clk (ulong (2 * Z.min t clk))) as [q1|]; [|discriminate].
  cbn [obind].
  set (g1 := ulong (q1 - 1)).
  destruct (Z.gtb_spec g1 CLK_GEN_MODE1_MAX) as [H1|H1]; cbn [orb].
  2: destruct (Z.leb_spec g1 CLK_GEN_MIN) as [H2|H2].
  3: { intros H; injection H as <- <-. cbn.
       unfold CLK_GEN_MODE1_MAX, CLK_GEN_MIN in *.
       rewrite u32_small by (change (2 ^ 32) with 4294967296; lia).
       split; [right; split; [reflexivity|left; lia]|auto 10]. }
  all: destruct (DIV_ROUND_UP clk (Z.min t clk)) as [q0|]; [|discriminate];
    cbn [obind]; set (g0 := ulong (fls q0 - 1));
    pose proof (ulong_nonneg (fls q0 - 1)) as Hg0; fold g0 in Hg0;
    destruct (Z.gtb_spec g0 CLK_GEN_MODE0_MAX) as [H0|H0];
    intros H; injection H as <- <-; cbn; auto 10;
    unfold CLK_GEN_MODE0_MAX in *;
    rewrite u32_small by (change (2 ^ 32) with 4294967296; lia);
    (split; [right; split; [reflexivity|right; lia]|auto 10]).
Qed.

(** X10.  Three edges of the divider computation.  With a source clock
    rate of 0 it returns [-EINVAL] and changes nothing.  With a target of
    0 on a running clock it divides by zero.  With a target at or above
    the source clock rate it selects clock mode 0 with divider 0, the
    same as for a target equal to the source clock rate, so that the bus
    clock is half the source clock. *)
Theorem calculate_clkgen_edges (s : mchp_corespi) :
  (forall t, mchp_corespi_calculate_clkgen 0 s t = Some (- EINVAL, s))
  /\ (forall clk, 0 < clk -> mchp_corespi_calculate_clkgen clk s 0 = None)
  /\ (forall clk t, 0 < clk < 2 ^ 32 -> clk <= t ->
        mchp_corespi_calculate_clkgen clk s t
        = Some (0, set_clk_gen 0 (set_clk_mode 0 s))
        /\ effective_rate clk 0 0 = clk / 2).
Proof.
  split; [reflexivity|]. split.
  - intros clk Hc. unfold mchp_corespi_calculate_clkgen.
    destruct (Z.eqb_spec clk 0); [lia|].
    rewrite Z.min_l by lia. reflexivity.
  - intros clk t Hc Ht. split; [|reflexivity].
    assert (E : mchp_corespi_calculate_clkgen clk s t
                = mchp_corespi_calculate_clkgen clk s clk).
    { unfold mchp_corespi_calculate_clkgen.
      now rewrite (Z.min_r t clk), Z.min_id by lia. }
    rewrite E, calculate_clkgen_unfold by lia. cbv zeta.
    assert (E1 : clkgen_mode1 clk clk = 0).
    { unfold clkgen_mode1. apply Z.div_small. lia. }
    assert (E0 : clkgen_mode0 clk clk = 0).
    { unfold clkgen_mode0. rewrite Z.div_small by lia. reflexivity. }
    rewrite E1, E0. reflexivity.
Qed.
(** ** The FIFO loops on the modelled controller *)

Lemma u8_u32 x : u8 (u32 x) = u8 x.
Proof.
  unfold u8, u32. change (2 ^ 32) with (2 ^ 8 * 2 ^ 24).
  rewrite Z.rem_mul_r by lia.
  rewrite Z.mul_comm, Z.mod_add by lia. apply Z.mod_mod. lia.
Qed.

Lemma u8_idem x : u8 (u8 x) = u8 x.
Proof. unfold u8. apply Z.mod_mod. lia. Qed.

Lemma set_rx_buf_keep s :
  set_rx_buf (if rx_buf s =? 0 then 0 else rx_buf s + 0) s = s.
Proof.
  destruct s as [t r g md tl rl p]. unfold set_rx_buf. cbn.
  destruct (Z.eqb_spec r 0); subst; f_equal; lia.
Qed.

Lemma set_tx_buf_keep s :
  set_tx_buf (if tx_buf s =? 0 then 0 else tx_buf s + 0) s = s.
Proof.
  destruct s as [t r g md tl rl p]. unfold set_tx_buf. cbn.
  destruct (Z.eqb_spec t 0); subst; f_equal; lia.
Qed.

Lemma with_rxfifo_same d : with_rxfifo (d_rxfifo d) d = d.
Proof. now destruct d. Qed.

Lemma with_txfifo_same d : with_txfifo (d_txfifo d) d = d.
Proof. now destruct d. Qed.

(** The drain loop on the modelled controller takes
    [min(n, entries in the input FIFO)] entries, oldest first. *)
Lemma dev_read_fifo_loop n : forall i (m : machine corespi_dev) i' m',
  0 <= rx_buf (spi m) ->
  read_fifo_loop n i m = (i', m') ->
  let rx := d_rxfifo (hw m) in
  let k := Nat.min n (length rx) in
  i' = i + Z.of_nat k
  /\ hw m' = with_rxfifo (skipn k rx) (hw m)
  /\ clk_rate m' = clk_rate m
  /\ spi m' = set_rx_buf (if rx_buf (spi m) =? 0 then 0
                          else rx_buf (spi m) + Z.of_nat k) (spi m)
  /\ mem m' = (if rx_buf (spi m) =? 0 then mem m
               else store_bytes (mem m) (rx_buf (spi m)) (map u8 (firstn k rx))).
Proof.
  induction n as [|n IH]; intros i m i' m' Hp H.
  - cbn in H. injection H as <- <-. cbn.
    rewrite Z.add_0_r, with_rxfifo_same, set_rx_buf_keep.
    now destruct (rx_buf (spi m) =? 0).
  - cbn [read_fifo_loop] in H. unfold bind at 1 in H.
    rewrite dev_read_status_eq in H.
    destruct (dev_status_cases (hw m)) as (_ & E & _). rewrite E in H. clear E.
    destruct (d_rxfifo (hw m)) as [|b rest] eqn:Erx.
    + cbn in H. injection H as <- <-. cbn [hw clk_rate spi mem].
      cbn. rewrite Z.add_0_r, <- Erx, with_rxfifo_same, set_rx_buf_keep.
      now destruct (rx_buf (spi m) =? 0).
    + unfold bind at 1 in H. rewrite dev_read_rx_eq in H.
      cbn [hw clk_rate spi mem log] in H. rewrite Erx in H. cbn [hd tl] in H.
      unfold bind at 1, get_spi at 1 in H. cbn [spi] in H.
      unfold bind at 1 in H. rewrite u8_u32 in H.
      cbn [length Nat.min skipn firstn map].
      destruct (Z.eqb_spec (rx_buf (spi m)) 0) as [En|En].
      * cbn [ret] in H. apply IH in H; [|cbn [spi]; lia].
        cbn [hw spi mem clk_rate d_rxfifo] in H.
        destruct H as (Hi & Hh & Hk & Hs & Hm).
        rewrite En in Hs, Hm. cbn [Z.eqb] in Hs, Hm.
        repeat split; try assumption; try lia.
      * unfold bind at 1, store_byte at 1, modify_spi at 1 in H.
        cbn [hw clk_rate spi mem log] in H.
        apply IH in H; [|cbn; lia].
        cbn [hw spi mem clk_rate d_rxfifo] in H.
        destruct H as (Hi & Hh & Hk & Hs & Hm).
        unfold set_rx_buf in Hs, Hm. cbn [rx_buf] in Hs, Hm.
        destruct (Z.eqb_spec (rx_buf (spi m) + 1) 0) as [Ez|_]; [lia|].
        repeat split; try assumption; try lia.
        rewrite Hs. unfold set_rx_buf. cbn. f_equal. lia.
Qed.

(** The fill loop on the modelled controller pushes
    [min(n, room in the output FIFO)] bytes. *)
Lemma dev_write_fifo_loop n : forall i (m : machine corespi_dev) i' m',
  0 <= tx_buf (spi m) ->
  write_fifo_loop n i m = (i', m') ->
  let tx := d_txfifo (hw m) in
  let k := Nat.min n (32 - length tx) in
  i' = i + Z.of_nat k
  /\ hw m' = with_txfifo (tx ++ tx_bytes (mem m) (tx_buf (spi m)) k) (hw m)
  /\ clk_rate m' = clk_rate m
  /\ spi m' = set_tx_buf (if tx_buf (spi m) =? 0 then 0
                          else tx_buf (spi m) + Z.of_nat k) (spi m)
  /\ mem m' = mem m.
Proof.
  induction n as [|n IH]; intros i m i' m' Hp H.
  - cbn in H. injection H as <- <-. cbn.
    rewrite Z.add_0_r, set_tx_buf_keep. unfold tx_bytes.
    destruct (tx_buf (spi m) =? 0); cbn;
      now rewrite app_nil_r, with_txfifo_same.
  - cbn [write_fifo_loop] in H. unfold bind at 1 in H.
    rewrite dev_read_status_eq in H.
    destruct (dev_status_cases (hw m)) as (_ & _ & E). rewrite E in H. clear E.
    destruct (Nat.ltb_spec (length (d_txfifo (hw m))) 32) as [Hroom|Hfull].
    + unfold bind at 1, get_spi at 1 in H. cbn [hw clk_rate spi mem log] in H.
      unfold bind at 1 in H.
      assert (Ek : Nat.min (S n) (32 - length (d_txfifo (hw m)))
                   = S (Nat.min n (32 - (length (d_txfifo (hw m)) + 1)))) by lia.
      cbv zeta. rewrite Ek.
      destruct (Z.eqb_spec (tx_buf (spi m)) 0) as [En|En].
      * cbn [ret] in H. unfold bind at 1 in H.
        rewrite dev_write_tx_eq in H. cbn [hw clk_rate spi mem log] in H.
        destruct (Nat.ltb_spec (length (d_txfifo (hw m))) 32); [|lia].
        apply IH in H; [|cbn [spi]; lia].
        cbn [hw spi mem clk_rate d_txfifo] in H.
        rewrite length_app in H. cbn [length] in H.
        destruct H as (Hi & Hh & Hk & Hs & Hm).
        unfold tx_bytes in *. rewrite En in *. cbn [Z.eqb] in *.
        repeat split; try assumption; try lia.
        rewrite Hh. unfold with_txfifo. cbn. rewrite <- app_assoc. reflexivity.
      * unfold bind at 1, load_byte at 1 in H. unfold bind at 1, modify_spi at 1 in H.
        cbn [ret hw clk_rate spi mem log] in H. unfold bind at 1 in H.
        rewrite dev_write_tx_eq in H. cbn [hw clk_rate spi mem log] in H.
        destruct (Nat.ltb_spec (length (d_txfifo (hw m))) 32); [|lia].
        apply IH in H; [|cbn; lia].
        cbn [hw spi mem clk_rate d_txfifo] in H.
        rewrite length_app in H. cbn [length] in H.
        destruct H as (Hi & Hh & Hk & Hs & Hm).
        unfold set_tx_buf in Hs, Hh. cbn [tx_buf] in Hs, Hh.
        unfold tx_bytes in *.
        destruct (Z.eqb_spec (tx_buf (spi m) + 1) 0) as [Ez|_]; [lia|].
        destruct (Z.eqb_spec (tx_buf (spi m)) 0) as [Ez|_]; [lia|].
        repeat split; try assumption; try lia.
        -- rewrite Hh. unfold with_txfifo. cbn. rewrite <- app_assoc.
           rewrite u32_u8, u8_idem. reflexivity.
        -- rewrite Hs. unfold set_tx_buf. cbn. f_equal. lia.
    + cbn in H. injection H as <- <-. cbn [hw clk_rate spi mem].
      replace (32 - length (d_txfifo (hw m)))%nat with 0%nat by lia.
      rewrite Nat.min_0_r. cbn. rewrite Z.add_0_r, set_tx_buf_keep. unfold tx_bytes.
      destruct (tx_buf (spi m) =? 0); cbn;
        now rewrite app_nil_r, with_txfifo_same.
Qed.

Section DeviceFifo.

Local Arguments u32 : simpl never.
Local Arguments u16 : simpl never.
Local Arguments Z.lor : simpl never.
Local Arguments Z.land : simpl never.
Local Arguments Z.lnot : simpl never.
Local Arguments Z.shiftl : simpl never.
Local Arguments not64 : simpl never.

(** [mchp_corespi_set_xfer_size] on the modelled controller changes
    [CONTROL] and [FRAMESUP] only. *)
Lemma dev_set_xfer_size len (m : machine corespi_dev) :
  exists w,
    hw (snd (mchp_corespi_set_xfer_size len m))
    = with_framesup 0 (with_control w (hw m))
    /\ clk_rate (snd (mchp_corespi_set_xfer_size len m)) = clk_rate m
    /\ spi (snd (mchp_corespi_set_xfer_size len m)) = spi m
    /\ mem (snd (mchp_corespi_set_xfer_size len m)) = mem m.
Proof.
  destruct m as [d rate0 spi0 mem0 log0].
  destruct d as [ctl fsz cgen ssel fsup mis rxf txf].
  exists (d_control (hw (snd (mchp_corespi_set_xfer_size len
            (Build_machine (Build_dev ctl fsz cgen ssel fsup mis rxf txf)
                           rate0 spi0 mem0 log0))))).
  cbn. rewrite framesup_zero. repeat split; reflexivity.
Qed.

Lemma dev_read_fifo (m : machine corespi_dev) u m' :
  wf_spi (spi m) ->
  mchp_corespi_read_fifo m = (u, m') ->
  let rx := d_rxfifo (hw m) in
  let k := Nat.min (Z.to_nat (Z.min (rx_len (spi m)) FIFO_DEPTH)) (length rx) in
  hw m' = with_rxfifo (skipn k rx) (hw m)
  /\ clk_rate m' = clk_rate m
  /\ spi m' =
       set_pending (s32 (pending (spi m) - Z.of_nat k))
         (set_rx_len (rx_len (spi m) - Z.of_nat k)
            (set_rx_buf (if rx_buf (spi m) =? 0 then 0
                         else rx_buf (spi m) + Z.of_nat k) (spi m)))
  /\ mem m' = (if rx_buf (spi m) =? 0 then mem m
               else store_bytes (mem m) (rx_buf (spi m)) (map u8 (firstn k rx))).
Proof.
  intros (Wt & Wr & Wtl & Wrl & Wp) H. unfold mchp_corespi_read_fifo in H.
  unfold bind at 1, get_spi at 1 in H. unfold bind at 1 in H.
  destruct (read_fifo_loop _ 0 m) as [i m1] eqn:E.
  apply dev_read_fifo_loop in E; [|assumption].
  cbv zeta in E. destruct E as (Hi & Hh & Hk & Hs & Hm).
  unfold bind, modify_spi in H. cbn in H. injection H as _ H. subst m'.
  cbn [hw clk_rate spi mem]. cbv zeta.
  set (k := Nat.min _ _) in *.
  rewrite Z.add_0_l in Hi. subst i.
  repeat split; try assumption.
  rewrite Hs. unfold set_pending, set_rx_len, set_rx_buf; cbn.
  f_equal. apply s32_small.
  unfold int_range, INT_MIN, INT_MAX, FIFO_DEPTH in *. subst k. lia.
Qed.

Lemma dev_write_fifo (m : machine corespi_dev) u m' :
  wf_spi (spi m) ->
  mchp_corespi_write_fifo m = (u, m') ->
  let tx := d_txfifo (hw m) in
  let k := Nat.min (Z.to_nat (Z.min (tx_len (spi m)) FIFO_DEPTH)) (32 - length tx) in
  hw m' = with_txfifo (tx ++ tx_bytes (mem m) (tx_buf (spi m)) k)
            (hw (snd (mchp_corespi_set_xfer_size
                        (Z.min (tx_len (spi m)) FIFO_DEPTH) m)))
  /\ clk_rate m' = clk_rate m
  /\ spi m' =
       set_pending (s32 (pending (spi m) + Z.of_nat k))
         (set_tx_len (tx_len (spi m) - Z.of_nat k)
            (set_tx_buf (if tx_buf (spi m) =? 0 then 0
                         else tx_buf (spi m) + Z.of_nat k) (spi m)))
  /\ mem m' = mem m.
Proof.
  intros (Wt & Wr & Wtl & Wrl & Wp) H. unfold mchp_corespi_write_fifo in H.
  unfold bind at 1, get_spi at 1 in H. unfold bind at 1 in H.
  destruct (dev_set_xfer_size (Z.min (tx_len (spi m)) FIFO_DEPTH) m)
    as (w & Xh & Xk & Xs & Xm).
  destruct (mchp_corespi_set_xfer_size _ m) as [u0 m0] eqn:E0.
  cbn [snd] in *.
  unfold bind at 1 in H.
  destruct (write_fifo_loop _ 0 m0) as [i m1] eqn:E.
  apply dev_write_fifo_loop in E; [|congruence].
  cbv zeta in E. destruct E as (Hi & Hh & Hk & Hs & Hm).
  unfold bind, modify_spi in H. cbn in H. injection H as _ H. subst m'.
  cbn [hw clk_rate spi mem]. cbv zeta.
  assert (Etx : d_txfifo (hw m0) = d_txfifo (hw m)) by (rewrite Xh; reflexivity).
  rewrite Etx, Xs, Xm in *.
  set (k := Nat.min _ _) in *.
  rewrite Z.add_0_l in Hi. subst i.
  repeat split; try assumption; try congruence.
  rewrite Hs. unfold set_pending, set_tx_len, set_tx_buf; cbn.
  f_equal. apply s32_small.
  unfold int_range, INT_MIN, INT_MAX, FIFO_DEPTH in *. subst k. lia.
Qed.

End DeviceFifo.
(** ** Serving transfer-done on the modelled controller *)

Lemma drain_events_no_finalize l :
  forallb is_drain_event l = true -> finalized l = false.
Proof.
  induction l as [|[r v|r v|k|] l IH]; cbn; intros H; try discriminate; auto.
  apply andb_true_iff in H as [_ H]. auto.
Qed.

Lemma fill_events_no_finalize l :
  forallb is_fill_event l = true -> finalized l = false.
Proof.
  induction l as [|[r v|r v|k|] l IH]; cbn; intros H; try discriminate; auto.
  - apply andb_true_iff in H as [_ H]. auto.
  - apply andb_true_iff in H as [_ H]. auto.
Qed.

Lemma low_causes_clear mis :
  Z.land mis 0xf = 0 -> forall i, 0 <= i < 4 -> Z.testbit mis i = false.
Proof.
  intros H i Hi.
  assert (E : Z.testbit (Z.land mis 0xf) i = false) by (rewrite H; apply Z.bits_0).
  rewrite Z.land_spec in E. change 0xf with (Z.ones 4) in E.
  rewrite Z.ones_spec_low in E by lia. now rewrite andb_true_r in E.
Qed.

Lemma land_0xf_testbit x i :
  0 <= i -> Z.testbit (Z.land x 0xf) i = Z.testbit x i && (i <? 4).
Proof.
  intros Hi. rewrite Z.land_spec. change 0xf with (Z.ones 4).
  destruct (Z.ltb_spec i 4).
  - now rewrite Z.ones_spec_low by lia.
  - now rewrite Z.ones_spec_high by lia.
Qed.

(** The only cause pending after the bus has raised transfer-done on a
    controller that had none pending. *)
Lemma txdone_raised mis :
  Z.land mis 0xf = 0 ->
  Z.land (u32 (Z.lor mis (Z.land INT_TXDONE 0xf))) 0xf = INT_TXDONE.
Proof.
  intros H. apply Z.bits_inj'. intros i Hi.
  rewrite land_0xf_testbit by lia.
  destruct (Z.ltb_spec i 4) as [Hlt|Hge].
  - rewrite andb_true_r, u32_testbit_low, Z.lor_spec by lia.
    rewrite (low_causes_clear mis H) by lia. reflexivity.
  - rewrite andb_false_r. symmetry.
    change INT_TXDONE with (2 ^ 0). rewrite Z.pow2_bits_eqb by lia.
    apply Z.eqb_neq. lia.
Qed.

(** Acknowledging transfer-done leaves no cause pending when it was the
    only one. *)
Lemma txdone_cleared mis :
  Z.land mis 0xf = 0 ->
  Z.land (Z.land (Z.lor mis (Z.land INT_TXDONE 0xf)) (Z.lnot (u32 INT_TXDONE))) 0xf = 0.
Proof.
  intros H. apply Z.bits_inj'. intros i Hi.
  rewrite land_0xf_testbit, Z.bits_0 by lia.
  destruct (Z.ltb_spec i 4) as [Hlt|Hge]; [|apply andb_false_r].
  rewrite andb_true_r, Z.land_spec, Z.lor_spec, Z.lnot_spec by lia.
  rewrite (low_causes_clear mis H) by lia.
  change (Z.land INT_TXDONE 0xf) with (2 ^ 0).
  change (u32 INT_TXDONE) with (2 ^ 0).
  rewrite Z.pow2_bits_eqb by lia.
  destruct (0 =? i); reflexivity.
Qed.

Section TxdoneGeneric.
Context {HW : Type} {io : Mmio HW}.

(** An interrupt that carries the transfer-done cause alone, on any
    controller: the handler serves the cause and finalises exactly when
    nothing remains to be received. *)
Lemma interrupt_txdone_only (m : machine HW) :
  wf_spi (spi m) ->
  pending_causes m = INT_TXDONE ->
  exists fin m1 l,
    txdone_branch (snd (mchp_corespi_read REG_MIS m)) = (fin, m1)
    /\ hw (snd (mchp_corespi_interrupt m)) = hw m1
    /\ clk_rate (snd (mchp_corespi_interrupt m)) = clk_rate m1
    /\ spi (snd (mchp_corespi_interrupt m)) = spi m1
    /\ mem (snd (mchp_corespi_interrupt m)) = mem m1
    /\ log (snd (mchp_corespi_interrupt m)) = log m ++ l
    /\ finalized l = (rx_len (spi m1) =? 0)
    /\ fst (mchp_corespi_interrupt m) = IRQ_HANDLED.
Proof.
  intros Hwf Hc.
  destruct (mchp_corespi_read REG_MIS m) as [mis m0] eqn:E0.
  pose proof (pending_causes_read _ _ _ E0) as Hm. rewrite Hc in Hm.
  pose proof E0 as E0'.
  apply read_inv in E0' as ((L0 & K0 & S0 & M0) & _).
  cbn [snd].
  destruct (txdone_branch m0) as [fin m1] eqn:E1.
  assert (Hnz : Z.land mis 0xf <> 0) by (rewrite Hm; discriminate).
  assert (E1' : (if Z.land (Z.land mis 0xf) INT_TXDONE =? 0 then (false, m0)
                 else txdone_branch m0) = (fin, m1)).
  { rewrite Hm. exact E1. }
  destruct (interrupt_decompose m mis m0 E0 Hnz fin m1 E1')
    as (m' & Ei & (Lt & Kt & St & Mt) & Ht).
  rewrite Ei. cbn [fst snd].
  rewrite Hm in Lt, Ht.
  assert (Etail : irq_tail INT_TXDONE (spi m1) fin
                  = if fin then [FinalizeCurrentTransfer] else []).
  { unfold irq_tail. cbn. now destruct fin. }
  rewrite Etail in Lt, Ht.
  assert (Hwf0 : wf_spi (spi m0)) by (rewrite S0; exact Hwf).
  destruct (txdone_branch_inv m0 fin m1 Hwf0 E1)
    as (ld & lf & L1 & K1 & Dd & _ & _ & _ & _ & _ & Hlf0 & Hlf & _ & Hs & Hfin).
  assert (Fd : finalized ld = false) by now apply drain_events_no_finalize.
  assert (Ff : finalized lf = false).
  { destruct (Z.eq_dec (tx_len (spi m0)) 0) as [Ez|Enz].
    - now rewrite (Hlf0 Ez).
    - destruct (Hlf Enz) as (c0 & c1 & lw & -> & Hw).
      rewrite finalized_app, (fill_events_no_finalize lw Hw). reflexivity. }
  exists fin, m1,
    ([MmioRead REG_MIS mis] ++ [MmioWrite REG_INT_CLEAR INT_TXDONE] ++ ld ++ lf
     ++ (if fin then [FinalizeCurrentTransfer] else [])).
  split; [reflexivity|].
  split; [rewrite Ht; now destruct fin|].
  split; [assumption|]. split; [assumption|]. split; [assumption|].
  split; [rewrite Lt, L1, L0, <- !app_assoc; reflexivity|].
  split; [|reflexivity].
  rewrite !finalized_app, Fd, Ff. cbn [finalized existsb is_finalize orb].
  rewrite Hs. cbn [rx_len]. rewrite <- Hfin. now destruct fin.
Qed.

End TxdoneGeneric.

Lemma s32_int_range x : int_range (s32 x).
Proof.
  unfold int_range, INT_MIN, INT_MAX, s32.
  pose proof (Z.mod_pos_bound (x + 2 ^ 31) (2 ^ 32) eq_refl). lia.
Qed.

Lemma s32_idem x : s32 (s32 x) = s32 x.
Proof. apply s32_small, s32_int_range. Qed.

Lemma tx_bytes_none mm buf : tx_bytes mm buf 0 = [].
Proof. unfold tx_bytes. now destruct (buf =? 0). Qed.

Section TxdoneDevice.

Lemma dev_write_int_clear v (m : machine corespi_dev) u m' :
  mchp_corespi_write REG_INT_CLEAR v m = (u, m') ->
  hw m' = with_mis (Z.land (d_mis (hw m)) (Z.lnot (u32 v))) (hw m)
  /\ clk_rate m' = clk_rate m /\ spi m' = spi m /\ mem m' = mem m.
Proof. intros H. injection H as <-. subst m'. repeat split; reflexivity. Qed.

Lemma dev_read_mis (m : machine corespi_dev) :
  hw (snd (mchp_corespi_read REG_MIS m)) = hw m
  /\ clk_rate (snd (mchp_corespi_read REG_MIS m)) = clk_rate m
  /\ spi (snd (mchp_corespi_read REG_MIS m)) = spi m
  /\ mem (snd (mchp_corespi_read REG_MIS m)) = mem m
  /\ pending_causes m = Z.land (u32 (d_mis (hw m))) 0xf.
Proof. repeat split; reflexivity. Qed.

(** The transfer-done branch on the modelled controller: the cause is
    acknowledged, [min(rx_len, FIFO_DEPTH, entries available)] bytes are
    drained and [min(tx_len, FIFO_DEPTH, room)] bytes are queued. *)
Lemma dev_txdone_branch (m : machine corespi_dev) fin m' :
  wf_spi (spi m) ->
  txdone_branch m = (fin, m') ->
  let rx := d_rxfifo (hw m) in
  let tx := d_txfifo (hw m) in
  let kr := Nat.min (Z.to_nat (Z.min (rx_len (spi m)) FIFO_DEPTH)) (length rx) in
  let kt := Nat.min (Z.to_nat (Z.min (tx_len (spi m)) FIFO_DEPTH)) (32 - length tx) in
  let mem1 := if rx_buf (spi m) =? 0 then mem m
              else store_bytes (mem m) (rx_buf (spi m)) (map u8 (firstn kr rx)) in
  d_rxfifo (hw m') = skipn kr rx
  /\ d_txfifo (hw m') = tx ++ tx_bytes mem1 (tx_buf (spi m)) kt
  /\ d_mis (hw m') = Z.land (d_mis (hw m)) (Z.lnot (u32 INT_TXDONE))
  /\ d_clk_gen (hw m') = d_clk_gen (hw m)
  /\ d_ssel (hw m') = d_ssel (hw m)
  /\ d_frame_size (hw m') = d_frame_size (hw m)
  /\ clk_rate m' = clk_rate m
  /\ mem m' = mem1
  /\ spi m' =
       Build_corespi
         (if tx_buf (spi m) =? 0 then 0 else tx_buf (spi m) + Z.of_nat kt)
         (if rx_buf (spi m) =? 0 then 0 else rx_buf (spi m) + Z.of_nat kr)
         (clk_gen (spi m)) (clk_mode (spi m))
         (tx_len (spi m) - Z.of_nat kt)
         (rx_len (spi m) - Z.of_nat kr)
         (s32 (s32 (pending (spi m) - Z.of_nat kr) + Z.of_nat kt))
  /\ fin = (rx_len (spi m) - Z.of_nat kr =? 0).
Proof.
  intros Hwf H. pose proof Hwf as (Wt & Wr & Wtl & Wrl & Wp).
  unfold txdone_branch in H. unfold bind at 1 in H.
  destruct (mchp_corespi_write REG_INT_CLEAR INT_TXDONE m) as [u0 ma] eqn:Ea.
  apply dev_write_int_clear in Ea as (Ha & Ka & Sa & Ma).
  unfold bind at 1, get_spi at 1 in H. unfold bind at 1 in H.
  intros rx tx kr kt mem1.
  (* the drain *)
  assert (Hb : exists mb,
             when (negb (rx_len (spi ma) =? 0)) mchp_corespi_read_fifo ma = (tt, mb)
             /\ hw mb = with_rxfifo (skipn kr rx) (hw ma)
             /\ clk_rate mb = clk_rate m
             /\ spi mb =
                  set_pending (s32 (pending (spi m) - Z.of_nat kr))
                    (set_rx_len (rx_len (spi m) - Z.of_nat kr)
                       (set_rx_buf (if rx_buf (spi m) =? 0 then 0
                                    else rx_buf (spi m) + Z.of_nat kr) (spi m)))
             /\ mem mb = mem1).
  { assert (Erx : d_rxfifo (hw ma) = rx) by (rewrite Ha; reflexivity).
    destruct (Z.eqb_spec (rx_len (spi ma)) 0) as [Ez|Enz]; cbn [negb when].
    - exists ma. rewrite Sa in Ez.
      assert (Ek : kr = 0%nat) by (subst kr; rewrite Ez; reflexivity).
      subst mem1. rewrite Ek. cbn [skipn firstn map store_bytes Z.of_nat].
      rewrite <- Erx, with_rxfifo_same, Sa, Ma.
      rewrite !Z.sub_0_r, set_rx_buf_keep, s32_small by assumption.
      repeat split; try assumption.
      + now destruct (spi m).
      + now destruct (rx_buf (spi m) =? 0).
    - destruct (mchp_corespi_read_fifo ma) as [[] mb] eqn:Eb.
      exists mb. split; [reflexivity|].
      apply dev_read_fifo in Eb; [|rewrite Sa; exact Hwf].
      cbv zeta in Eb. rewrite Erx, Sa, Ma, Ka in Eb. exact Eb. }
  destruct Hb as (mb & Eb & Hb & Kb & Sb & Mb). rewrite Eb in H.
  unfold bind at 1, get_spi at 1 in H. unfold bind at 1 in H.
  assert (Wb : wf_spi (spi mb)).
  { rewrite Sb. unfold wf_spi, set_pending, set_rx_len, set_rx_buf; cbn.
    pose proof (s32_int_range (pending (spi m) - Z.of_nat kr)) as Hs32.
    assert (Hkr : 0 <= Z.of_nat kr <= Z.max 0 (Z.min (rx_len (spi m)) FIFO_DEPTH))
      by (subst kr; lia).
    unfold int_range, INT_MIN, INT_MAX, FIFO_DEPTH in *.
    destruct (rx_buf (spi m) =? 0); lia. }
  assert (Etl : tx_len (spi mb) = tx_len (spi m)) by (rewrite Sb; reflexivity).
  assert (Etb : tx_buf (spi mb) = tx_buf (spi m)) by (rewrite Sb; reflexivity).
  assert (Etx : d_txfifo (hw mb) = tx) by (rewrite Hb, Ha; reflexivity).
  (* the fill *)
  assert (Hc : exists mc,
             when (negb (tx_len (spi mb) =? 0)) mchp_corespi_write_fifo mb = (tt, mc)
             /\ d_txfifo (hw mc) = tx ++ tx_bytes mem1 (tx_buf (spi m)) kt
             /\ d_rxfifo (hw mc) = d_rxfifo (hw mb)
             /\ d_mis (hw mc) = d_mis (hw mb)
             /\ d_clk_gen (hw mc) = d_clk_gen (hw mb)
             /\ d_ssel (hw mc) = d_ssel (hw mb)
             /\ d_frame_size (hw mc) = d_frame_size (hw mb)
             /\ clk_rate mc = clk_rate m
             /\ spi mc =
                  set_pending (s32 (pending (spi mb) + Z.of_nat kt))
                    (set_tx_len (tx_len (spi mb) - Z.of_nat kt)
                       (set_tx_buf (if tx_buf (spi mb) =? 0 then 0
                                    else tx_buf (spi mb) + Z.of_nat kt) (spi mb)))
             /\ mem mc = mem1).
  { destruct (Z.eqb_spec (tx_len (spi mb)) 0) as [Ez|Enz]; cbn [negb when].
    - exists mb.
      assert (Ek : kt = 0%nat) by (subst kt; rewrite <- Etl, Ez; reflexivity).
      rewrite Ek. cbn [Z.of_nat]. rewrite tx_bytes_none, app_nil_r.
      rewrite set_tx_buf_keep, !Z.sub_0_r, !Z.add_0_r.
      destruct Wb as (_ & _ & _ & _ & Wpb).
      rewrite s32_small by assumption.
      repeat split; try assumption.
      now destruct (spi mb).
    - destruct (mchp_corespi_write_fifo mb) as [[] mc] eqn:Ec.
      exists mc. split; [reflexivity|].
      apply dev_write_fifo in Ec; [|exact Wb].
      cbv zeta in Ec. rewrite Etx, Etl, Etb, Mb, Kb in Ec.
      destruct Ec as (Hh & Hk & Hs & Hm).
      destruct (dev_set_xfer_size (Z.min (tx_len (spi m)) FIFO_DEPTH) mb)
        as (w & Xh & _).
      rewrite Xh in Hh. rewrite Hh. rewrite Etl, Etb.
      repeat split; assumption. }
  destruct Hc as (mc & Ec & Htx & Hrx & Hmis & Hcg & Hss & Hfs & Kc & Sc & Mc).
  rewrite Ec in H.
  unfold bind, get_spi, ret in H. injection H as <- <-.
  rewrite Htx, Hrx, Hmis, Hcg, Hss, Hfs, Hb, Ha, Sc, Sb.
  unfold set_pending, set_tx_len, set_tx_buf, set_rx_len, set_rx_buf; cbn.
  repeat split; assumption.
Qed.

End TxdoneDevice.
(** ** A transfer against a peer that echoes *)

Lemma load_bytes_length mm a n : length (load_bytes mm a n) = n.
Proof. revert a. induction n as [|n IH]; intros a; cbn; [reflexivity|now rewrite IH]. Qed.

Lemma load_bytes_ext m1 m2 n : forall a,
  (forall x, a <= x < a + Z.of_nat n -> m1 x = m2 x) ->
  load_bytes m1 a n = load_bytes m2 a n.
Proof.
  induction n as [|n IH]; intros a H; [reflexivity|].
  cbn [load_bytes]. rewrite (H a) by lia. f_equal. apply IH.
  intros x Hx. apply H. lia.
Qed.

Lemma map_u8_idem l : map u8 (map u8 l) = map u8 l.
Proof. rewrite map_map. apply map_ext. intros x. apply u8_idem. Qed.

(** Storing the bytes loaded from [a] at [b]. *)
Lemma store_loaded n : forall (mm m0 : memory) a b x,
  store_bytes mm b (map u8 (load_bytes m0 a n)) x
  = if (b <=? x) && (x <? b + Z.of_nat n) then u8 (m0 (x - b + a)) else mm x.
Proof.
  induction n as [|n IH]; intros mm m0 a b x.
  - cbn [load_bytes map store_bytes Z.of_nat].
    destruct (Z.leb_spec b x), (Z.ltb_spec x (b + 0)); cbn [andb]; try reflexivity; lia.
  - cbn [load_bytes map store_bytes]. rewrite IH. unfold store.
    destruct (Z.leb_spec (b + 1) x), (Z.ltb_spec x (b + 1 + Z.of_nat n)),
             (Z.leb_spec b x), (Z.ltb_spec x (b + Z.of_nat (S n))),
             (Z.eqb_spec x b); cbn [andb]; try lia; try reflexivity.
    + f_equal. f_equal. lia.
    + subst. f_equal. f_equal. lia.
Qed.

Lemma load_stored mm (m0 : memory) n : forall a b,
  (forall x, b <= x < b + Z.of_nat n -> mm x = u8 (m0 (x - b + a))) ->
  load_bytes mm b n = map u8 (load_bytes m0 a n).
Proof.
  induction n as [|n IH]; intros a b H; [reflexivity|].
  cbn [load_bytes map]. rewrite (H b) by lia.
  replace (b - b + a) with a by lia. f_equal.
  apply IH. intros x Hx. rewrite H by lia. f_equal. f_equal. lia.
Qed.

Section EchoDevice.

Local Arguments u32 : simpl never.
Local Arguments u16 : simpl never.
Local Arguments Z.lor : simpl never.
Local Arguments Z.land : simpl never.
Local Arguments Z.lnot : simpl never.
Local Arguments Z.shiftl : simpl never.
Local Arguments not64 : simpl never.

(** [mchp_corespi_set_clk_gen] on the modelled controller changes
    [CONTROL] and [CLK_GEN] only. *)
Lemma dev_set_clk_gen (m : machine corespi_dev) :
  exists w,
    hw (snd (mchp_corespi_set_clk_gen m))
    = with_clk_gen (u32 (clk_gen (spi m))) (with_control w (hw m))
    /\ clk_rate (snd (mchp_corespi_set_clk_gen m)) = clk_rate m
    /\ spi (snd (mchp_corespi_set_clk_gen m)) = spi m
    /\ mem (snd (mchp_corespi_set_clk_gen m)) = mem m.
Proof.
  destruct m as [d rate0 spi0 mem0 log0].
  destruct d as [ctl fsz cgen ssel fsup mis rxf txf].
  exists (d_control (hw (snd (mchp_corespi_set_clk_gen
            (Build_machine (Build_dev ctl fsz cgen ssel fsup mis rxf txf)
                           rate0 spi0 mem0 log0))))).
  cbn. repeat split; reflexivity.
Qed.

(** [transfer_one_start] step by step. *)
Lemma transfer_one_start_eq {HW : Type} {io : Mmio HW}
    (xfer : spi_transfer) (m : machine HW) :
  transfer_one_start xfer m =
  let ma := snd (mchp_corespi_set_clk_gen m) in
  let mb := Build_machine (hw ma) (clk_rate ma)
              (Build_corespi (xfer_tx_buf xfer) (xfer_rx_buf xfer)
                 (clk_gen (spi ma)) (clk_mode (spi ma))
                 (s32 (xfer_len xfer)) (s32 (xfer_len xfer)) 0)
              (mem ma) (log ma) in
  let mc := snd (mchp_corespi_set_xfer_size
                   (if s32 (xfer_len xfer) >? FIFO_DEPTH then FIFO_DEPTH
                    else s32 (xfer_len xfer)) mb) in
  (1, snd (when (negb (tx_len (spi mc) =? 0)) mchp_corespi_write_fifo mc)).
Proof.
  unfold transfer_one_start. unfold bind at 1.
  destruct (mchp_corespi_set_clk_gen m) as [u ma]. cbn [snd].
  do 5 (unfold bind at 1, modify_spi at 1).
  cbn [hw clk_rate spi mem log].
  unfold bind at 1, get_spi at 1. unfold bind at 1.
  unfold set_pending, set_rx_len, set_tx_len, set_rx_buf, set_tx_buf.
  cbn [tx_buf rx_buf clk_gen clk_mode tx_len rx_len pending spi].
  destruct (mchp_corespi_set_xfer_size _ _) as [u' mc]. cbn [snd].
  unfold bind at 1, get_spi at 1. unfold bind at 1.
  destruct (when _ _ mc) as [u'' md]. reflexivity.
Qed.

(** The fill that follows when something is left to send. *)
Lemma dev_when_write_fifo (mc md : machine corespi_dev) :
  wf_spi (spi mc) ->
  snd (when (negb (tx_len (spi mc) =? 0)) mchp_corespi_write_fifo mc) = md ->
  let tx := d_txfifo (hw mc) in
  let kt := Nat.min (Z.to_nat (Z.min (tx_len (spi mc)) FIFO_DEPTH)) (32 - length tx) in
  d_txfifo (hw md) = tx ++ tx_bytes (mem mc) (tx_buf (spi mc)) kt
  /\ d_rxfifo (hw md) = d_rxfifo (hw mc)
  /\ d_mis (hw md) = d_mis (hw mc)
  /\ d_clk_gen (hw md) = d_clk_gen (hw mc)
  /\ d_ssel (hw md) = d_ssel (hw mc)
  /\ d_frame_size (hw md) = d_frame_size (hw mc)
  /\ d_framesup (hw md)
     = (if tx_len (spi mc) =? 0 then d_framesup (hw mc) else 0)
  /\ clk_rate md = clk_rate mc
  /\ spi md =
       set_pending (s32 (pending (spi mc) + Z.of_nat kt))
         (set_tx_len (tx_len (spi mc) - Z.of_nat kt)
            (set_tx_buf (if tx_buf (spi mc) =? 0 then 0
                         else tx_buf (spi mc) + Z.of_nat kt) (spi mc)))
  /\ mem md = mem mc.
Proof.
  intros Wc Ed tx kt.
  destruct (Z.eqb_spec (tx_len (spi mc)) 0) as [Ez|Enz]; cbn [negb when] in Ed.
  - cbn [ret snd] in Ed. subst md.
    assert (Ek : kt = 0%nat) by (subst kt; rewrite Ez; reflexivity).
    rewrite Ek. cbn [Z.of_nat]. rewrite tx_bytes_none, app_nil_r.
    rewrite set_tx_buf_keep, !Z.sub_0_r, !Z.add_0_r.
    destruct Wc as (_ & _ & _ & _ & Wpc).
    rewrite s32_small by assumption.
    repeat split; try assumption; try congruence.
    now destruct (spi mc).
  - destruct (mchp_corespi_write_fifo mc) as [[] md'] eqn:Ed'.
    cbn [snd] in Ed. subst md'.
    apply dev_write_fifo in Ed'; [|exact Wc].
    cbv zeta in Ed'. destruct Ed' as (Hh & Hk & Hs & Hm).
    destruct (dev_set_xfer_size (Z.min (tx_len (spi mc)) FIFO_DEPTH) mc)
      as (w2 & Xh & _).
    rewrite Xh in Hh. rewrite Hh.
    repeat split; assumption.
Qed.

(** The start of a transfer on the modelled controller. *)
Lemma dev_transfer_one_start (xfer : spi_transfer) (m : machine corespi_dev) r m' :
  0 <= xfer_tx_buf xfer -> 0 <= xfer_rx_buf xfer ->
  0 <= xfer_len xfer <= INT_MAX ->
  transfer_one_start xfer m = (r, m') ->
  let tx := d_txfifo (hw m) in
  let kt := Nat.min (Z.to_nat (Z.min (xfer_len xfer) FIFO_DEPTH)) (32 - length tx) in
  r = 1
  /\ d_rxfifo (hw m') = d_rxfifo (hw m)
  /\ d_txfifo (hw m') = tx ++ tx_bytes (mem m) (xfer_tx_buf xfer) kt
  /\ d_mis (hw m') = d_mis (hw m)
  /\ d_clk_gen (hw m') = u32 (clk_gen (spi m))
  /\ d_ssel (hw m') = d_ssel (hw m)
  /\ d_frame_size (hw m') = d_frame_size (hw m)
  /\ d_framesup (hw m') = 0
  /\ clk_rate m' = clk_rate m
  /\ mem m' = mem m
  /\ spi m' =
       Build_corespi
         (if xfer_tx_buf xfer =? 0 then 0 else xfer_tx_buf xfer + Z.of_nat kt)
         (xfer_rx_buf xfer) (clk_gen (spi m)) (clk_mode (spi m))
         (xfer_len xfer - Z.of_nat kt) (xfer_len xfer) (Z.of_nat kt).
Proof.
  intros Ht Hr Hl H tx kt.
  assert (Hs32 : s32 (xfer_len xfer) = xfer_len xfer)
    by (apply s32_small; unfold int_range, INT_MIN, INT_MAX in *; lia).
  rewrite transfer_one_start_eq in H. rewrite Hs32 in H.
  destruct (dev_set_clk_gen m) as (w & Ha & Ka & Sa & Ma).
  revert H Ha Ka Sa Ma.
  generalize (snd (mchp_corespi_set_clk_gen m)). intros ma.
  cbv zeta.
  match goal with
  | |- context [mchp_corespi_set_xfer_size ?len ?mb] =>
      destruct (dev_set_xfer_size len mb) as (w' & Hc & Kc & Sc & Mc);
      revert Hc Kc Sc Mc;
      generalize (snd (mchp_corespi_set_xfer_size len mb))
  end.
  cbn [hw clk_rate spi mem].
  intros mc Hc Kc Sc Mc H Ha Ka Sa Ma.
  assert (Wc : wf_spi (spi mc)).
  { rewrite Sc. unfold wf_spi, int_range, INT_MIN, INT_MAX in *. cbn. lia. }
  injection H as <- H.
  destruct (dev_when_write_fifo mc m' Wc H)
    as (Htx & Hrx & Hmis & Hcg & Hss & Hfs & Hfu & Kd & Sd & Md).
  assert (Ehc : d_rxfifo (hw mc) = d_rxfifo (hw m)
                /\ d_txfifo (hw mc) = d_txfifo (hw m)
                /\ d_mis (hw mc) = d_mis (hw m)
                /\ d_clk_gen (hw mc) = u32 (clk_gen (spi m))
                /\ d_ssel (hw mc) = d_ssel (hw m)
                /\ d_frame_size (hw mc) = d_frame_size (hw m)
                /\ d_framesup (hw mc) = 0).
  { rewrite Hc, Ha. repeat split; reflexivity. }
  destruct Ehc as (E1 & E2 & E3 & E4 & E5 & E6 & E7).
  rewrite Htx, Hrx, Hmis, Hcg, Hss, Hfs, Hfu, Kd, Md, Sd.
  rewrite E1, E2, E3, E4, E5, E6, E7, Sc, Kc, Mc, Ma, Ka, Sa.
  unfold set_pending, set_tx_len, set_tx_buf.
  cbn [tx_buf rx_buf clk_gen clk_mode tx_len rx_len pending].
  rewrite Z.add_0_l, s32_small
    by (unfold int_range, INT_MIN, INT_MAX, FIFO_DEPTH in *; lia).
  fold tx. fold kt.
  repeat split; try reflexivity.
  now destruct (xfer_len xfer =? 0).
Qed.

End EchoDevice.

Section Echo.
Variables (mem0 : memory) (A B L : Z).
Hypothesis HA : 0 < A.
Hypothesis HB : 0 < B.
Hypothesis HL : 0 <= L <= MAX_LEN.
Hypothesis Hdisjoint : A + L <= B \/ B + L <= A.

Lemma echo_begin (m0 : machine corespi_dev) (xfer : spi_transfer) m1 :
  mem m0 = mem0 -> xfer_tx_buf xfer = A -> xfer_rx_buf xfer = B -> xfer_len xfer = L ->
  d_rxfifo (hw m0) = [] -> d_txfifo (hw m0) = [] ->
  Z.land (d_mis (hw m0)) 0xf = 0 ->
  mchp_corespi_transfer_one xfer m0 = Some (1, m1) ->
  echo_state mem0 A B L 0 m1.
Proof.
  intros Em Et Er El Hrx Htx Hmis H. unfold MAX_LEN in HL.
  rewrite transfer_one_unfold in H.
  destruct (mchp_corespi_calculate_clkgen _ _ _) as [[r0 s']|] eqn:Ec; [|discriminate].
  apply calculate_clkgen_frame in Ec as (Hr0 & _).
  destruct (Z.eqb_spec r0 0) as [-> | Hne].
  2: { exfalso. apply some_inj in H. apply (f_equal fst) in H. cbn [fst] in H.
       subst r0. destruct Hr0 as [E|[E _]]; [contradiction|discriminate]. }
  apply some_inj in H.
  apply dev_transfer_one_start in H;
    [|rewrite Et; lia|rewrite Er; lia|rewrite El; unfold INT_MAX; lia].
  cbv zeta in H. cbn [hw clk_rate spi mem] in H.
  rewrite Htx, Hrx, Et, Er, El, Em in H. cbn [length app] in H.
  destruct H as (_ & Frx & Ftx & Fmis & _ & _ & _ & _ & _ & Fmem & Fspi).
  assert (Ek : Nat.min (Z.to_nat (Z.min L FIFO_DEPTH)) (32 - 0)
               = Z.to_nat (Z.min FIFO_DEPTH (L - 0))).
  { unfold FIFO_DEPTH. rewrite Z.sub_0_r. lia. }
  rewrite Ek in *.
  unfold echo_state. rewrite Frx, Ftx, Fmis, Fspi, Fmem.
  cbn [tx_buf rx_buf tx_len rx_len pending].
  unfold tx_bytes. destruct (Z.eqb_spec A 0) as [?|_]; [lia|].
  rewrite Z.add_0_r.
  rewrite Z2Nat.id by (unfold FIFO_DEPTH; lia).
  repeat split; try assumption; try lia.
  intros a. destruct (Z.leb_spec B a), (Z.ltb_spec a (B + 0)); cbn [andb];
    try reflexivity; lia.
Qed.

(** One round: the bus echoes the queued frames and the handler serves
    the transfer-done interrupt. *)
Lemma echo_step (o : Z) (m : machine corespi_dev) :
  0 <= o < L ->
  echo_state mem0 A B L o m ->
  let o' := o + Z.min FIFO_DEPTH (L - o) in
  echo_state mem0 A B L o' (irq (on_hw loopback m))
  /\ exists l, log (irq (on_hw loopback m)) = log m ++ l
               /\ finalized l = (o' =? L).
Proof.
  intros Ho (Hrx & Htx & Hmis & Htb & Hrb & Htl & Hrl & Hp & Hmem) o'.
  unfold MAX_LEN in HL.
  set (c := Z.min FIFO_DEPTH (L - o)) in *.
  assert (Hc : 1 <= c <= 32) by (unfold c, FIFO_DEPTH; lia).
  set (T := map u8 (load_bytes mem0 (A + o) (Z.to_nat c))) in *.
  assert (HT : length T = Z.to_nat c)
    by (unfold T; now rewrite length_map, load_bytes_length).
  set (ml := on_hw loopback m).
  (* what the bus leaves *)
  assert (Lrx : d_rxfifo (hw ml) = T).
  { unfold ml, on_hw, loopback, wire_shift. cbn [hw d_rxfifo].
    rewrite Hrx, Htx, Nat.min_id, firstn_all. cbn [app].
    unfold T at 1. rewrite map_u8_idem. fold T.
    apply firstn_all2. lia. }
  assert (Ltx : d_txfifo (hw ml) = []).
  { unfold ml, on_hw, loopback, wire_shift. cbn [hw d_txfifo].
    rewrite Htx, Nat.min_id. apply skipn_all. }
  assert (Lmis : d_mis (hw ml) = Z.lor (d_mis (hw m)) (Z.land INT_TXDONE 0xf))
    by reflexivity.
  assert (Lspi : spi ml = spi m) by reflexivity.
  assert (Lmem : mem ml = mem m) by reflexivity.
  assert (Llog : log ml = log m) by reflexivity.
  assert (Wl : wf_spi (spi ml)).
  { rewrite Lspi. unfold wf_spi, int_range, INT_MIN, INT_MAX.
    rewrite Htb, Hrb, Htl, Hrl, Hp. fold c. lia. }
  assert (Pl : pending_causes ml = INT_TXDONE).
  { destruct (dev_read_mis ml) as (_ & _ & _ & _ & ->).
    rewrite Lmis. now apply txdone_raised. }
  destruct (interrupt_txdone_only ml Wl Pl)
    as (fin & m1 & l & E1 & Ih & Ik & Is & Im & Il & If & _).
  destruct (dev_read_mis ml) as (Rh & Rk & Rs & Rm & _).
  revert E1 Rh Rk Rs Rm. generalize (snd (mchp_corespi_read REG_MIS ml)).
  intros mr E1 Rh Rk Rs Rm.
  apply dev_txdone_branch in E1; [|rewrite Rs; exact Wl].
  cbv zeta in E1. rewrite Rh, Rs, Rm, Lrx, Ltx, Lspi, Lmem, Lmis in E1.
  rewrite Htb, Hrb, Htl, Hrl, Hp in E1. fold c in E1.
  assert (Ekr : Nat.min (Z.to_nat (Z.min (L - o) FIFO_DEPTH)) (length T) = Z.to_nat c).
  { rewrite HT. unfold c, FIFO_DEPTH. lia. }
  set (c' := Z.min FIFO_DEPTH (L - o')).
  assert (Hc' : 0 <= c' <= 32) by (unfold c', o', FIFO_DEPTH; fold c; lia).
  assert (Ekt : Nat.min (Z.to_nat (Z.min (L - o - c) FIFO_DEPTH)) (32 - @length Z [])
                = Z.to_nat c').
  { cbn [length]. unfold c', o', FIFO_DEPTH. fold c. lia. }
  rewrite Ekr, Ekt in E1.
  rewrite !Z2Nat.id in E1 by lia.
  destruct (Z.eqb_spec (B + o) 0) as [?|_]; [lia|].
  destruct (Z.eqb_spec (A + o + c) 0) as [?|_]; [lia|].
  assert (EF : firstn (Z.to_nat c) T = T) by (rewrite <- HT; apply firstn_all).
  assert (ES : skipn (Z.to_nat c) T = []) by (rewrite <- HT; apply skipn_all).
  assert (EM : map u8 T = T) by (unfold T; apply map_u8_idem).
  rewrite EF, ES, EM in E1. cbn [app] in E1.
  destruct E1 as (Frx & Ftx & Fmis & _ & _ & _ & _ & Fmem & Fspi & Ffin).
  unfold irq. fold ml.
  assert (Mnew : forall a,
             mem m1 a = if (B <=? a) && (a <? B + o') then u8 (mem0 (a - B + A))
                        else mem0 a).
  { intros a. rewrite Fmem. unfold T. rewrite store_loaded, Z2Nat.id by lia.
    rewrite Hmem.
    unfold o'. fold c.
    destruct (Z.leb_spec (B + o) a), (Z.ltb_spec a (B + o + c)),
             (Z.leb_spec B a), (Z.ltb_spec a (B + o)),
             (Z.ltb_spec a (B + (o + c))); cbn [andb]; try lia; try reflexivity.
    f_equal. f_equal. lia. }
  split.
  - unfold echo_state. fold c'. rewrite Ih, Is.
    rewrite Frx, Ftx, Fmis, Fspi.
    cbn [tx_buf rx_buf tx_len rx_len pending app].
    split; [reflexivity|].
    split.
    { unfold tx_bytes. destruct (Z.eqb_spec (A + o + c) 0) as [?|_]; [lia|].
      f_equal. replace (A + o') with (A + o + c) by (unfold o'; fold c; lia).
      apply load_bytes_ext. intros x Hx. rewrite Z2Nat.id in Hx by lia.
      unfold T. rewrite store_loaded, Z2Nat.id by lia. rewrite Hmem.
      assert (Hx' : A <= x < A + L) by (unfold c', o' in *; fold c in Hx, Hc'; lia).
      destruct (Z.leb_spec (B + o) x), (Z.ltb_spec x (B + o + c)),
               (Z.leb_spec B x), (Z.ltb_spec x (B + o));
        cbn [andb]; try lia; try reflexivity. }
    split; [now apply txdone_cleared|].
    split; [unfold o'; fold c; lia|]. split; [unfold o'; fold c; lia|].
    split; [unfold o'; fold c; lia|]. split; [unfold o'; fold c; lia|].
    split.
    { rewrite Z.sub_diag. cbn [Z.add].
      rewrite !s32_small; unfold int_range, INT_MIN, INT_MAX; try lia.
      rewrite s32_small; unfold int_range, INT_MIN, INT_MAX; lia. }
    intros a. rewrite Im. apply Mnew.
  - exists l. rewrite Il, Llog. split; [reflexivity|].
    rewrite If, Fspi. cbn [rx_len]. unfold o'. fold c.
    destruct (Z.eqb_spec (L - o - c) 0), (Z.eqb_spec (o + c) L); try reflexivity; lia.
Qed.

(** [j] rounds, as long as the round before the last one still had
    something in flight. *)
Lemma pump_echo (j : nat) : forall (o : Z) (m : machine corespi_dev),
  0 <= o <= L ->
  (j = 0%nat \/ o + 32 * (Z.of_nat j - 1) < L) ->
  echo_state mem0 A B L o m ->
  echo_state mem0 A B L (Z.min L (o + 32 * Z.of_nat j)) (pump j m)
  /\ exists l, log (pump j m) = log m ++ l
               /\ finalized l = (0 <? Z.of_nat j) && (L <=? o + 32 * Z.of_nat j).
Proof.
  induction j as [|j IH]; intros o m Ho Hj He.
  - cbn [pump Z.of_nat]. rewrite Z.mul_0_r, Z.add_0_r, Z.min_r by lia.
    split; [exact He|]. exists []. now rewrite app_nil_r.
  - destruct Hj as [Hj|Hj]; [discriminate|].
    assert (Ho' : 0 <= o < L) by lia.
    destruct (echo_step o m Ho' He) as (He1 & l1 & L1 & F1).
    cbv zeta in He1, F1. unfold FIFO_DEPTH in He1, F1.
    set (o1 := o + Z.min 32 (L - o)) in *.
    cbn [pump].
    destruct (IH o1 (irq (on_hw loopback m))) as (He2 & l2 & L2 & F2).
    + unfold o1. lia.
    + destruct j as [|j]; [now left|right]. unfold o1. lia.
    + exact He1.
    + replace (Z.min L (o + 32 * Z.of_nat (S j))) with (Z.min L (o1 + 32 * Z.of_nat j))
        by (unfold o1; lia).
      split; [exact He2|].
      exists (l1 ++ l2). split; [rewrite L2, L1, app_assoc; reflexivity|].
      rewrite finalized_app, F1, F2.
      destruct (Z.eqb_spec o1 L), (Z.ltb_spec 0 (Z.of_nat j)),
               (Z.leb_spec L (o1 + 32 * Z.of_nat j)),
               (Z.ltb_spec 0 (Z.of_nat (S j))),
               (Z.leb_spec L (o + 32 * Z.of_nat (S j)));
        cbn [andb orb]; try reflexivity; unfold o1 in *; lia.
Qed.

End Echo.

(** X14.  A transfer of [L] bytes, [0 < L <= 65535], from a transmit
    buffer to a disjoint receive buffer, submitted to the modelled
    controller with empty FIFOs and no cause pending, against a peer that
    echoes every frame: after [ceil(L / 32)] rounds of bus activity and
    interrupt the receive buffer holds the [L] bytes of the transmit
    buffer, in order, and the rest of the memory is as it was; [tx_len],
    [rx_len] and [pending] are 0 and both FIFOs are empty; the transfer is
    finalised by the last of these interrupts and by none before it. *)
Theorem loopback_round_trip (m0 : machine corespi_dev) (xfer : spi_transfer)
    (m1 : machine corespi_dev) :
  0 < xfer_tx_buf xfer -> 0 < xfer_rx_buf xfer ->
  0 < xfer_len xfer <= MAX_LEN ->
  (xfer_tx_buf xfer + xfer_len xfer <= xfer_rx_buf xfer
   \/ xfer_rx_buf xfer + xfer_len xfer <= xfer_tx_buf xfer) ->
  d_rxfifo (hw m0) = [] -> d_txfifo (hw m0) = [] ->
  Z.land (d_mis (hw m0)) 0xf = 0 ->
  mchp_corespi_transfer_one xfer m0 = Some (1, m1) ->
  let n := Z.to_nat ((xfer_len xfer + 31) / 32) in
  load_bytes (mem (pump n m1)) (xfer_rx_buf xfer) (Z.to_nat (xfer_len xfer))
  = map u8 (load_bytes (mem m0) (xfer_tx_buf xfer) (Z.to_nat (xfer_len xfer)))
  /\ (forall a, ~ (xfer_rx_buf xfer <= a < xfer_rx_buf xfer + xfer_len xfer) ->
        mem (pump n m1) a = mem m0 a)
  /\ tx_len (spi (pump n m1)) = 0 /\ rx_len (spi (pump n m1)) = 0
  /\ pending (spi (pump n m1)) = 0
  /\ d_rxfifo (hw (pump n m1)) = [] /\ d_txfifo (hw (pump n m1)) = []
  /\ finalized (new_events m1 (pump n m1)) = true
  /\ (forall j, (j < n)%nat -> finalized (new_events m1 (pump j m1)) = false).
Proof.
  intros HA HB HL Hd Hrx Htx Hmis H n.
  set (A := xfer_tx_buf xfer) in *. set (B := xfer_rx_buf xfer) in *.
  set (L := xfer_len xfer) in *.
  assert (HL' : 0 <= L <= MAX_LEN) by lia.
  pose proof (echo_begin (mem m0) A B L HA HB HL' m0 xfer m1
                eq_refl eq_refl eq_refl eq_refl Hrx Htx Hmis H) as He.
  unfold MAX_LEN in *.
  pose proof (Z.div_mod (L + 31) 32 ltac:(lia)) as Hdm.
  pose proof (Z.mod_pos_bound (L + 31) 32 ltac:(lia)) as Hmb.
  assert (Hn : Z.of_nat n = (L + 31) / 32).
  { unfold n. apply Z2Nat.id. apply Z.div_pos; lia. }
  assert (Hround : forall j, (j <= n)%nat ->
             j = 0%nat \/ 0 + 32 * (Z.of_nat j - 1) < L).
  { intros j Hj. destruct j as [|j]; [now left|right]. lia. }
  destruct (pump_echo (mem m0) A B L HA HB HL' Hd n 0 m1 ltac:(lia)
              (Hround n (Nat.le_refl n)) He) as (Hend & l & Ll & Fl).
  rewrite Z.min_l in Hend by lia.
  destruct Hend as (Erx & Etx & _ & _ & _ & Etl & Erl & Ep & Emem).
  rewrite Z.sub_diag in *.
  replace (Z.min FIFO_DEPTH 0) with 0 in * by reflexivity.
  split; [|split; [|split; [|split; [|split; [|split; [|split; [|split]]]]]]].
  - apply load_stored. intros x Hx. rewrite Z2Nat.id in Hx by lia.
    rewrite Emem.
    destruct (Z.leb_spec B x), (Z.ltb_spec x (B + L)); cbn [andb];
      first [reflexivity|lia].
  - intros a Ha. rewrite Emem.
    destruct (Z.leb_spec B a), (Z.ltb_spec a (B + L)); cbn [andb];
      first [reflexivity|lia].
  - lia.
  - exact Erl.
  - exact Ep.
  - exact Erx.
  - exact Etx.
  - rewrite (new_events_app _ _ _ Ll), Fl.
    destruct (Z.ltb_spec 0 (Z.of_nat n)), (Z.leb_spec L (0 + 32 * Z.of_nat n));
      cbn [andb]; try reflexivity; lia.
  - intros j Hj.
    destruct (pump_echo (mem m0) A B L HA HB HL' Hd j 0 m1 ltac:(lia)
                (Hround j ltac:(lia)) He) as (_ & lj & Lj & Fj).
    rewrite (new_events_app _ _ _ Lj), Fj.
    destruct (Z.ltb_spec 0 (Z.of_nat j)), (Z.leb_spec L (0 + 32 * Z.of_nat j));
      cbn [andb]; try reflexivity; lia.
Qed.
(** ** What the FIFO operations and the submission leave on the modelled
    controller *)

(** X11.  On the modelled controller, [mchp_corespi_read_fifo] takes
    exactly [k = min(rx_len, FIFO_DEPTH, entries in the input FIFO)]
    entries out of the input FIFO, oldest first (none when [rx_len] is
    negative), and leaves the other registers and the output FIFO alone.
    The [k] bytes go to consecutive addresses of the receive buffer when
    there is one; [rx_len] goes down by [k], [pending] by [k] as an [int],
    and the buffer pointer up by [k]. *)
Theorem read_fifo_drains (m : machine corespi_dev) :
  wf_spi (spi m) ->
  let rx := d_rxfifo (hw m) in
  let k := Nat.min (Z.to_nat (Z.min (rx_len (spi m)) FIFO_DEPTH)) (length rx) in
  let m' := snd (mchp_corespi_read_fifo m) in
  hw m' = with_rxfifo (skipn k rx) (hw m)
  /\ clk_rate m' = clk_rate m
  /\ spi m' =
       set_pending (s32 (pending (spi m) - Z.of_nat k))
         (set_rx_len (rx_len (spi m) - Z.of_nat k)
            (set_rx_buf (if rx_buf (spi m) =? 0 then 0
                         else rx_buf (spi m) + Z.of_nat k) (spi m)))
  /\ mem m' = (if rx_buf (spi m) =? 0 then mem m
               else store_bytes (mem m) (rx_buf (spi m)) (map u8 (firstn k rx))).
Proof.
  intros Hwf. destruct (mchp_corespi_read_fifo m) as [[] m'] eqn:E.
  exact (dev_read_fifo m tt m' Hwf E).
Qed.

(** X12.  On the modelled controller, [mchp_corespi_write_fifo]
    programs the frame count as [mchp_corespi_set_xfer_size] does for
    [min(tx_len, FIFO_DEPTH)] and then queues exactly
    [k = min(tx_len, FIFO_DEPTH, room in the output FIFO)] bytes behind
    those already queued: consecutive bytes of the transmit buffer, or
    [0xaa] when there is none.  [tx_len] goes down by [k], [pending] up by
    [k] as an [int], the buffer pointer up by [k]; memory and the input
    FIFO are untouched. *)
Theorem write_fifo_fills (m : machine corespi_dev) :
  wf_spi (spi m) ->
  let tx := d_txfifo (hw m) in
  let k := Nat.min (Z.to_nat (Z.min (tx_len (spi m)) FIFO_DEPTH)) (32 - length tx) in
  let m' := snd (mchp_corespi_write_fifo m) in
  hw m' = with_txfifo (tx ++ tx_bytes (mem m) (tx_buf (spi m)) k)
            (hw (snd (mchp_corespi_set_xfer_size
                        (Z.min (tx_len (spi m)) FIFO_DEPTH) m)))
  /\ clk_rate m' = clk_rate m
  /\ spi m' =
       set_pending (s32 (pending (spi m) + Z.of_nat k))
         (set_tx_len (tx_len (spi m) - Z.of_nat k)
            (set_tx_buf (if tx_buf (spi m) =? 0 then 0
                         else tx_buf (spi m) + Z.of_nat k) (spi m)))
  /\ mem m' = mem m.
Proof.
  intros Hwf. destruct (mchp_corespi_write_fifo m) as [[] m'] eqn:E.
  exact (dev_write_fifo m tt m' Hwf E).
Qed.

Lemma start_bits_framecnt mode k v w :
  0 <= k < 2 ^ 16 -> bits_as (start_bits mode k) v w -> framecnt w = k.
Proof.
  intros Hk (Hw & B). unfold framecnt, CONTROL_FRAMECNT_SHIFT.
  change 65535 with (Z.ones 16). rewrite Z.land_ones by lia.
  apply Z.bits_inj'. intros i Hi.
  destruct (Z.ltb_spec i 16).
  - rewrite Z.mod_pow2_bits_low by lia.
    rewrite Z.shiftr_spec by lia. rewrite B by lia. unfold start_bits.
    destruct (Z.eqb_spec (i + 8) 0); [lia|].
    destruct (Z.eqb_spec (i + 8) 28); [lia|].
    destruct (Z.leb_spec 8 (i + 8)); [|lia].
    destruct (Z.ltb_spec (i + 8) 24); [|lia].
    cbn [andb]. replace (i + 8 - 8) with i by lia. reflexivity.
  - rewrite Z.mod_pow2_bits_high by lia. symmetry.
    now apply small_bits_high.
Qed.

Lemma min_fifo_depth l : (if l >? FIFO_DEPTH then FIFO_DEPTH else l) = Z.min l FIFO_DEPTH.
Proof. unfold FIFO_DEPTH. destruct (Z.gtb_spec l 32); lia. Qed.

Section StartControl.

Local Arguments u32 : simpl never.
Local Arguments u16 : simpl never.
Local Arguments Z.lor : simpl never.
Local Arguments Z.land : simpl never.
Local Arguments Z.lnot : simpl never.
Local Arguments Z.shiftl : simpl never.
Local Arguments Z.min : simpl never.
Local Arguments not64 : simpl never.
Local Arguments Z.testbit : simpl never.

(** [CONTROL] after [mchp_corespi_set_xfer_size]. *)
Lemma dev_set_xfer_size_bits len (m : machine corespi_dev) :
  bits_as (fun i => if i =? 0 then Some true
                    else if (8 <=? i) && (i <? 24) then Some (Z.testbit len (i - 8))
                    else None)
          (d_control (hw m))
          (d_control (hw (snd (mchp_corespi_set_xfer_size len m)))).
Proof.
  destruct m as [d rate0 spi0 mem0 log0].
  destruct d as [ctl fsz cgen ssel fsup mis rxf txf].
  cbn. unfold bits_as. split; [apply u32_range|]. field_bits.
Qed.

(** [CONTROL] after [mchp_corespi_set_clk_gen]. *)
Lemma dev_set_clk_gen_bits (m : machine corespi_dev) :
  bits_as (fun i => if i =? 0 then Some true
                    else if i =? 28 then Some (negb (clk_mode (spi m) =? 0))
                    else None)
          (d_control (hw m))
          (d_control (hw (snd (mchp_corespi_set_clk_gen m)))).
Proof.
  destruct m as [d rate0 spi0 mem0 log0].
  destruct d as [ctl fsz cgen ssel fsup mis rxf txf].
  cbn. unfold bits_as.
  destruct (clk_mode spi0 =? 0); (split; [apply u32_range|]); field_bits.
Qed.

End StartControl.

(** [CONTROL] after the start of a transfer. *)
Lemma dev_start_control (xfer : spi_transfer) (m : machine corespi_dev) r m' :
  0 <= xfer_tx_buf xfer -> 0 <= xfer_rx_buf xfer ->
  0 <= xfer_len xfer <= INT_MAX ->
  transfer_one_start xfer m = (r, m') ->
  bits_as (start_bits (clk_mode (spi m)) (Z.min (xfer_len xfer) FIFO_DEPTH))
          (d_control (hw m)) (d_control (hw m')).
Proof.
  intros Ht Hr Hl H.
  assert (Hs32 : s32 (xfer_len xfer) = xfer_len xfer)
    by (apply s32_small; unfold int_range, INT_MIN, INT_MAX in *; lia).
  rewrite transfer_one_start_eq in H. rewrite Hs32, min_fifo_depth in H.
  pose proof (dev_set_clk_gen_bits m) as Ba.
  destruct (dev_set_clk_gen m) as (w & _ & _ & Sa & _).
  revert H Ba Sa.
  generalize (snd (mchp_corespi_set_clk_gen m)). intros ma.
  cbv zeta.
  match goal with
  | |- context [mchp_corespi_set_xfer_size ?len ?mb] =>
      pose proof (dev_set_xfer_size_bits len mb) as Bc;
      destruct (dev_set_xfer_size len mb) as (w' & _ & _ & Sc & _);
      revert Bc Sc;
      generalize (snd (mchp_corespi_set_xfer_size len mb))
  end.
  cbn [hw clk_rate spi mem].
  intros mc Bc Sc H Ba Sa.
  assert (Wc : wf_spi (spi mc)).
  { rewrite Sc. unfold wf_spi, int_range, INT_MIN, INT_MAX in *. cbn. lia. }
  assert (Etl : tx_len (spi mc) = xfer_len xfer) by (rewrite Sc; reflexivity).
  apply (f_equal snd) in H. cbn [snd] in H. rewrite Etl in H.
  assert (Bd : bits_as
                 (fun i => if i =? 0 then Some true
                           else if (8 <=? i) && (i <? 24)
                                then Some (Z.testbit (Z.min (xfer_len xfer) FIFO_DEPTH)
                                                     (i - 8))
                           else None)
                 (d_control (hw mc)) (d_control (hw m'))).
  { destruct (Z.eqb_spec (xfer_len xfer) 0) as [Ez|Enz]; cbn [negb when] in H.
    - cbn [ret snd] in H. subst m'. destruct Bc as (Rc & Bc).
      split; [exact Rc|]. intros i Hi. specialize (Bc i Hi).
      destruct (i =? 0); [exact Bc|].
      destruct ((8 <=? i) && (i <? 24)); [exact Bc|reflexivity].
    - destruct (mchp_corespi_write_fifo mc) as [[] md] eqn:Ed. cbn [snd] in H.
      subst md. apply dev_write_fifo in Ed; [|exact Wc].
      destruct Ed as (Hh & _). rewrite Hh, Etl. cbn [hw d_control with_txfifo].
      apply dev_set_xfer_size_bits. }
  destruct Ba as (_ & Ba). destruct Bc as (_ & Bc). destruct Bd as (Rd & Bd).
  split; [exact Rd|]. intros i Hi.
  rewrite (Bd i Hi). unfold start_bits.
  destruct (Z.eqb_spec i 0); [reflexivity|].
  destruct (Z.leb_spec 8 i), (Z.ltb_spec i 24), (Z.eqb_spec i 28); cbn [andb];
    try lia; try reflexivity;
    rewrite (Bc i Hi);
    destruct (Z.eqb_spec i 0), (Z.leb_spec 8 i), (Z.ltb_spec i 24); cbn [andb];
    try lia;
    rewrite (Ba i Hi);
    destruct (Z.eqb_spec i 0), (Z.eqb_spec i 28); try lia; try reflexivity.
  all: now rewrite Sa.
Qed.

(** X13.  When [mchp_corespi_transfer_one] accepts a transfer of
    [L <= 65535] bytes on the modelled controller, it leaves the selected
    divider in [CLK_GEN], the selected clock mode in bit 28 of [CONTROL],
    [k = min(L, FIFO_DEPTH)] in the frame count field, 0 in [FRAMESUP] and
    the controller enabled, with no other bit of [CONTROL] changed.  The
    first [min(k, room)] bytes of the transmit buffer (or fillers) are
    queued behind what the output FIFO held; the input FIFO, the pending
    causes, [SLAVE_SELECT], [FRAME_SIZE] and memory are untouched;
    [rx_len] is [L], [tx_len] is [L] minus the bytes queued and [pending]
    is their number. *)
Theorem transfer_one_programs (xfer : spi_transfer) (m m' : machine corespi_dev) :
  0 <= xfer_tx_buf xfer -> 0 <= xfer_rx_buf xfer ->
  0 <= xfer_len xfer <= MAX_LEN ->
  mchp_corespi_transfer_one xfer m = Some (1, m') ->
  let tx := d_txfifo (hw m) in
  let k := Z.min (xfer_len xfer) FIFO_DEPTH in
  let kt := Nat.min (Z.to_nat k) (32 - length tx) in
  d_clk_gen (hw m') = u32 (clk_gen (spi m'))
  /\ bits_as (start_bits (clk_mode (spi m')) k) (d_control (hw m)) (d_control (hw m'))
  /\ framecnt (d_control (hw m')) = k
  /\ d_framesup (hw m') = 0
  /\ d_txfifo (hw m') = tx ++ tx_bytes (mem m) (xfer_tx_buf xfer) kt
  /\ d_rxfifo (hw m') = d_rxfifo (hw m)
  /\ d_mis (hw m') = d_mis (hw m)
  /\ d_ssel (hw m') = d_ssel (hw m)
  /\ d_frame_size (hw m') = d_frame_size (hw m)
  /\ tx_len (spi m') = xfer_len xfer - Z.of_nat kt
  /\ rx_len (spi m') = xfer_len xfer
  /\ pending (spi m') = Z.of_nat kt
  /\ rx_buf (spi m') = xfer_rx_buf xfer
  /\ mem m' = mem m.
Proof.
  intros Ht Hr Hl H tx k kt. unfold MAX_LEN in Hl.
  rewrite transfer_one_unfold in H.
  destruct (mchp_corespi_calculate_clkgen _ _ _) as [[r0 s']|] eqn:Ec; [|discriminate].
  apply calculate_clkgen_frame in Ec as (Hr0 & _).
  destruct (Z.eqb_spec r0 0) as [-> | Hne].
  2: { exfalso. apply some_inj in H. apply (f_equal fst) in H. cbn [fst] in H.
       subst r0. destruct Hr0 as [E|[E _]]; [contradiction|discriminate]. }
  apply some_inj in H.
  assert (Hl' : 0 <= xfer_len xfer <= INT_MAX) by (unfold INT_MAX; lia).
  pose proof (dev_start_control xfer _ 1 m' Ht Hr Hl' H) as Hctl.
  pose proof (dev_transfer_one_start xfer _ 1 m' Ht Hr Hl' H) as Hst.
  cbv zeta in Hst. cbn [hw clk_rate spi mem] in Hst, Hctl.
  destruct Hst as (_ & Frx & Ftx & Fmis & Fcg & Fss & Ffs & Ffu & _ & Fmem & Fspi).
  fold tx in Ftx. fold k in Ftx, Fspi, Hctl. fold kt in Ftx, Fspi.
  rewrite Fspi. cbn [clk_gen clk_mode tx_len rx_len pending rx_buf].
  assert (Hk : 0 <= k < 2 ^ 16)
    by (unfold k, FIFO_DEPTH; change (2 ^ 16) with 65536; lia).
  split; [assumption|]. split; [exact Hctl|].
  split; [exact (start_bits_framecnt _ _ _ _ Hk Hctl)|].
  repeat split; assumption.
Qed.
(** ** Interrupts that are not transfer-done, and acknowledgement *)

Section IrqGeneric.
Context {HW : Type} {io : Mmio HW}.

(** With no cause pending the handler reads [MIS] and does nothing
    else. *)
Lemma interrupt_none (m : machine HW) :
  pending_causes m = 0 ->
  mchp_corespi_interrupt m = (IRQ_NONE, snd (mchp_corespi_read REG_MIS m)).
Proof.
  intros Hc.
  destruct (mchp_corespi_read REG_MIS m) as [mis m0] eqn:E0.
  pose proof (pending_causes_read _ _ _ E0) as Hm. rewrite Hc in Hm.
  unfold mchp_corespi_interrupt, bind. rewrite E0.
  change 15 with 0xf. rewrite Hm. reflexivity.
Qed.

(** With a cause pending the handler returns [IRQ_HANDLED]. *)
Lemma interrupt_some (m : machine HW) :
  pending_causes m <> 0 -> fst (mchp_corespi_interrupt m) = IRQ_HANDLED.
Proof.
  intros Hc.
  destruct (mchp_corespi_read REG_MIS m) as [mis m0] eqn:E0.
  pose proof (pending_causes_read _ _ _ E0) as Hm. rewrite <- Hm in Hc.
  destruct (if Z.land (Z.land mis 0xf) INT_TXDONE =? 0 then (false, m0)
            else txdone_branch m0) as [fin m1] eqn:E1.
  destruct (interrupt_decompose m mis m0 E0 Hc fin m1 E1) as (m' & Ei & _).
  now rewrite Ei.
Qed.

(** X15.  [mchp_corespi_interrupt] returns [IRQ_NONE] exactly when none
    of the four causes is pending in [MIS], and [IRQ_HANDLED] otherwise.
    When none is pending the handler has read [MIS] and done nothing
    else.  When receive-ready is the only cause pending, the handler
    acknowledges it in [INT_CLEAR] and does nothing else: no FIFO access,
    no change of the driver structure or of memory, no completion. *)
Theorem interrupt_not_ours (m : machine HW) :
  (fst (mchp_corespi_interrupt m) = IRQ_NONE <-> pending_causes m = 0)
  /\ (fst (mchp_corespi_interrupt m) = IRQ_NONE
      \/ fst (mchp_corespi_interrupt m) = IRQ_HANDLED)
  /\ (pending_causes m = 0 ->
      snd (mchp_corespi_interrupt m) = snd (mchp_corespi_read REG_MIS m))
  /\ (pending_causes m = INT_RXRDY ->
      exists mis,
        mmio_only m (snd (mchp_corespi_interrupt m))
          [MmioRead REG_MIS mis; MmioWrite REG_INT_CLEAR INT_RXRDY]).
Proof.
  split; [|split; [|split]].
  - split.
    + intros H. destruct (Z.eq_dec (pending_causes m) 0) as [E|E]; [exact E|].
      rewrite (interrupt_some m E) in H. discriminate.
    + intros H. now rewrite (interrupt_none m H).
  - destruct (Z.eq_dec (pending_causes m) 0) as [E|E].
    + left. now rewrite (interrupt_none m E).
    + right. now apply interrupt_some.
  - intros H. now rewrite (interrupt_none m H).
  - intros Hc.
    destruct (mchp_corespi_read REG_MIS m) as [mis m0] eqn:E0.
    pose proof (pending_causes_read _ _ _ E0) as Hm. rewrite Hc in Hm.
    assert (Hnz : Z.land mis 0xf <> 0) by (rewrite Hm; discriminate).
    assert (E1 : (if Z.land (Z.land mis 0xf) INT_TXDONE =? 0 then (false, m0)
                  else txdone_branch m0) = (false, m0))
      by (rewrite Hm; reflexivity).
    destruct (interrupt_decompose m mis m0 E0 Hnz false m0 E1) as (m' & Ei & Ht & _).
    rewrite Ei. cbn [snd]. rewrite Hm in Ht.
    apply read_inv in E0 as (H0 & _).
    exists mis.
    exact (mmio_only_trans _ _ _ _ _ H0 Ht).
Qed.

End IrqGeneric.

Lemma land_pow2_eqb x k : 0 <= k -> (Z.land x (2 ^ k) =? 0) = negb (Z.testbit x k).
Proof.
  intros Hk. rewrite land_pow2 by lia.
  destruct (Z.testbit x k); [|reflexivity].
  apply Z.eqb_neq. apply Z.pow_nonzero; lia.
Qed.

Lemma dev_writel_int_clear d v :
  writel d REG_INT_CLEAR v = with_mis (Z.land (d_mis d) (Z.lnot v)) d.
Proof. reflexivity. Qed.

(** What the tail of the handler leaves in [MIS] on the modelled
    controller. *)
Lemma irq_tail_mis c s fin d i :
  0 <= i ->
  Z.testbit
    (d_mis (fold_left (fun h e => match e with
                                  | MmioWrite r v => writel h r v
                                  | _ => h
                                  end) (irq_tail c s fin) d)) i
  = Z.testbit (d_mis d) i
    && negb ((i =? 1) && Z.testbit c 1)
    && negb ((i =? 2) && Z.testbit c 2)
    && negb ((i =? 3) && Z.testbit c 3).
Proof.
  intros Hi. unfold irq_tail.
  change INT_RXRDY with (2 ^ 1). change INT_RX_CHANNEL_OVERFLOW with (2 ^ 2).
  change INT_TX_CHANNEL_UNDERRUN with (2 ^ 3).
  rewrite !land_pow2_eqb by lia.
  assert (P : forall k, 0 <= k -> Z.testbit (Z.lnot (2 ^ k)) i = negb (i =? k)).
  { intros k Hk. rewrite Z.lnot_spec, Z.pow2_bits_eqb by lia.
    now rewrite Z.eqb_sym. }
  destruct (Z.testbit c 1), (Z.testbit c 2), (Z.testbit c 3), fin;
    cbn [negb orb app fold_left];
    rewrite ?dev_writel_int_clear; unfold with_mis; cbn [d_mis];
    rewrite ?Z.land_spec, ?P by lia;
    rewrite ?andb_true_r, ?andb_false_r; cbn [negb]; rewrite ?andb_true_r;
    reflexivity.
Qed.

(** X16.  On the modelled controller the handler acknowledges every
    cause it finds pending: when it returns, the four cause bits of [MIS]
    are 0 and the other bits are as before, so that the handler called
    again with no bus activity in between returns [IRQ_NONE]. *)
Theorem interrupt_acknowledges (m : machine corespi_dev) :
  wf_spi (spi m) ->
  let m' := snd (mchp_corespi_interrupt m) in
  (forall i, 0 <= i ->
     Z.testbit (d_mis (hw m')) i
     = if i <? 4 then false else Z.testbit (d_mis (hw m)) i)
  /\ pending_causes m' = 0
  /\ fst (mchp_corespi_interrupt m') = IRQ_NONE.
Proof.
  intros Hwf m'.
  assert (B : forall i, 0 <= i ->
             Z.testbit (d_mis (hw m')) i
             = if i <? 4 then false else Z.testbit (d_mis (hw m)) i).
  { subst m'.
    destruct (dev_read_mis m) as (Rh & _ & Rs & _ & Pc).
    destruct (mchp_corespi_read REG_MIS m) as [mis m0] eqn:E0.
    pose proof (pending_causes_read _ _ _ E0) as Hm. cbn [snd] in Rh, Rs.
    assert (Hbit : forall k, 0 <= k < 4 ->
               Z.testbit (Z.land mis 0xf) k = Z.testbit (d_mis (hw m)) k).
    { intros k Hk. rewrite Hm, Pc, land_0xf_testbit, u32_testbit_low by lia.
      destruct (Z.ltb_spec k 4); [apply andb_true_r|lia]. }
    destruct (Z.eq_dec (Z.land mis 0xf) 0) as [Ez|Hnz].
    - rewrite (interrupt_none m) by (rewrite <- Hm; exact Ez).
      rewrite E0. cbn [snd]. rewrite Rh. intros i Hi.
      destruct (Z.ltb_spec i 4); [|reflexivity].
      rewrite <- Hbit by lia. rewrite Ez. apply Z.bits_0.
    - destruct (if Z.land (Z.land mis 0xf) INT_TXDONE =? 0 then (false, m0)
                else txdone_branch m0) as [fin m1] eqn:E1.
      destruct (interrupt_decompose m mis m0 E0 Hnz fin m1 E1)
        as (mf & Ei & _ & Hh).
      rewrite Ei. cbn [snd]. rewrite Hh. intros i Hi.
      rewrite irq_tail_mis by lia.
      assert (M1 : Z.testbit (d_mis (hw m1)) i
                   = Z.testbit (d_mis (hw m)) i
                     && negb ((i =? 0) && Z.testbit (Z.land mis 0xf) 0)).
      { revert E1. change INT_TXDONE with (2 ^ 0). rewrite land_pow2 by lia.
        destruct (Z.testbit (Z.land mis 0xf) 0).
        - cbn [Z.eqb]. intros E1.
          apply dev_txdone_branch in E1; [|rewrite Rs; exact Hwf].
          destruct E1 as (_ & _ & Fm & _). rewrite Fm, Rh.
          rewrite Z.land_spec, Z.lnot_spec by lia.
          change (u32 INT_TXDONE) with (2 ^ 0).
          rewrite Z.pow2_bits_eqb, andb_true_r, (Z.eqb_sym 0 i) by lia.
          reflexivity.
        - cbn [Z.eqb]. intros E1. injection E1 as _ <-.
          rewrite Rh, andb_false_r. cbn [negb]. now rewrite andb_true_r. }
      rewrite M1.
      destruct (Z.ltb_spec i 4) as [Hlt|Hge].
      + assert (Hcase : i = 0 \/ i = 1 \/ i = 2 \/ i = 3) by lia.
        rewrite <- (Hbit i) by lia.
        destruct Hcase as [-> | [-> | [-> | ->]]]; cbn [Z.eqb Pos.eqb andb negb];
          repeat match goal with
                 | |- context [Z.testbit ?a ?b] => destruct (Z.testbit a b)
                 end; reflexivity.
      + destruct (Z.eqb_spec i 0), (Z.eqb_spec i 1), (Z.eqb_spec i 2),
                 (Z.eqb_spec i 3); try lia.
        cbn [andb negb]. now rewrite !andb_true_r. }
  assert (P : pending_causes m' = 0).
  { destruct (dev_read_mis m') as (_ & _ & _ & _ & ->).
    apply Z.bits_inj'. intros i Hi.
    rewrite land_0xf_testbit, Z.bits_0 by lia.
    destruct (Z.ltb_spec i 4); [|apply andb_false_r].
    rewrite u32_testbit_low, B by lia.
    destruct (Z.ltb_spec i 4); [reflexivity|lia]. }
  split; [exact B|]. split; [exact P|].
  now rewrite (interrupt_none m' P).
Qed.
(** ** Data integrity of a transfer on any controller *)

Lemma load_bytes_app mm n1 n2 : forall a,
  load_bytes mm a (n1 + n2)
  = load_bytes mm a n1 ++ load_bytes mm (a + Z.of_nat n1) n2.
Proof.
  induction n1 as [|n1 IH]; intros a.
  - cbn. now rewrite Z.add_0_r.
  - cbn [Nat.add load_bytes app]. rewrite IH. do 3 f_equal. lia.
Qed.

Lemma store_bytes_out bs : forall (mm : memory) p x,
  x < p \/ p + Z.of_nat (length bs) <= x -> store_bytes mm p bs x = mm x.
Proof.
  induction bs as [|b bs IH]; intros mm p x Hx; [reflexivity|].
  cbn [store_bytes length] in *. rewrite IH by lia.
  unfold store. destruct (Z.eqb_spec x p); [lia|reflexivity].
Qed.

Lemma load_store_same bs : forall (mm : memory) p,
  load_bytes (store_bytes mm p bs) p (length bs) = bs.
Proof.
  induction bs as [|b bs IH]; intros mm p; [reflexivity|].
  cbn [store_bytes length load_bytes]. f_equal.
  - rewrite store_bytes_out by lia. unfold store. now rewrite Z.eqb_refl.
  - apply IH.
Qed.

Lemma rx_count_length l : rx_count l = Z.of_nat (length (rx_data_reads l)).
Proof. reflexivity. Qed.

(** Taking [n1 + n2] bytes is taking [n1] and then [n2], also when the
    memory has changed meanwhile outside the bytes still to take. *)
Lemma tx_bytes_app (mm mm' : memory) buf n1 n2 :
  0 <= buf ->
  (forall x, buf + Z.of_nat n1 <= x < buf + Z.of_nat n1 + Z.of_nat n2 ->
             mm' x = mm x) ->
  tx_bytes mm buf (n1 + n2)
  = tx_bytes mm buf n1
    ++ tx_bytes mm' (if buf =? 0 then 0 else buf + Z.of_nat n1) n2.
Proof.
  intros Hb Hx. unfold tx_bytes.
  destruct (Z.eqb_spec buf 0) as [E|E].
  - cbn [Z.eqb]. apply repeat_app.
  - destruct (Z.eqb_spec (buf + Z.of_nat n1) 0); [lia|].
    rewrite load_bytes_app, map_app. do 2 f_equal.
    apply load_bytes_ext. intros x Hx'. symmetry. apply Hx. lia.
Qed.

Section Stream.
Context {HW : Type} {io : Mmio HW}.

(** One interrupt on any controller, with what it does to memory and
    where its bytes come from. *)
Lemma interrupt_stream (m : machine HW) :
  wf_spi (spi m) ->
  exists l,
    log (snd (mchp_corespi_interrupt m)) = log m ++ l
    /\ 0 <= rx_count l <= Z.max 0 (Z.min (rx_len (spi m)) FIFO_DEPTH)
    /\ 0 <= tx_count l <= Z.max 0 (Z.min (tx_len (spi m)) FIFO_DEPTH)
    /\ mem (snd (mchp_corespi_interrupt m))
       = (if rx_buf (spi m) =? 0 then mem m
          else store_bytes (mem m) (rx_buf (spi m)) (map u8 (rx_data_reads l)))
    /\ tx_data_writes l
       = tx_bytes (mem (snd (mchp_corespi_interrupt m))) (tx_buf (spi m))
                  (Z.to_nat (tx_count l))
    /\ spi (snd (mchp_corespi_interrupt m)) =
         Build_corespi
           (if tx_buf (spi m) =? 0 then 0 else tx_buf (spi m) + tx_count l)
           (if rx_buf (spi m) =? 0 then 0 else rx_buf (spi m) + rx_count l)
           (clk_gen (spi m)) (clk_mode (spi m))
           (tx_len (spi m) - tx_count l)
           (rx_len (spi m) - rx_count l)
           (s32 (s32 (pending (spi m) - rx_count l) + tx_count l)).
Proof.
  intros Hwf. pose proof Hwf as (Wt & Wr & Wtl & Wrl & Wp).
  assert (Hidle : forall l' m',
             mmio_only m m' l' -> fifo_quiet l' ->
             log m' = log m ++ l'
             /\ 0 <= rx_count l' <= Z.max 0 (Z.min (rx_len (spi m)) FIFO_DEPTH)
             /\ 0 <= tx_count l' <= Z.max 0 (Z.min (tx_len (spi m)) FIFO_DEPTH)
             /\ mem m' = (if rx_buf (spi m) =? 0 then mem m
                          else store_bytes (mem m) (rx_buf (spi m))
                                 (map u8 (rx_data_reads l')))
             /\ tx_data_writes l'
                = tx_bytes (mem m') (tx_buf (spi m)) (Z.to_nat (tx_count l'))
             /\ spi m' =
                  Build_corespi
                    (if tx_buf (spi m) =? 0 then 0 else tx_buf (spi m) + tx_count l')
                    (if rx_buf (spi m) =? 0 then 0 else rx_buf (spi m) + rx_count l')
                    (clk_gen (spi m)) (clk_mode (spi m))
                    (tx_len (spi m) - tx_count l')
                    (rx_len (spi m) - rx_count l')
                    (s32 (s32 (pending (spi m) - rx_count l') + tx_count l'))).
  { intros l' m' (Ll & Kl & Sl & Ml) Q.
    assert (Et : tx_count l' = 0) by (unfold tx_count; now rewrite (fifo_quiet_tx _ Q)).
    assert (Er : rx_count l' = 0) by (unfold rx_count; now rewrite (fifo_quiet_rx _ Q)).
    rewrite Et, Er, (fifo_quiet_tx _ Q), (fifo_quiet_rx _ Q), Ml, Sl.
    cbn [map store_bytes Z.to_nat]. rewrite tx_bytes_none.
    rewrite !Z.sub_0_r, !Z.add_0_r, !(s32_small (pending (spi m))) by assumption.
    split; [exact Ll|]. split; [lia|]. split; [lia|].
    split; [now destruct (rx_buf (spi m) =? 0)|]. split; [reflexivity|].
    destruct (spi m) as [t r g md tl rl p]. cbn.
    destruct (Z.eqb_spec t 0), (Z.eqb_spec r 0); subst; reflexivity. }
  destruct (mchp_corespi_read REG_MIS m) as [mis m0] eqn:E0.
  pose proof E0 as E0'.
  apply read_inv in E0' as (H0 & _).
  destruct (Z.eq_dec (Z.land mis 0xf) 0) as [Ez|Hnz].
  - exists [MmioRead REG_MIS mis].
    assert (Ei : mchp_corespi_interrupt m = (IRQ_NONE, m0)).
    { unfold mchp_corespi_interrupt, bind. rewrite E0.
      change 15 with 0xf. rewrite Ez. reflexivity. }
    rewrite Ei. cbn [snd]. apply Hidle; [exact H0|reflexivity].
  - destruct (if Z.land (Z.land mis 0xf) INT_TXDONE =? 0 then (false, m0)
              else txdone_branch m0) as [fin m1] eqn:E1.
    destruct (interrupt_decompose m mis m0 E0 Hnz fin m1 E1)
      as (m' & Ei & Ht & _).
    rewrite Ei. cbn [snd].
    pose proof (irq_tail_quiet (Z.land mis 0xf) (spi m1) fin) as Hq.
    destruct (Z.land (Z.land mis 0xf) INT_TXDONE =? 0).
    + injection E1 as <- <-.
      exists ([MmioRead REG_MIS mis] ++ irq_tail (Z.land mis 0xf) (spi m0) false).
      apply Hidle.
      * exact (mmio_only_trans _ _ _ _ _ H0 Ht).
      * apply fifo_quiet_app; [reflexivity|exact Hq].
    + destruct H0 as (L0 & K0 & S0 & M0).
      assert (Hwf0 : wf_spi (spi m0)) by (rewrite S0; exact Hwf).
      destruct (txdone_branch_inv m0 fin m1 Hwf0 E1)
        as (ld & lf & L1 & K1 & Dd & Cr & _ & Hm & Rf & Ct & _ & _ & Hw & Hs & _).
      destruct Ht as (Lt & Kt & St & Mt).
      set (tail := irq_tail (Z.land mis 0xf) (spi m1) fin) in *.
      exists ([MmioRead REG_MIS mis] ++ [MmioWrite REG_INT_CLEAR INT_TXDONE]
              ++ ld ++ lf ++ tail).
      assert (Etx : tx_data_writes ([MmioRead REG_MIS mis]
                      ++ [MmioWrite REG_INT_CLEAR INT_TXDONE] ++ ld ++ lf ++ tail)
                    = tx_data_writes lf).
      { rewrite !tx_data_writes_app, (drain_events_no_tx _ Dd), (fifo_quiet_tx _ Hq).
        cbn. now rewrite app_nil_r. }
      assert (Erx : rx_data_reads ([MmioRead REG_MIS mis]
                      ++ [MmioWrite REG_INT_CLEAR INT_TXDONE] ++ ld ++ lf ++ tail)
                    = rx_data_reads ld).
      { rewrite !rx_data_reads_app, Rf, (fifo_quiet_rx _ Hq).
        cbn. now rewrite app_nil_r. }
      assert (Ect : tx_count ([MmioRead REG_MIS mis]
                      ++ [MmioWrite REG_INT_CLEAR INT_TXDONE] ++ ld ++ lf ++ tail)
                    = tx_count lf) by (unfold tx_count; now rewrite Etx).
      assert (Ecr : rx_count ([MmioRead REG_MIS mis]
                      ++ [MmioWrite REG_INT_CLEAR INT_TXDONE] ++ ld ++ lf ++ tail)
                    = rx_count ld) by (unfold rx_count; now rewrite Erx).
      rewrite Etx, Erx, Ect, Ecr, St, Mt, Hs, Hm, S0, M0.
      split; [rewrite Lt, L1, L0, <- !app_assoc; reflexivity|].
      rewrite S0 in Cr, Ct.
      split; [exact Cr|]. split; [exact Ct|]. split; [reflexivity|].
      split; [|reflexivity].
      rewrite Hw, Hm, S0, M0. reflexivity.
Qed.

Lemma stream_begin (m0 : machine HW) (xfer : spi_transfer) m1 :
  0 <= xfer_tx_buf xfer -> 0 <= xfer_rx_buf xfer ->
  0 <= xfer_len xfer <= MAX_LEN ->
  mchp_corespi_transfer_one xfer m0 = Some (1, m1) ->
  stream_inv m0 xfer m1.
Proof.
  intros Ht Hr Hl H. unfold MAX_LEN in Hl.
  rewrite transfer_one_unfold in H.
  destruct (mchp_corespi_calculate_clkgen _ _ _) as [[r0 s']|] eqn:Ec; [|discriminate].
  apply calculate_clkgen_frame in Ec as (Hr0 & _).
  destruct (Z.eqb_spec r0 0) as [-> | Hne].
  2: { exfalso. apply some_inj in H. apply (f_equal fst) in H. cbn [fst] in H.
       subst r0. destruct Hr0 as [E|[E _]]; [contradiction|discriminate]. }
  apply some_inj in H.
  apply transfer_one_start_inv in H;
    [|assumption|assumption|unfold INT_MAX; lia].
  cbn [hw clk_rate spi mem log] in H.
  destruct H as (_ & lq & lf & L1 & _ & M1 & Q1 & R1 & _ & C1 & W1 & S1).
  assert (Etx : tx_data_writes (lq ++ lf) = tx_data_writes lf)
    by (rewrite tx_data_writes_app, (fifo_quiet_tx _ Q1); reflexivity).
  assert (Erx : rx_data_reads (lq ++ lf) = [])
    by (rewrite rx_data_reads_app, (fifo_quiet_rx _ Q1), R1; reflexivity).
  assert (Ect : tx_count (lq ++ lf) = tx_count lf) by (unfold tx_count; now rewrite Etx).
  assert (Ecr : rx_count (lq ++ lf) = 0) by (unfold rx_count; now rewrite Erx).
  exists (lq ++ lf). rewrite Etx, Erx, Ect, Ecr, S1, M1.
  cbn [tx_buf rx_buf tx_len rx_len pending].
  unfold FIFO_DEPTH in C1.
  split; [exact L1|].
  split.
  { unfold wf_spi, int_range, INT_MIN, INT_MAX. cbn.
    destruct (xfer_tx_buf xfer =? 0); lia. }
  split; [lia|]. split; [lia|]. split; [lia|]. split; [lia|].
  split; [reflexivity|].
  split; [destruct (Z.eqb_spec (xfer_rx_buf xfer) 0); lia|].
  split; [reflexivity|]. split; [reflexivity|].
  intros _. exact W1.
Qed.

Lemma stream_step (m0 : machine HW) (xfer : spi_transfer) (m : machine HW) :
  0 <= xfer_tx_buf xfer -> 0 <= xfer_rx_buf xfer ->
  0 <= xfer_len xfer <= MAX_LEN ->
  stream_inv m0 xfer m ->
  stream_inv m0 xfer (snd (mchp_corespi_interrupt m)).
Proof.
  intros Ht Hr Hl (l & L & Hwf & Htl & Hrl & Ect & Ecr & Etb & Erb & Hload & Hout & Htx).
  unfold MAX_LEN in Hl.
  destruct (interrupt_stream m Hwf) as (l' & L' & Cr & Ct & Hm & Hw & Hs).
  set (m' := snd (mchp_corespi_interrupt m)) in *.
  pose proof (tx_count_nonneg l) as Nt. pose proof (rx_count_nonneg l) as Nr.
  unfold FIFO_DEPTH in *.
  exists (l ++ l'). rewrite tx_count_app, rx_count_app. rewrite Hs.
  cbn [tx_buf rx_buf tx_len rx_len pending].
  assert (Erb' : (if rx_buf (spi m) =? 0 then 0 else rx_buf (spi m) + rx_count l')
                 = if xfer_rx_buf xfer =? 0 then 0
                   else xfer_rx_buf xfer + (rx_count l + rx_count l')).
  { rewrite Erb. destruct (Z.eqb_spec (xfer_rx_buf xfer) 0); [reflexivity|].
    destruct (Z.eqb_spec (xfer_rx_buf xfer + rx_count l) 0); lia. }
  assert (Etb' : (if tx_buf (spi m) =? 0 then 0 else tx_buf (spi m) + tx_count l')
                 = if xfer_tx_buf xfer =? 0 then 0
                   else xfer_tx_buf xfer + (tx_count l + tx_count l')).
  { rewrite Etb. destruct (Z.eqb_spec (xfer_tx_buf xfer) 0); [reflexivity|].
    destruct (Z.eqb_spec (xfer_tx_buf xfer + tx_count l) 0); lia. }
  assert (Hlen : Z.of_nat (length (map u8 (rx_data_reads l'))) = rx_count l')
    by (now rewrite length_map).
  assert (Hout' : forall a,
             xfer_rx_buf xfer = 0
             \/ ~ (xfer_rx_buf xfer <= a
                   < xfer_rx_buf xfer + (rx_count l + rx_count l')) ->
             mem m' a = mem m0 a).
  { intros a Ha. rewrite Hm, Erb.
    destruct (Z.eqb_spec (xfer_rx_buf xfer) 0) as [E0|E0].
    - cbn [Z.eqb]. apply Hout. now left.
    - destruct (Z.eqb_spec (xfer_rx_buf xfer + rx_count l) 0); [lia|].
      rewrite store_bytes_out by lia. apply Hout. right. lia. }
  split; [rewrite L', L, app_assoc; reflexivity|].
  split.
  { destruct Hwf as (Wt & Wr & Wtl & Wrl & Wp).
    unfold wf_spi, int_range, INT_MIN, INT_MAX in *. cbn.
    pose proof (s32_int_range (s32 (pending (spi m) - rx_count l') + tx_count l')) as Hp.
    unfold int_range, INT_MIN, INT_MAX in Hp.
    destruct (tx_buf (spi m) =? 0), (rx_buf (spi m) =? 0); lia. }
  split; [lia|]. split; [lia|]. split; [lia|]. split; [lia|].
  split; [exact Etb'|]. split; [exact Erb'|].
  split; [|split; [exact Hout'|]].
  - intros HB. rewrite Z2Nat.inj_add by lia.
    rewrite load_bytes_app, rx_data_reads_app, map_app. f_equal.
    + rewrite <- (Hload HB). apply load_bytes_ext. intros x Hx.
      rewrite Z2Nat.id in Hx by lia.
      rewrite Hm, Erb.
      destruct (Z.eqb_spec (xfer_rx_buf xfer) 0); [contradiction|].
      destruct (Z.eqb_spec (xfer_rx_buf xfer + rx_count l) 0); [lia|].
      apply store_bytes_out. lia.
    + rewrite Hm, Erb.
      destruct (Z.eqb_spec (xfer_rx_buf xfer) 0); [contradiction|].
      destruct (Z.eqb_spec (xfer_rx_buf xfer + rx_count l) 0); [lia|].
      rewrite Z2Nat.id by lia.
      replace (Z.to_nat (rx_count l')) with (length (map u8 (rx_data_reads l')))
        by (rewrite length_map; unfold rx_count; lia).
      apply load_store_same.
  - intros Hd. rewrite tx_data_writes_app, (Htx Hd), Hw, Etb.
    rewrite Z2Nat.inj_add by lia. symmetry.
    destruct (Z.eqb_spec (xfer_tx_buf xfer) 0) as [E0|E0].
    + rewrite E0. unfold tx_bytes. cbn [Z.eqb]. apply repeat_app.
    + replace (xfer_tx_buf xfer + tx_count l)
        with (if xfer_tx_buf xfer =? 0 then 0
              else xfer_tx_buf xfer + Z.of_nat (Z.to_nat (tx_count l))).
      2: { destruct (Z.eqb_spec (xfer_tx_buf xfer) 0); [contradiction|].
           rewrite Z2Nat.id by lia. reflexivity. }
      apply tx_bytes_app; [assumption|].
      intros x Hx. rewrite !Z2Nat.id in Hx by lia.
      apply Hout'.
      destruct Hd as [Hd|[Hd|[Hd|Hd]]]; [contradiction|now left|right; lia|right; lia].
Qed.

Lemma stream_follows (m0 : machine HW) (xfer : spi_transfer) m1 m :
  0 <= xfer_tx_buf xfer -> 0 <= xfer_rx_buf xfer ->
  0 <= xfer_len xfer <= MAX_LEN ->
  mchp_corespi_transfer_one xfer m0 = Some (1, m1) ->
  follows m1 m ->
  stream_inv m0 xfer m.
Proof.
  intros Ht Hr Hl H F. induction F as [|m f F IH|m F IH].
  - now apply stream_begin.
  - exact IH.
  - now apply stream_step.
Qed.

(** X17.  On any controller, from the submission of a transfer of at
    most 65535 bytes on and whatever the controller does, the driver
    writes memory only in the receive buffer and only in its first
    [r] bytes, [r] being the number of reads of [RX_DATA] so far: these
    [r] bytes are the bytes read, in order, [rx_len] is the length minus
    [r], and every other byte of memory is as it was at submission (all
    of memory when there is no receive buffer). *)
Theorem receive_buffer_integrity (m0 m1 m : machine HW) (xfer : spi_transfer) :
  0 <= xfer_tx_buf xfer -> 0 <= xfer_rx_buf xfer ->
  0 <= xfer_len xfer <= MAX_LEN ->
  mchp_corespi_transfer_one xfer m0 = Some (1, m1) ->
  follows m1 m ->
  let l := new_events m0 m in
  let r := rx_count l in
  0 <= r <= xfer_len xfer
  /\ rx_len (spi m) = xfer_len xfer - r
  /\ (forall a, xfer_rx_buf xfer = 0
                \/ ~ (xfer_rx_buf xfer <= a < xfer_rx_buf xfer + r) ->
                mem m a = mem m0 a)
  /\ (xfer_rx_buf xfer <> 0 ->
      load_bytes (mem m) (xfer_rx_buf xfer) (Z.to_nat r) = map u8 (rx_data_reads l)).
Proof.
  intros Ht Hr Hl H F.
  destruct (stream_follows m0 xfer m1 m Ht Hr Hl H F)
    as (l & L & _ & _ & Hrl & _ & Ecr & _ & _ & Hload & Hout & _).
  cbv zeta. rewrite (new_events_app _ _ _ L).
  pose proof (rx_count_nonneg l).
  split; [lia|]. split; [lia|]. split; assumption.
Qed.

(** X18.  On any controller, from the submission of a transfer of at
    most 65535 bytes whose buffers do not overlap, and whatever the
    controller does, the bytes written to [TX_DATA] are the first [t]
    bytes of the transmit buffer as it was at submission, in order and
    each once (or [t] filler bytes [0xaa] when there is no transmit
    buffer), and [tx_len] is the length minus [t]. *)
Theorem transmit_stream_integrity (m0 m1 m : machine HW) (xfer : spi_transfer) :
  0 <= xfer_tx_buf xfer -> 0 <= xfer_rx_buf xfer ->
  0 <= xfer_len xfer <= MAX_LEN ->
  buffers_disjoint xfer ->
  mchp_corespi_transfer_one xfer m0 = Some (1, m1) ->
  follows m1 m ->
  let l := new_events m0 m in
  let t := tx_count l in
  0 <= t <= xfer_len xfer
  /\ tx_len (spi m) = xfer_len xfer - t
  /\ tx_data_writes l = tx_bytes (mem m0) (xfer_tx_buf xfer) (Z.to_nat t).
Proof.
  intros Ht Hr Hl Hd H F.
  destruct (stream_follows m0 xfer m1 m Ht Hr Hl H F)
    as (l & L & _ & Htl & _ & Ect & _ & _ & _ & _ & _ & Htx).
  cbv zeta. rewrite (new_events_app _ _ _ L).
  pose proof (tx_count_nonneg l).
  split; [lia|]. split; [lia|]. exact (Htx Hd).
Qed.

End Stream.
(** ** Interconnect node identifiers *)

Lemma qdu1000_decode (n : Qdu1000.node) :
  nth_error (Qdu1000.masters ++ Qdu1000.slaves)
            (Z.to_nat (if Qdu1000.id n <? 512 then Qdu1000.id n
                       else Qdu1000.id n - 512 + 33))
  = Some n.
Proof. destruct n; reflexivity. Qed.

(** X19.  The header gives every interconnect node of the QDU1000 a
    number of its own: two names with the same number are the same name.
    The masters are numbered 0 to 32 and the slaves 512 to 563, both
    without a gap and in the order of the header, and every name is a
    master or a slave. *)
Theorem qdu1000_ids_unique :
  (forall a b, Qdu1000.id a = Qdu1000.id b -> a = b)
  /\ map Qdu1000.id Qdu1000.masters = map Z.of_nat (seq 0 33)
  /\ map Qdu1000.id Qdu1000.slaves = map Z.of_nat (seq 512 52)
  /\ (forall n, In n (Qdu1000.masters ++ Qdu1000.slaves)).
Proof.
  split; [|split; [reflexivity|split; [reflexivity|]]].
  - intros a b H.
    pose proof (qdu1000_decode a) as Ha. rewrite H, qdu1000_decode in Ha.
    now injection Ha.
  - intros n. eapply nth_error_In. apply qdu1000_decode.
Qed.
(** ** The programming rule *)

Lemma disciplined_app l1 : forall d l2,
  disciplined d (l1 ++ l2)
  = disciplined d l1 && disciplined (fold_left dev_apply l1 d) l2.
Proof.
  induction l1 as [|e l1 IH]; intros d l2; [reflexivity|].
  cbn [app disciplined fold_left]. rewrite IH. apply andb_assoc.
Qed.

Lemma readl_control d reg : d_control (snd (dev_readl d reg)) = d_control d.
Proof.
  unfold dev_readl.
  repeat match goal with
  | |- context [if ?c then _ else _] => destruct c
  end; reflexivity.
Qed.

Section Rule.

Local Arguments u32 : simpl never.
Local Arguments u16 : simpl never.
Local Arguments Z.lor : simpl never.
Local Arguments Z.land : simpl never.
Local Arguments Z.shiftl : simpl never.
Local Arguments not64 : simpl never.
Local Arguments not32 : simpl never.
Local Arguments Z.testbit : simpl never.

Lemma keeps_bind {A B : Type} P Q R (c : M corespi_dev A) (f : A -> M corespi_dev B) :
  keeps_rule P c Q -> (forall a, keeps_rule (Q a) (f a) R) ->
  keeps_rule P (bind c f) R.
Proof.
  intros Hc Hf m HP. destruct (Hc m HP) as (l1 & E1 & H1 & D1 & Q1).
  unfold bind. destruct (c m) as [a m1]. cbn [fst snd] in *.
  destruct (Hf a m1 Q1) as (l2 & E2 & H2 & D2 & Q2).
  exists (l1 ++ l2). split; [rewrite E2, E1; apply eq_sym, app_assoc|].
  split; [rewrite H2, H1; apply eq_sym, fold_left_app|].
  split; [|exact Q2].
  rewrite disciplined_app, D1, <- H1. exact D2.
Qed.

Lemma keeps_weaken {A : Type} (P P' : corespi_dev -> Prop)
    (Q Q' : A -> corespi_dev -> Prop) (c : M corespi_dev A) :
  keeps_rule P c Q -> (forall d, P' d -> P d) -> (forall a d, Q a d -> Q' a d) ->
  keeps_rule P' c Q'.
Proof.
  intros Hc HP HQ m Hm. destruct (Hc m (HP _ Hm)) as (l & E & H & D & Hq).
  exists l. auto.
Qed.

Lemma keeps_forget {A : Type} o (Q : A -> corespi_dev -> Prop) (c : M corespi_dev A) :
  keeps_rule (in_state None) c Q ->
  keeps_rule (in_state o) c (fun _ => in_state None).
Proof.
  intros Hc. apply (keeps_weaken (in_state None) _ Q); [exact Hc| |]; intros; exact I.
Qed.

Lemma keeps_fact {A : Type} (P : corespi_dev -> Prop) (phi : Prop)
    (c : M corespi_dev A) Q :
  (phi -> keeps_rule P c Q) -> keeps_rule (fun d => P d /\ phi) c Q.
Proof. intros Hc m [HP Hphi]. exact (Hc Hphi m HP). Qed.

Lemma keeps_pure {A : Type} (c : M corespi_dev A) P :
  (forall m, hw (snd (c m)) = hw m /\ log (snd (c m)) = log m) ->
  keeps_rule P c (fun _ => P).
Proof.
  intros Hc m HP. destruct (Hc m) as [Eh El]. exists [].
  rewrite Eh, El, app_nil_r. cbn. auto.
Qed.

Lemma keeps_ret {A : Type} (a : A) P : keeps_rule P (ret a) (fun _ => P).
Proof. apply keeps_pure. intros m. split; reflexivity. Qed.

Lemma keeps_get_spi P : keeps_rule P get_spi (fun _ => P).
Proof. apply keeps_pure. intros m. split; reflexivity. Qed.

Lemma keeps_modify_spi f P : keeps_rule P (modify_spi f) (fun _ => P).
Proof. apply keeps_pure. intros m. split; reflexivity. Qed.

Lemma keeps_load_byte a P : keeps_rule P (load_byte a) (fun _ => P).
Proof. apply keeps_pure. intros m. split; reflexivity. Qed.

Lemma keeps_store_byte a v P : keeps_rule P (store_byte a v) (fun _ => P).
Proof. apply keeps_pure. intros m. split; reflexivity. Qed.

Lemma keeps_clk_get_rate P : keeps_rule P clk_get_rate (fun _ => P).
Proof. apply keeps_pure. intros m. split; reflexivity. Qed.

Lemma keeps_emit_err k P : keeps_rule P (emit (DevErr k)) (fun _ => P).
Proof. intros m HP. exists [DevErr k]. cbn. auto. Qed.

Lemma keeps_emit_finalize P :
  keeps_rule P (emit FinalizeCurrentTransfer) (fun _ => P).
Proof. intros m HP. exists [FinalizeCurrentTransfer]. cbn. auto. Qed.

Lemma keeps_when (b : bool) (c : M corespi_dev unit) (P R : corespi_dev -> Prop) :
  keeps_rule P c (fun _ => R) -> (forall d, P d -> R d) ->
  keeps_rule P (when b c) (fun _ => R).
Proof.
  intros Hc HPR. destruct b; [exact Hc|].
  apply (keeps_weaken P P (fun _ => P)); auto. apply keeps_ret.
Qed.

Lemma keeps_read o reg :
  keeps_rule (in_state o) (mchp_corespi_read reg) (fun _ => in_state o).
Proof.
  intros m HP. unfold mchp_corespi_read. cbn [readl corespi_mmio].
  destruct (dev_readl (hw m) reg) as [v h] eqn:E. cbn [fst snd hw log].
  exists [MmioRead reg (u32 v)].
  assert (Eh : h = snd (dev_readl (hw m) reg)) by now rewrite E.
  split; [reflexivity|]. split; [cbn; exact Eh|]. split; [reflexivity|].
  destruct o as [b|]; [|exact I]. unfold in_state, enabled in *.
  rewrite Eh, readl_control. exact HP.
Qed.

Lemma keeps_read_control b :
  keeps_rule (in_state (Some b)) (mchp_corespi_read REG_CONTROL)
    (fun v d => in_state (Some b) d /\ Z.testbit v 0 = b).
Proof.
  intros m HP. exists [MmioRead REG_CONTROL (u32 (d_control (hw m)))].
  cbn. repeat split; try reflexivity; try exact HP.
  rewrite u32_testbit_low by lia. exact HP.
Qed.

Lemma keeps_write_control P v b :
  Z.testbit (u32 v) 0 = b ->
  keeps_rule P (mchp_corespi_write REG_CONTROL v) (fun _ => in_state (Some b)).
Proof.
  intros Hb m HP. exists [MmioWrite REG_CONTROL (u32 v)].
  cbn. repeat split; try reflexivity. exact Hb.
Qed.

Lemma keeps_write_config reg v :
  reg = REG_FRAME_SIZE \/ reg = REG_CLK_GEN \/ reg = REG_FRAMESUP ->
  keeps_rule (in_state (Some false)) (mchp_corespi_write reg v)
    (fun _ => in_state (Some false)).
Proof.
  intros Hreg m HP. exists [MmioWrite reg (u32 v)].
  unfold in_state in HP.
  destruct Hreg as [-> | [-> | ->]]; cbn; rewrite HP; repeat split; exact HP.
Qed.

Lemma keeps_write_tx v :
  keeps_rule (in_state (Some true)) (mchp_corespi_write REG_TX_DATA v)
    (fun _ => in_state (Some true)).
Proof.
  intros m HP. exists [MmioWrite REG_TX_DATA (u32 v)].
  unfold in_state in HP. cbn. rewrite HP. repeat split; exact HP.
Qed.

Lemma keeps_write_other o reg v :
  reg = REG_INT_CLEAR \/ reg = REG_SLAVE_SELECT ->
  keeps_rule (in_state o) (mchp_corespi_write reg v) (fun _ => in_state o).
Proof.
  intros Hreg m HP. exists [MmioWrite reg (u32 v)].
  destruct Hreg as [-> | ->]; cbn; repeat split;
    (destruct o; [exact HP|exact I]).
Qed.

Ltac kstep lem := eapply keeps_bind; [ apply lem | intros ?; cbv beta ].

Ltac bit0 :=
  push_testbit; unfold CONTROL_FRAMECNT_SHIFT;
  rewrite ?(Z.shiftl_spec_low _ 8 0) by lia;
  eval_const_bits;
  repeat match goal with
  | H : Z.testbit _ 0 = _ |- _ => rewrite H
  end;
  solve_bool.

Lemma keeps_disable o :
  keeps_rule (in_state o) mchp_corespi_disable (fun _ => in_state (Some false)).
Proof.
  unfold mchp_corespi_disable. kstep (keeps_read o).
  apply keeps_write_control. bit0.
Qed.

Lemma keeps_set_xfer_size o len :
  keeps_rule (in_state o) (mchp_corespi_set_xfer_size len)
    (fun _ => in_state (Some true)).
Proof.
  unfold mchp_corespi_set_xfer_size. cbv zeta.
  kstep (keeps_disable o). kstep (keeps_read_control false).
  apply keeps_fact. intros Hc.
  eapply keeps_bind; [apply (keeps_write_control _ _ false); bit0 | intros ?; cbv beta].
  kstep keeps_write_config; [auto|].
  apply keeps_write_control. bit0.
Qed.

Lemma keeps_set_clk_gen o :
  keeps_rule (in_state o) mchp_corespi_set_clk_gen (fun _ => in_state (Some true)).
Proof.
  unfold mchp_corespi_set_clk_gen. cbv zeta.
  kstep (keeps_disable o). kstep (keeps_read_control false).
  apply keeps_fact. intros Hc.
  kstep keeps_get_spi.
  kstep keeps_write_config; [auto|].
  eapply keeps_bind; [apply (keeps_write_control _ _ false) | intros ?; cbv beta].
  - destruct (clk_mode _ =? 0); bit0.
  - apply keeps_write_control. destruct (clk_mode _ =? 0); bit0.
Qed.

Lemma keeps_set_framesize o bt :
  keeps_rule (in_state o) (mchp_corespi_set_framesize bt)
    (fun _ => in_state (Some true)).
Proof.
  unfold mchp_corespi_set_framesize. cbv zeta.
  kstep (keeps_disable o).
  kstep keeps_write_config; [auto|].
  kstep (keeps_read (Some false)).
  apply keeps_write_control. bit0.
Qed.

Lemma keeps_enable_ints o :
  keeps_rule (in_state o) mchp_corespi_enable_ints (fun _ => in_state (Some true)).
Proof.
  unfold mchp_corespi_enable_ints. cbv zeta.
  kstep (keeps_disable o). kstep (keeps_read (Some false)).
  eapply keeps_bind; [apply (keeps_write_control _ _ _ eq_refl) | intros ?; cbv beta].
  apply keeps_write_control. bit0.
Qed.

Lemma keeps_disable_ints o :
  keeps_rule (in_state o) mchp_corespi_disable_ints (fun _ => in_state (Some true)).
Proof.
  unfold mchp_corespi_disable_ints. cbv zeta.
  kstep (keeps_disable o). kstep (keeps_read (Some false)).
  eapply keeps_bind; [apply (keeps_write_control _ _ _ eq_refl) | intros ?; cbv beta].
  apply keeps_write_control. bit0.
Qed.

Lemma keeps_set_mode o mode :
  keeps_rule (in_state o) (mchp_corespi_set_mode mode)
    (fun _ => in_state (Some true)).
Proof.
  unfold mchp_corespi_set_mode. cbv zeta.
  kstep (keeps_disable o). kstep (keeps_read (Some false)).
  eapply keeps_bind; [apply (keeps_write_control _ _ _ eq_refl) | intros ?; cbv beta].
  apply keeps_write_control.
  repeat match goal with
  | |- context [if ?c then _ else _] => destruct c
  end; bit0.
Qed.

Lemma keeps_prepare_message o mode :
  keeps_rule (in_state o) (mchp_corespi_prepare_message mode)
    (fun _ => in_state (Some true)).
Proof.
  unfold mchp_corespi_prepare_message.
  kstep (keeps_set_framesize o). kstep (keeps_set_mode (Some true)).
  apply keeps_ret.
Qed.

Lemma keeps_init o :
  keeps_rule (in_state o) mchp_corespi_init (fun _ => in_state (Some true)).
Proof.
  unfold mchp_corespi_init. cbv zeta.
  kstep (keeps_read o). kstep (keeps_set_framesize o).
  kstep keeps_clk_get_rate. kstep (keeps_read (Some true)).
  eapply keeps_bind; [apply (keeps_write_control _ _ _ eq_refl) | intros ?; cbv beta].
  kstep keeps_enable_ints.
  kstep keeps_write_other; [auto|].
  kstep (keeps_read (Some true)).
  eapply keeps_bind; [apply (keeps_write_control _ _ true); bit0 | intros ?; cbv beta].
  apply keeps_ret.
Qed.

Lemma keeps_remove o :
  keeps_rule (in_state o) mchp_corespi_remove (fun _ => in_state (Some false)).
Proof.
  unfold mchp_corespi_remove.
  kstep (keeps_disable_ints o). apply keeps_disable.
Qed.

Lemma keeps_read_fifo_loop o n : forall i,
  keeps_rule (in_state o) (read_fifo_loop n i) (fun _ => in_state o).
Proof.
  induction n as [|n IH]; intros i; cbn [read_fifo_loop]; [apply keeps_ret|].
  kstep (keeps_read o).
  destruct (_ =? 0); [|apply keeps_ret].
  kstep (keeps_read o). cbv zeta. kstep keeps_get_spi.
  eapply keeps_bind; [|intros ?; apply IH].
  destruct (_ =? 0); [apply keeps_ret|].
  kstep keeps_store_byte. apply keeps_modify_spi.
Qed.

Lemma keeps_read_fifo o :
  keeps_rule (in_state o) mchp_corespi_read_fifo (fun _ => in_state o).
Proof.
  unfold mchp_corespi_read_fifo. cbv zeta.
  kstep keeps_get_spi. kstep keeps_read_fifo_loop.
  kstep keeps_modify_spi. apply keeps_modify_spi.
Qed.

Lemma keeps_write_fifo_loop n : forall i,
  keeps_rule (in_state (Some true)) (write_fifo_loop n i)
    (fun _ => in_state (Some true)).
Proof.
  induction n as [|n IH]; intros i; cbn [write_fifo_loop]; [apply keeps_ret|].
  kstep (keeps_read (Some true)).
  destruct (_ =? 0); [|apply keeps_ret].
  kstep keeps_get_spi.
  eapply keeps_bind with (Q := fun _ => in_state (Some true)).
  - destruct (_ =? 0); [apply keeps_ret|].
    kstep keeps_load_byte. kstep keeps_modify_spi. apply keeps_ret.
  - intros byte. kstep keeps_write_tx. apply IH.
Qed.

Lemma keeps_write_fifo o :
  keeps_rule (in_state o) mchp_corespi_write_fifo (fun _ => in_state (Some true)).
Proof.
  unfold mchp_corespi_write_fifo. cbv zeta.
  kstep keeps_get_spi. kstep (keeps_set_xfer_size o).
  kstep keeps_write_fifo_loop.
  kstep keeps_modify_spi. apply keeps_modify_spi.
Qed.

Lemma keeps_transfer_one_start o xfer :
  keeps_rule (in_state o) (transfer_one_start xfer) (fun _ => in_state (Some true)).
Proof.
  unfold transfer_one_start.
  kstep (keeps_set_clk_gen o).
  do 5 kstep keeps_modify_spi.
  kstep keeps_get_spi. kstep (keeps_set_xfer_size (Some true)).
  kstep keeps_get_spi.
  eapply keeps_bind; [|intros ?; apply keeps_ret].
  apply keeps_when; [apply keeps_write_fifo|auto].
Qed.

Lemma keeps_txdone_branch :
  keeps_rule (in_state None) txdone_branch (fun _ => in_state None).
Proof.
  unfold txdone_branch.
  kstep (keeps_write_other None); [auto|].
  kstep keeps_get_spi.
  eapply keeps_bind; [apply keeps_when; [apply keeps_read_fifo|auto] | intros ?; cbv beta].
  kstep keeps_get_spi.
  eapply keeps_bind;
    [apply keeps_when;
       [eapply (keeps_forget None); apply keeps_write_fifo|auto] | intros ?; cbv beta].
  kstep keeps_get_spi. apply keeps_ret.
Qed.

Lemma keeps_interrupt :
  keeps_rule (in_state None) mchp_corespi_interrupt (fun _ => in_state None).
Proof.
  unfold mchp_corespi_interrupt. cbv zeta.
  kstep (keeps_read None).
  destruct (_ =? 0); [apply keeps_ret|].
  eapply keeps_bind with (Q := fun _ => in_state None).
  { destruct (_ =? 0); [apply keeps_ret|apply keeps_txdone_branch]. }
  intros fin0.
  eapply keeps_bind with (Q := fun _ => in_state None).
  { apply keeps_when; [apply keeps_write_other; auto|auto]. }
  intros _.
  eapply keeps_bind with (Q := fun _ => in_state None).
  { destruct (_ =? 0); [apply keeps_ret|].
    kstep (keeps_write_other None); [auto|].
    kstep keeps_get_spi. kstep keeps_emit_err. apply keeps_ret. }
  intros fin1.
  eapply keeps_bind with (Q := fun _ => in_state None).
  { destruct (_ =? 0); [apply keeps_ret|].
    kstep (keeps_write_other None); [auto|].
    kstep keeps_get_spi. kstep keeps_emit_err. apply keeps_ret. }
  intros fin2.
  eapply keeps_bind with (Q := fun _ => in_state None).
  { apply keeps_when; [apply keeps_emit_finalize|auto]. }
  intros _. apply keeps_ret.
Qed.

End Rule.

Lemma keeps_rule_run {A : Type} (c : M corespi_dev A) o (m : machine corespi_dev) :
  keeps_rule (in_state None) c (fun _ => in_state o) ->
  disciplined (hw m) (new_events m (snd (c m))) = true
  /\ hw (snd (c m)) = fold_left dev_apply (new_events m (snd (c m))) (hw m)
  /\ in_state o (hw (snd (c m))).
Proof.
  intros Hc. destruct (Hc m I) as (l & E & H & D & Q).
  rewrite (new_events_app _ _ _ E). auto.
Qed.

(** X20. On the modelled controller and from any state, every entry point
    of the driver respects the programming rule of the controller:
    [FRAME_SIZE], [CLK_GEN] and [FRAMESUP] are written only while the
    controller is disabled, [TX_DATA] only while it is enabled.  The log
    is a complete trace: replaying it on the initial controller gives the
    final one.  [mchp_corespi_init], [mchp_corespi_prepare_message] and a
    started [mchp_corespi_transfer_one] leave the controller enabled,
    [mchp_corespi_remove] leaves it disabled. *)
Theorem driver_keeps_programming_rule (m : machine corespi_dev) :
  let obeys m' :=
    disciplined (hw m) (new_events m m') = true
    /\ hw m' = fold_left dev_apply (new_events m m') (hw m) in
  (let m' := snd (mchp_corespi_init m) in obeys m' /\ enabled (hw m') = true)
  /\ (forall mode,
        let m' := snd (mchp_corespi_prepare_message mode m) in
        obeys m' /\ enabled (hw m') = true)
  /\ (forall xfer r m',
        mchp_corespi_transfer_one xfer m = Some (r, m') ->
        obeys m' /\ (r = 1 -> enabled (hw m') = true))
  /\ (let m' := snd (mchp_corespi_interrupt m) in obeys m')
  /\ (let m' := snd (mchp_corespi_remove m) in obeys m' /\ enabled (hw m') = false).
Proof.
  cbv zeta. split; [|split; [|split; [|split]]].
  - destruct (keeps_rule_run _ _ m (keeps_init None)) as (D & H & Q); auto.
  - intros mode.
    destruct (keeps_rule_run _ _ m (keeps_prepare_message None mode))
      as (D & H & Q); auto.
  - intros xfer r m' Hrun. rewrite transfer_one_unfold in Hrun.
    destruct (mchp_corespi_calculate_clkgen _ _ _) as [[r0 s']|] eqn:Ec;
      [|discriminate].
    destruct (Z.eqb_spec r0 0) as [-> | Hne].
    + apply some_inj in Hrun.
      destruct (keeps_rule_run _ _
                  (Build_machine (hw m) (clk_rate m) s' (mem m) (log m))
                  (keeps_transfer_one_start None xfer)) as (D & H & Q); auto.
      apply (f_equal snd) in Hrun. cbn [snd] in Hrun. rewrite Hrun in D, H, Q.
      auto.
    + injection Hrun as <- <-.
      destruct (calculate_clkgen_frame _ _ _ _ _ Ec) as [[-> | [-> _]] _];
        [contradiction|].
      unfold new_events. cbn [hw log].
      rewrite skipn_app, skipn_all, Nat.sub_diag. cbn.
      repeat split. intros Hr. discriminate Hr.
  - destruct (keeps_rule_run _ _ m keeps_interrupt) as (D & H & Q); auto.
  - destruct (keeps_rule_run _ _ m (keeps_remove None)) as (D & H & Q); auto.
Qed.
(** ** The statements on the scenarios *)

Lemma scenario_accepted :
  mchp_corespi_transfer_one scenario_xfer scenario_m0 = Some (1, scenario_m1).
Proof. vm_compute. reflexivity. Qed.

Lemma scenario_served_wf : wf_spi (spi (on_hw loopback scenario_m1)).
Proof.
  unfold wf_spi, int_range, INT_MIN, INT_MAX.
  change (spi (on_hw loopback scenario_m1))
    with (Build_corespi 4128 8192 9 1 8 40 32).
  cbn [tx_buf rx_buf tx_len rx_len pending]. lia.
Qed.

Lemma scenario_follows : follows scenario_m1 scenario_m2.
Proof.
  change scenario_m2 with (snd (mchp_corespi_interrupt (on_hw loopback scenario_m1))).
  exact (follows_irq _ _ (follows_hw _ _ loopback (follows_refl _))).
Qed.

Lemma setup_selects_witness :
  0 <= 3 < 32 /\ fst (mchp_corespi_setup SPI_CS_HIGH 3 scenario_m1) = 0.
Proof.
  assert (H : 0 <= 3 < 32) by lia.
  split; [exact H|].
  exact (proj1 (setup_selects scenario_m1 SPI_CS_HIGH 3 H)).
Defined.

Lemma set_cs_composes_witness :
  hw (snd (mchp_corespi_set_cs 3 true (snd (mchp_corespi_set_cs 3 false scenario_m1))))
  = hw (snd (mchp_corespi_set_cs 3 true scenario_m1)).
Proof.
  assert (H : 0 <= 3 < 32) by lia.
  assert (H' : 0 <= 5 < 32) by lia.
  exact (proj1 (proj2 (set_cs_composes scenario_m1 3 5 false true H H'))).
Defined.

Lemma calculate_clkgen_range_witness :
  mchp_corespi_calculate_clkgen 20000000 spi_idle 1000000
  = Some (0, set_clk_gen 9 (set_clk_mode 1 spi_idle))
  /\ tx_buf (set_clk_gen 9 (set_clk_mode 1 spi_idle)) = tx_buf spi_idle.
Proof.
  assert (H : mchp_corespi_calculate_clkgen 20000000 spi_idle 1000000
              = Some (0, set_clk_gen 9 (set_clk_mode 1 spi_idle)))
    by (vm_compute; reflexivity).
  split; [exact H|].
  exact (proj1 (proj2 (calculate_clkgen_range 20000000 1000000 spi_idle 0 _ H))).
Defined.

Lemma calculate_clkgen_edges_witness :
  mchp_corespi_calculate_clkgen 20000000 spi_idle 0 = None.
Proof.
  assert (H : 0 < 20000000) by lia.
  exact (proj1 (proj2 (calculate_clkgen_edges spi_idle)) 20000000 H).
Defined.

Lemma read_fifo_drains_witness :
  wf_spi (spi discard_machine)
  /\ clk_rate (snd (mchp_corespi_read_fifo discard_machine)) = clk_rate discard_machine.
Proof.
  assert (H : wf_spi (spi discard_machine)).
  { unfold wf_spi, int_range, INT_MIN, INT_MAX. cbn. lia. }
  split; [exact H|].
  exact (proj1 (proj2 (read_fifo_drains discard_machine H))).
Defined.

Lemma write_fifo_fills_witness :
  wf_spi (spi filler_machine)
  /\ mem (snd (mchp_corespi_write_fifo filler_machine)) = mem filler_machine.
Proof.
  assert (H : wf_spi (spi filler_machine)).
  { unfold wf_spi, int_range, INT_MIN, INT_MAX. cbn. lia. }
  split; [exact H|].
  exact (proj2 (proj2 (proj2 (write_fifo_fills filler_machine H)))).
Defined.

Lemma transfer_one_programs_witness :
  mchp_corespi_transfer_one scenario_xfer scenario_m0 = Some (1, scenario_m1)
  /\ framecnt (d_control (hw scenario_m1)) = Z.min (xfer_len scenario_xfer) FIFO_DEPTH.
Proof.
  assert (Ht : 0 <= xfer_tx_buf scenario_xfer) by (cbn; lia).
  assert (Hr : 0 <= xfer_rx_buf scenario_xfer) by (cbn; lia).
  assert (Hl : 0 <= xfer_len scenario_xfer <= MAX_LEN) by (unfold MAX_LEN; cbn; lia).
  split; [exact scenario_accepted|].
  exact (proj1 (proj2 (proj2 (transfer_one_programs scenario_xfer scenario_m0
                                scenario_m1 Ht Hr Hl scenario_accepted)))).
Defined.

Lemma loopback_round_trip_witness :
  load_bytes (mem (pump (Z.to_nat ((xfer_len scenario_xfer + 31) / 32)) scenario_m1))
             (xfer_rx_buf scenario_xfer) (Z.to_nat (xfer_len scenario_xfer))
  = map u8 (load_bytes (mem scenario_m0) (xfer_tx_buf scenario_xfer)
                       (Z.to_nat (xfer_len scenario_xfer))).
Proof.
  assert (Ht : 0 < xfer_tx_buf scenario_xfer) by (cbn; lia).
  assert (Hr : 0 < xfer_rx_buf scenario_xfer) by (cbn; lia).
  assert (Hl : 0 < xfer_len scenario_xfer <= MAX_LEN) by (unfold MAX_LEN; cbn; lia).
  assert (Hd : xfer_tx_buf scenario_xfer + xfer_len scenario_xfer
               <= xfer_rx_buf scenario_xfer
               \/ xfer_rx_buf scenario_xfer + xfer_len scenario_xfer
                  <= xfer_tx_buf scenario_xfer) by (left; cbn; lia).
  exact (proj1 (loopback_round_trip scenario_m0 scenario_xfer scenario_m1
                  Ht Hr Hl Hd eq_refl eq_refl eq_refl scenario_accepted)).
Defined.

Lemma interrupt_acknowledges_witness :
  wf_spi (spi (on_hw loopback scenario_m1))
  /\ pending_causes (snd (mchp_corespi_interrupt (on_hw loopback scenario_m1))) = 0.
Proof.
  split; [exact scenario_served_wf|].
  exact (proj1 (proj2 (interrupt_acknowledges (on_hw loopback scenario_m1)
                         scenario_served_wf))).
Defined.

Lemma receive_buffer_integrity_witness :
  follows scenario_m1 scenario_m2
  /\ rx_len (spi scenario_m2)
     = xfer_len scenario_xfer - rx_count (new_events scenario_m0 scenario_m2).
Proof.
  assert (Ht : 0 <= xfer_tx_buf scenario_xfer) by (cbn; lia).
  assert (Hr : 0 <= xfer_rx_buf scenario_xfer) by (cbn; lia).
  assert (Hl : 0 <= xfer_len scenario_xfer <= MAX_LEN) by (unfold MAX_LEN; cbn; lia).
  split; [exact scenario_follows|].
  exact (proj1 (proj2 (receive_buffer_integrity scenario_m0 scenario_m1 scenario_m2
                         scenario_xfer Ht Hr Hl scenario_accepted scenario_follows))).
Defined.

Lemma transmit_stream_integrity_witness :
  buffers_disjoint scenario_xfer
  /\ tx_len (spi scenario_m2)
     = xfer_len scenario_xfer - tx_count (new_events scenario_m0 scenario_m2).
Proof.
  assert (Ht : 0 <= xfer_tx_buf scenario_xfer) by (cbn; lia).
  assert (Hr : 0 <= xfer_rx_buf scenario_xfer) by (cbn; lia).
  assert (Hl : 0 <= xfer_len scenario_xfer <= MAX_LEN) by (unfold MAX_LEN; cbn; lia).
  assert (Hd : buffers_disjoint scenario_xfer)
    by (unfold buffers_disjoint; right; right; left; cbn; lia).
  split; [exact Hd|].
  exact (proj1 (proj2 (transmit_stream_integrity scenario_m0 scenario_m1 scenario_m2
                         scenario_xfer Ht Hr Hl Hd scenario_accepted scenario_follows))).
Defined.

Lemma driver_keeps_programming_rule_witness :
  mchp_corespi_transfer_one scenario_xfer scenario_m0 = Some (1, scenario_m1)
  /\ enabled (hw scenario_m1) = true.
Proof.
  split; [exact scenario_accepted|].
  exact (proj2 (proj1 (proj2 (proj2 (driver_keeps_programming_rule scenario_m0)))
                  scenario_xfer 1 scenario_m1 scenario_accepted) eq_refl).
Defined.
